(** * favs: bookmark aggregation pipeline and MCP server

    A shallow embedding of the core of [github.com/cloudygreybeard/favs]
    (packages [bookmark], [adapter], [input], [output], [config], [cmd] and
    [mcp]) together with the properties its design document states about
    the filter engine, deduplication, the adapter registry, the all-sources
    read path and the cached protocol server.

    Conventions of the embedding:
    - a Go [string] is a byte sequence: [string] of the Standard Library;
    - a Go [int] is a 64-bit signed integer: a [Z], arithmetic on it goes
      through [int_wrap]; [len] is [Z.of_nat] of a length;
    - a Go [map[string]T] is a [gmap string T];
    - a [for _, x := range xs] loop that threads local variables is a
      [fold_left] over [xs] whose accumulator holds those variables;
    - a Go interface is a record of its methods;
    - functions of libraries outside the repository ([regexp],
      [encoding/json], [strings.ToLower], [os], [filepath], [yaml]) are
      fields of type classes. *)

From Stdlib Require Import Ascii.
From stdpp Require Import gmap strings list sorting pretty.

Local Open Scope Z_scope.

(** ** Go primitives used by the code *)

Module go.

Definition MaxInt : Z := 2 ^ 63 - 1.

(** Two's complement wrap-around of [int] arithmetic. *)
Definition int_wrap (z : Z) : Z := (z + 2 ^ 63) `mod` 2 ^ 64 - 2 ^ 63.

(** [len(s)] of a string and of a slice. *)
Definition len_s (s : string) : Z := Z.of_nat (String.length s).
Definition len {A} (l : list A) : Z := Z.of_nat (length l).

(** [m[k]] on a [map[string]bool]: the zero value when [k] is absent. *)
Definition map_get (m : gmap string bool) (k : string) : bool :=
  default false (m !! k).

(** [s[:n]]; callers below stay within [0 <= n <= len(s)]. *)
Definition slice_to (s : string) (n : Z) : string :=
  String.substring 0 (Z.to_nat n) s.

(** [s[i:j]]. *)
Definition slice (s : string) (i j : Z) : string :=
  String.substring (Z.to_nat i) (Z.to_nat (j - i)) s.

(** [strings.HasPrefix]. *)
Fixpoint strings_HasPrefix (s prefix : string) : bool :=
  match prefix, s with
  | EmptyString, _ => true
  | String _ _, EmptyString => false
  | String p prefix', String c s' =>
      if decide (p = c) then strings_HasPrefix s' prefix' else false
  end.

(** [strings.Index]: byte offset of the first occurrence, [-1] if none. *)
Fixpoint strings_Index (s substr : string) : Z :=
  if strings_HasPrefix s substr then 0
  else match s with
       | EmptyString => -1
       | String _ s' =>
           let i := strings_Index s' substr in
           if i <? 0 then -1 else i + 1
       end.

(** [strings.Contains(s, substr)] is [Index(s, substr) >= 0]. *)
Definition strings_Contains (s substr : string) : bool :=
  0 <=? strings_Index s substr.

(** [strings.Join]. *)
Fixpoint strings_Join (elems : list string) (sep : string) : string :=
  match elems with
  | [] => ""
  | [e] => e
  | e :: rest => e +:+ sep +:+ strings_Join rest sep
  end.

(** [%d] of [fmt.Sprintf]. *)
Definition itoa (z : Z) : string := pretty z.

(** [strings.ToLower] maps Unicode letters; it is not part of the
    repository. *)
Class Unicode := { strings_ToLower : string → string }.

(** Package [regexp]. *)
Class RegexpPkg := {
  Regexp : Type;
  regexp_Compile : string → option Regexp;
  MatchString : Regexp → string → bool
}.

(** ASCII lower-casing, which is what [strings.ToLower] does on strings
    of ASCII bytes. *)
Definition ascii_lower (c : ascii) : ascii :=
  let n := N_of_ascii c in
  if ((65 <=? n) && (n <=? 90))%N then ascii_of_N ((n + 32) `mod` 256) else c.

Fixpoint ascii_ToLower (s : string) : string :=
  match s with
  | EmptyString => EmptyString
  | String c s' => String (ascii_lower c) (ascii_ToLower s')
  end.

End go.

(** ** Package [bookmark] *)

Module bookmark.
Import go.

Record Bookmark := {
  Title : string;
  URL : string;
  FolderPath : list string;
  DateAdded : Z;            (* [time.Time], opaque to the core *)
  Source : string;
  Profile : string;
  Tags : list string
}.

Record SourceInfo := {
  Name : string;
  SrcProfile : string;      (* field [Profile] of [SourceInfo] *)
  Path : string;
  Count : Z
}.

Record Collection := {
  Bookmarks : list Bookmark;
  Sources : list SourceInfo
}.

Definition NewCollection : Collection :=
  {| Bookmarks := []; Sources := [] |}.

(** [func (c *Collection) Add(bookmarks []Bookmark, source SourceInfo)];
    the receiver is returned updated. *)
Definition Add (c : Collection) (bookmarks : list Bookmark)
    (source : SourceInfo) : Collection :=
  let source := {| Name := Name source; SrcProfile := SrcProfile source;
                   Path := Path source; Count := len bookmarks |} in
  {| Bookmarks := Bookmarks c ++ bookmarks;
     Sources := Sources c ++ [source] |}.

(** [func (c *Collection) Count() int]. *)
Definition Collection_Count (c : Collection) : Z := len (Bookmarks c).

Record FilterOptions := {
  IncludeFolders : list string;
  ExcludeFolders : list string;
  ExcludeURLPatterns : list string;
  ExcludeProtocols : list string;
  WarnProtocols : list string;
  MaxURLLength : Z;
  WarnURLLength : Z
}.

Record FilterResult := {
  FBookmarks : list Bookmark;   (* field [Bookmarks] of [FilterResult] *)
  Warnings : list string;
  Excluded : Z
}.

Definition extractProtocol `{Unicode} (url : string) : string :=
  let idx := strings_Index url ":" in
  if idx <=? 0 then "" else strings_ToLower (slice_to url idx).

(** For [maxLen < 0] and [len(s) > maxLen] the Go slice expression
    panics; both call sites pass the literals 40 and 60. *)
Definition truncate (s : string) (maxLen : Z) : string :=
  if len_s s <=? maxLen then s
  else if maxLen <=? 3 then slice_to s maxLen
  else slice_to s (maxLen - 3) +:+ "...".

Section filter.
Context `{Unicode} `{RegexpPkg}.

(** The first loop of [Filter]: patterns that do not compile are
    dropped. *)
Definition compile_patterns (ps : list string) : list Regexp :=
  fold_left (λ patterns p,
               match regexp_Compile p with
               | Some re => patterns ++ [re]
               | None => patterns
               end) ps [].

(** The protocol lookup maps. *)
Definition proto_map (ps : list string) : gmap string bool :=
  fold_left (λ m p, <[strings_ToLower p := true]> m) ps ∅.

(** The exclusion checks of the loop body, in source order; each later
    check runs only while [excluded] is still false.  A loop that sets
    a flag and breaks at the first hit is [existsb].  The variable
    [reason] is assigned and discarded by the code. *)
Definition is_excluded (opts : FilterOptions) (patterns : list Regexp)
    (excludeProtos : gmap string bool) (b : Bookmark) : bool :=
  let folderStr := strings_Join (FolderPath b) "/" in
  let excluded := false in
  let proto := extractProtocol (URL b) in
  let excluded := if map_get excludeProtos proto then true else excluded in
  let excluded :=
    if negb excluded && (0 <? MaxURLLength opts)
       && (MaxURLLength opts <? len_s (URL b))
    then true else excluded in
  let excluded :=
    if negb excluded && (0 <? len (IncludeFolders opts)) then
      let matched := existsb (strings_Contains folderStr) (IncludeFolders opts) in
      if negb matched then true else excluded
    else excluded in
  let excluded :=
    if negb excluded then
      if existsb (strings_Contains folderStr) (ExcludeFolders opts)
      then true else excluded
    else excluded in
  let excluded :=
    if negb excluded then
      if existsb (λ p, MatchString p (URL b)) patterns
      then true else excluded
    else excluded in
  excluded.

Definition protocol_warning (b : Bookmark) (proto : string) : string :=
  "bookmark '" +:+ truncate (Title b) 40 +:+ "' uses protocol '"
    +:+ proto +:+ "': " +:+ truncate (URL b) 60.

Definition length_warning (b : Bookmark) : string :=
  "bookmark '" +:+ truncate (Title b) 40 +:+ "' has long URL ("
    +:+ itoa (len_s (URL b)) +:+ " chars): " +:+ truncate (URL b) 60.

(** One iteration of the main loop, on the running [result]. *)
Definition Filter_step (opts : FilterOptions) (patterns : list Regexp)
    (excludeProtos warnProtos : gmap string bool)
    (result : FilterResult) (b : Bookmark) : FilterResult :=
  if is_excluded opts patterns excludeProtos b then
    {| FBookmarks := FBookmarks result; Warnings := Warnings result;
       Excluded := int_wrap (Excluded result + 1) |}
  else
    let proto := extractProtocol (URL b) in
    let warnings := Warnings result in
    let warnings :=
      if map_get warnProtos proto
      then warnings ++ [protocol_warning b proto] else warnings in
    let warnings :=
      if (0 <? WarnURLLength opts) && (WarnURLLength opts <? len_s (URL b))
      then warnings ++ [length_warning b] else warnings in
    {| FBookmarks := FBookmarks result ++ [b]; Warnings := warnings;
       Excluded := Excluded result |}.

Definition Filter (bookmarks : list Bookmark) (opts : FilterOptions)
    : FilterResult :=
  let patterns := compile_patterns (ExcludeURLPatterns opts) in
  let excludeProtos := proto_map (ExcludeProtocols opts) in
  let warnProtos := proto_map (WarnProtocols opts) in
  fold_left (Filter_step opts patterns excludeProtos warnProtos) bookmarks
    {| FBookmarks := []; Warnings := []; Excluded := 0 |}.
End filter.

(** [Deduplicate]: the loop state is the [seen] map and the [result]
    slice. *)
Definition Deduplicate_step (st : gmap string bool * list Bookmark)
    (b : Bookmark) : gmap string bool * list Bookmark :=
  let '(seen, result) := st in
  if negb (map_get seen (URL b))
  then (<[URL b := true]> seen, result ++ [b])
  else (seen, result).

Definition Deduplicate (bookmarks : list Bookmark) : list Bookmark :=
  snd (fold_left Deduplicate_step bookmarks (∅, [])).

End bookmark.

(** ** Package [input]: the source-reader interface *)

Module input.

(** [input.Config]; the [Options] map is never set by the callers in
    [cmd] and [mcp]. *)
Record Config := {
  Enabled : bool;
  Profile : string;
  CustomPath : string
}.

Record ProfileInfo := {
  PName : string;
  PPath : string;
  IsDefault : bool
}.

(** [input.Adapter].  A Go adapter is an object whose [Configure] stores
    the configuration that the later [Path] and [Read] calls consult, so
    those two methods take the configuration of the preceding
    [Configure] call.  [Configure] returns the error ([None] for [nil]);
    [Read] returns Go's pair of a slice and an error.  [NewPath] and
    [ListProfiles] are [Path] and [ListProfiles] called on the adapter as
    its package registered it, before any [Configure], which is how the
    profile listing calls them. *)
Record Adapter := {
  Name : string;
  DisplayName : string;
  Available : bool;
  Configure : Config → option string;
  Path : Config → string;
  Read : Config → list bookmark.Bookmark * option string;
  NewPath : string;
  ListProfiles : list ProfileInfo * option string
}.

(** Method invocations on a registered adapter, for the traces of the
    protocol server. *)
Inductive Call :=
  | CallAvailable (name : string)
  | CallDisplayName (name : string)
  | CallConfigure (name : string) (cfg : Config)
  | CallRead (name : string)
  | CallPath (name : string).

End input.

(** ** Package [output]: the renderer interface *)

Module output.

Record RenderOptions := {
  IncludeMetadata : bool;
  IncludeDates : bool;
  IncludeTags : bool;
  IncludeProfile : bool;
  GroupBySource : bool;
  SortAlpha : bool;
  Style : string
}.

Definition DefaultRenderOptions : RenderOptions :=
  {| IncludeMetadata := true; IncludeDates := true; IncludeTags := true;
     IncludeProfile := true; GroupBySource := true; SortAlpha := false;
     Style := "" |}.

(** [output.Adapter].  [Render] returns the bytes and the error; the
    renderers of the repository read the clock ([time.Now] in the
    metadata header), which is the first argument. *)
Record Adapter := {
  Name : string;
  DisplayName : string;
  Extensions : list string;
  Render : Z → bookmark.Collection → RenderOptions → string * option string
}.

End output.

(** ** Package [config] *)

Module config.

Record InputConfig := {
  Enabled : bool;
  Profile : string;
  CustomPath : string
}.

Record InputsConfig := {
  Chrome : InputConfig;
  Edge : InputConfig;
  Firefox : InputConfig;
  Safari : InputConfig;
  Chromium : InputConfig;
  Brave : InputConfig
}.

Record FilterConfig := {
  IncludeFolders : list string;
  ExcludeFolders : list string;
  ExcludeURLPatterns : list string;
  ExcludeProtocols : list string;
  WarnProtocols : list string;
  MaxURLLength : Z;
  WarnURLLength : Z
}.

Record TransformConfig := {
  Deduplicate : bool;
  Sort : bool
}.

Record RenderConfig := {
  IncludeMetadata : bool;
  IncludeDates : bool;
  IncludeTags : bool;
  IncludeProfile : bool;
  GroupBySource : bool
}.

Record PipelineConfig := {
  Filter : FilterConfig;
  Transform : TransformConfig;
  Render : RenderConfig
}.

Record Config := {
  Inputs : InputsConfig;
  Pipeline : PipelineConfig
}.

(** The zero value [InputConfig{}]. *)
Definition InputConfig_zero : InputConfig :=
  {| Enabled := false; Profile := ""; CustomPath := "" |}.

Definition Default : Config :=
  {| Inputs :=
       {| Chrome := {| Enabled := true; Profile := ""; CustomPath := "" |};
          Edge := {| Enabled := true; Profile := ""; CustomPath := "" |};
          Firefox := {| Enabled := true; Profile := ""; CustomPath := "" |};
          Safari := {| Enabled := true; Profile := ""; CustomPath := "" |};
          Chromium := InputConfig_zero;
          Brave := InputConfig_zero |};
     Pipeline :=
       {| Filter :=
            {| IncludeFolders := []; ExcludeFolders := ["Trash"];
               ExcludeURLPatterns := [];
               ExcludeProtocols := ["data"; "javascript"];
               WarnProtocols := ["file"; "chrome"; "about"; "blob"];
               MaxURLLength := 0; WarnURLLength := 2048 |};
          Transform := {| Deduplicate := false; Sort := false |};
          Render :=
            {| IncludeMetadata := true; IncludeDates := true;
               IncludeTags := true; IncludeProfile := true;
               GroupBySource := true |} |} |}.

(** The calls of the [os], [filepath] and [yaml] packages the package
    makes.  An error is its message; [os_ReadFile] returns the data or
    the error, [os_Stat] whether the error is [nil], [os_UserHomeDir]
    the directory (empty on error), and [yaml_Unmarshal] the
    configuration after the fields of the document were stored in it,
    with the error. *)
Class OS := {
  os_ReadFile : string → string + string;
  os_IsNotExist : string → bool;
  os_Stat : string → bool;
  os_UserHomeDir : string;
  filepath_Join : list string → string;
  yaml_Unmarshal : string → Config → Config * option string
}.

Section files.
Context `{OS}.

Definition Load (path : string) : Config * option string :=
  let cfg := Default in
  match os_ReadFile path with
  | inr err => if os_IsNotExist err then (cfg, None) else (cfg, Some err)
  | inl data =>
      let '(cfg, err) := yaml_Unmarshal data cfg in
      match err with
      | Some err => (cfg, Some err)
      | None => (cfg, None)
      end
  end.

Definition DefaultPath : string :=
  let home := os_UserHomeDir in
  filepath_Join [home; ".favs"; "config.yaml"].

(** The loop of [LocalPath]: the first path that exists. *)
Fixpoint LocalPath_loop (paths : list string) : string :=
  match paths with
  | [] => ""
  | p :: rest => if os_Stat p then p else LocalPath_loop rest
  end.

Definition LocalPath : string :=
  let paths :=
    ["favs.yaml"; "favs.yml"; ".favs.yaml"; ".favs.yml"; "config.yaml"] in
  LocalPath_loop paths.
End files.

Definition GetInputConfig (c : Config) (name : string) : InputConfig :=
  if decide (name = "chrome") then Chrome (Inputs c)
  else if decide (name = "edge") then Edge (Inputs c)
  else if decide (name = "firefox") then Firefox (Inputs c)
  else if decide (name = "safari") then Safari (Inputs c)
  else if decide (name = "chromium") then Chromium (Inputs c)
  else if decide (name = "brave") then Brave (Inputs c)
  else InputConfig_zero.

End config.

(** ** Package [adapter]: the registry *)

Module adapter.

(** The two package-level maps.  The mutexes only serialise accesses;
    each function below is one critical section. *)
Record Registry := {
  inputs : gmap string input.Adapter;
  outputs : gmap string output.Adapter
}.

Definition empty : Registry := {| inputs := ∅; outputs := ∅ |}.

Definition RegisterInput (a : input.Adapter) (r : Registry) : Registry :=
  {| inputs := <[input.Name a := a]> (inputs r); outputs := outputs r |}.

Definition RegisterOutput (a : output.Adapter) (r : Registry) : Registry :=
  {| inputs := inputs r; outputs := <[output.Name a := a]> (outputs r) |}.

(** [a, ok := inputs[name]]: [Some a] when [ok]. *)
Definition GetInput (r : Registry) (name : string) : option input.Adapter :=
  inputs r !! name.

Definition GetOutput (r : Registry) (name : string) : option output.Adapter :=
  outputs r !! name.

(** [sort.Strings]: ascending in Go's [<] on strings, the byte-wise
    lexicographic order [String.le]. *)
Definition sort_Strings (names : list string) : list string :=
  merge_sort String.le names.

(** [for name := range m] visits the keys in an unspecified order;
    [map_to_list] fixes one. *)
Definition range_keys {V} (m : gmap string V) : list string :=
  (map_to_list m).*1.

Definition ListInputs (r : Registry) : list string :=
  sort_Strings (range_keys (inputs r)).

Definition ListOutputs (r : Registry) : list string :=
  sort_Strings (range_keys (outputs r)).

(** [AllInputs]: the registered adapters, in the iteration order of the
    map. *)
Definition AllInputs (r : Registry) : list input.Adapter :=
  (map_to_list (inputs r)).*2.

Definition AllOutputs (r : Registry) : list output.Adapter :=
  (map_to_list (outputs r)).*2.

(** [AvailableInputs]: those whose [Available] reports true. *)
Definition AvailableInputs (r : Registry) : list input.Adapter :=
  fold_left (λ available a,
               if input.Available a then available ++ [a] else available)
    (AllInputs r) [].

End adapter.

(** ** Package [cmd]: the pipeline orchestrator

    [logVerbose] writes to standard error and has no other effect; the
    calls are left out. *)

Module cmd.
Import go bookmark.

Definition inputPreference : list string :=
  ["chrome"; "firefox"; "edge"; "safari"; "chromium"; "brave"].

(** The configuration handed to [Configure] in all-sources mode. *)
Definition all_profiles_config (inputCfg : config.InputConfig) : input.Config :=
  {| input.Enabled := true; input.Profile := "";
     input.CustomPath := config.CustomPath inputCfg |}.

(** [bookmarks[0].Profile] under the guard [len(bookmarks) > 0]. *)
Definition first_profile (bookmarks : list Bookmark) : string :=
  let profile := "" in
  match bookmarks with
  | b :: _ => Profile b
  | [] => profile
  end.

(** The body of the loop of [readAllInputs]; every [continue] returns
    the collection unchanged. *)
Definition readAllInputs_step (reg : adapter.Registry) (cfg : config.Config)
    (collection : Collection) (name : string) : Collection :=
  match adapter.GetInput reg name with
  | None => collection
  | Some inp =>
      let inputCfg := config.GetInputConfig cfg name in
      if negb (config.Enabled inputCfg) then collection
      else if negb (input.Available inp) then collection
      else
        let icfg := all_profiles_config inputCfg in
        match input.Configure inp icfg with
        | Some _ => collection
        | None =>
            let '(bookmarks, err) := input.Read inp icfg in
            match err with
            | Some _ => collection
            | None =>
                if 0 <? len bookmarks then
                  Add collection bookmarks
                    {| Name := name; SrcProfile := first_profile bookmarks;
                       Path := input.Path inp icfg; Count := 0 |}
                else collection
            end
        end
  end.

(** [readAllInputs]: the updated collection and the returned error. *)
Definition readAllInputs (reg : adapter.Registry) (cfg : config.Config)
    (collection : Collection) : Collection * option string :=
  (fold_left (readAllInputs_step reg cfg) inputPreference collection, None).

(** The preference scan of [readPreferredInput]: the first registered,
    enabled and available adapter. *)
Fixpoint first_available (reg : adapter.Registry) (cfg : config.Config)
    (names : list string) : option input.Adapter :=
  match names with
  | [] => None
  | name :: rest =>
      match adapter.GetInput reg name with
      | None => first_available reg cfg rest
      | Some inp =>
          if negb (config.Enabled (config.GetInputConfig cfg name))
          then first_available reg cfg rest
          else if input.Available inp then Some inp
          else first_available reg cfg rest
      end
  end.

Definition readPreferredInput (reg : adapter.Registry) (cfg : config.Config)
    (browserFlag profileFlag : string) (collection : Collection)
    : Collection * option string :=
  let target :=
    if decide (browserFlag ≠ "") then
      match adapter.GetInput reg browserFlag with
      | None => inl ("unknown browser: " +:+ browserFlag)
      | Some inp => inr (Some inp)
      end
    else inr (first_available reg cfg inputPreference) in
  match target with
  | inl err => (collection, Some err)
  | inr None => (collection, Some "no available browser found")
  | inr (Some targetInput) =>
      let inputCfg := config.GetInputConfig cfg (input.Name targetInput) in
      let profile :=
        if decide (profileFlag ≠ "") then profileFlag
        else if decide (config.Profile inputCfg = "") then "Default"
        else config.Profile inputCfg in
      let icfg := {| input.Enabled := true; input.Profile := profile;
                     input.CustomPath := config.CustomPath inputCfg |} in
      match input.Configure targetInput icfg with
      | Some err =>
          (collection,
           Some ("configuring " +:+ input.Name targetInput +:+ ": " +:+ err))
      | None =>
          let '(bookmarks, err) := input.Read targetInput icfg in
          match err with
          | Some err =>
              (collection,
               Some ("reading from " +:+ input.Name targetInput +:+ ": " +:+ err))
          | None =>
              (Add collection bookmarks
                 {| Name := input.Name targetInput; SrcProfile := profile;
                    Path := input.Path targetInput icfg; Count := 0 |},
               None)
          end
      end
  end.

(** The command-line flags [runSync] reads.  [cfgFile] is the variable
    the flag [config] is stored in; [metadata], [group] and [sort_flag]
    hold the value of the flag when it was given on the command line
    ([Changed]); [list_flag] and [output_flag] are the flags [list] and
    [output]. *)
Record Flags := {
  cfgFile : string;
  list_flag : bool;
  metadata : option bool;
  group : option bool;
  sort_flag : option bool;
  all : bool;
  browser : string;
  profile : string;
  exclude_protocols : list string;
  warn_protocols : list string;
  max_url_length : Z;
  warn_url_length : Z;
  format : string;
  style : string;
  output_flag : string
}.

(** What the file system answers when [runSync] writes its output:
    [filepath.Dir], and the errors of [os.MkdirAll] and [os.WriteFile]
    ([None] for [nil]). *)
Class Env := {
  filepath_Dir : string → string;
  os_MkdirAll : string → option string;
  os_WriteFile : string → string → option string
}.

Definition loadConfig `{config.OS} (cfgFile : string)
    : config.Config * option string :=
  let path := cfgFile in
  let path := if decide (path = "") then config.LocalPath else path in
  let path := if decide (path = "") then config.DefaultPath else path in
  let '(cfg, err) := config.Load path in
  match err with
  | Some err =>
      if negb (config.os_IsNotExist err) then (cfg, Some err) else (cfg, None)
  | None => (cfg, None)
  end.

Definition newline : string := String (ascii_of_N 10) "".

(** The body of the loop of [runListProfiles], on the text printed so
    far. *)
Definition runListProfiles_step (reg : adapter.Registry) (printed : string)
    (name : string) : string :=
  match adapter.GetInput reg name with
  | None => printed
  | Some inp =>
      let status :=
        if input.Available inp then "available" else "not available" in
      let printed :=
        printed +:+ "  " +:+ input.DisplayName inp
          +:+ " (" +:+ status +:+ ")" +:+ newline in
      let printed :=
        printed +:+ "    Path: " +:+ input.NewPath inp +:+ newline in
      let printed :=
        if input.Available inp then
          let '(profiles, err) := input.ListProfiles inp in
          match err with
          | Some _ => printed
          | None =>
              if 0 <? len profiles then
                fold_left
                  (λ printed p,
                     let def :=
                       if input.IsDefault p then " (default)" else "" in
                     printed +:+ "      - " +:+ input.PName p +:+ def
                       +:+ newline)
                  profiles (printed +:+ "    Profiles:" +:+ newline)
              else printed
          end
        else printed in
      printed +:+ newline
  end.

(** [runListProfiles]: the text printed on standard output and the
    returned error. *)
Definition runListProfiles (reg : adapter.Registry) : string * option string :=
  (fold_left (runListProfiles_step reg) inputPreference
     ("Available browser profiles:" +:+ newline +:+ newline),
   None).

Definition applyFlagOverrides (flags : Flags) (cfg : config.Config)
    : config.Config :=
  let pipeline := config.Pipeline cfg in
  let render := config.Render pipeline in
  let transform := config.Transform pipeline in
  {| config.Inputs := config.Inputs cfg;
     config.Pipeline :=
       {| config.Filter := config.Filter pipeline;
          config.Transform :=
            {| config.Deduplicate := config.Deduplicate transform;
               config.Sort :=
                 match sort_flag flags with
                 | Some v => v
                 | None => config.Sort transform
                 end |};
          config.Render :=
            {| config.IncludeMetadata :=
                 match metadata flags with
                 | Some v => v
                 | None => config.IncludeMetadata render
                 end;
               config.IncludeDates := config.IncludeDates render;
               config.IncludeTags := config.IncludeTags render;
               config.IncludeProfile := config.IncludeProfile render;
               config.GroupBySource :=
                 match group flags with
                 | Some v => v
                 | None => config.GroupBySource render
                 end |} |} |}.

(** What a run of [runSync] that returns [nil] has put out: the profile
    listing, or the rendered bytes of the filtered collection, printed
    on standard output or written to the file [outPath]. *)
Inductive Outcome :=
  | Listed (text : string)
  | Printed (filteredCollection : Collection) (data : string)
  | Written (filteredCollection : Collection) (outPath : string)
      (data : string).

(** "Build filter options from config and flags". *)
Definition filterOpts_of (cfg : config.Config) (flags : Flags) : FilterOptions :=
  let f := config.Filter (config.Pipeline cfg) in
  {| IncludeFolders := config.IncludeFolders f;
     ExcludeFolders := config.ExcludeFolders f;
     ExcludeURLPatterns := config.ExcludeURLPatterns f;
     ExcludeProtocols :=
       if 0 <? len (exclude_protocols flags) then exclude_protocols flags
       else config.ExcludeProtocols f;
     WarnProtocols :=
       if 0 <? len (warn_protocols flags) then warn_protocols flags
       else config.WarnProtocols f;
     MaxURLLength :=
       if 0 <? max_url_length flags then max_url_length flags
       else config.MaxURLLength f;
     WarnURLLength :=
       if 0 <? warn_url_length flags then warn_url_length flags
       else config.WarnURLLength f |}.

Section pipeline.
Context `{Unicode} `{RegexpPkg} `{config.OS} `{Env}.

(** "Apply filters" up to "Update collection with filtered bookmarks":
    the [filteredCollection] of [runSync]. *)
Definition filteredCollection_of (cfg : config.Config) (flags : Flags)
    (collection : Collection) : Collection :=
  let filterResult := Filter (Bookmarks collection) (filterOpts_of cfg flags) in
  let filtered := FBookmarks filterResult in
  let filtered :=
    if config.Deduplicate (config.Transform (config.Pipeline cfg))
    then Deduplicate filtered else filtered in
  {| Bookmarks := filtered; Sources := Sources collection |}.

Definition renderOpts_of (cfg : config.Config) (flags : Flags)
    : output.RenderOptions :=
  let r := config.Render (config.Pipeline cfg) in
  {| output.IncludeMetadata := config.IncludeMetadata r;
     output.IncludeDates := config.IncludeDates r;
     output.IncludeTags := config.IncludeTags r;
     output.IncludeProfile := config.IncludeProfile r;
     output.GroupBySource := all flags && config.GroupBySource r;
     output.SortAlpha := config.Sort (config.Transform (config.Pipeline cfg));
     output.Style := style flags |}.

(** [runSync]: the returned error, or what the run has put out.  The
    warnings of the filter and the verbose log go to standard error and
    are left out. *)
Definition runSync (now : Z) (reg : adapter.Registry) (flags : Flags)
    : string + Outcome :=
  if list_flag flags then
    let '(text, err) := runListProfiles reg in
    match err with
    | Some err => inl err
    | None => inr (Listed text)
    end
  else
    let '(cfg, err) := loadConfig (cfgFile flags) in
    match err with
    | Some err => inl ("loading config: " +:+ err)
    | None =>
        let cfg := applyFlagOverrides flags cfg in
        let collection := NewCollection in
        let '(collection, err) :=
          if all flags then readAllInputs reg cfg collection
          else readPreferredInput reg cfg (browser flags) (profile flags)
                 collection in
        match err with
        | Some err => inl err
        | None =>
            if Collection_Count collection =? 0 then inl "no bookmarks found"
            else
              let filteredCollection :=
                filteredCollection_of cfg flags collection in
              match adapter.GetOutput reg (format flags) with
              | None =>
                  inl ("unknown output format: " +:+ format flags
                         +:+ " (available: ["
                         +:+ strings_Join (adapter.ListOutputs reg) " "
                         +:+ "])")
              | Some outAdapter =>
                  let '(data, err) :=
                    output.Render outAdapter now filteredCollection
                      (renderOpts_of cfg flags) in
                  match err with
                  | Some err => inl ("rendering output: " +:+ err)
                  | None =>
                      let outPath := output_flag flags in
                      if decide (outPath = "" ∨ outPath = "-")
                      then inr (Printed filteredCollection data)
                      else
                        match os_MkdirAll (filepath_Dir outPath) with
                        | Some err =>
                            inl ("creating output directory: " +:+ err)
                        | None =>
                            match os_WriteFile outPath data with
                            | Some err => inl ("writing output: " +:+ err)
                            | None =>
                                inr (Written filteredCollection outPath data)
                            end
                        end
                  end
              end
        end
    end.
End pipeline.

End cmd.

(** ** Package [mcp]: the protocol server *)

Module mcp.
Import go bookmark.

(** Package [encoding/json], as far as the server uses it: decoding of
    the three parameter structs ([None] when [json.Unmarshal] returns an
    error) and the encoding of the search results.  [Value] is the
    [interface{}] held by a request identifier. *)
Class JSONPkg := {
  RawMessage : Type;
  Value : Type;
  Unmarshal_uri : RawMessage → option string;
  Unmarshal_call : RawMessage → option (string * RawMessage);
  Unmarshal_query : RawMessage → option string;
  MarshalIndent_results : list (string * string) → string
}.

(** What a request finds outside the server: the registry with the
    adapters as they behave at that moment, and the clock. *)
Record World := {
  registry : adapter.Registry;
  now : Z
}.

(** [Server]; [cache = None] is the [nil] pointer.  [calls] is the trace
    of adapter methods invoked so far. *)
Record Server := {
  config : config.Config;
  cache : option Collection;
  calls : list input.Call
}.

Definition NewServer (cfg : config.Config) : Server :=
  {| config := cfg; cache := None; calls := [] |}.

Definition log (s : Server) (cs : list input.Call) : Server :=
  {| config := config s; cache := cache s; calls := calls s ++ cs |}.

Definition set_cache (s : Server) (c : option Collection) : Server :=
  {| config := config s; cache := c; calls := calls s |}.

Record Error := {
  Code : Z;
  Message : string
}.

Record Resource := {
  URI : string;
  Name : string;
  Description : string;
  MimeType : string
}.

(** [InputSchema]: an object schema with its properties
    (name, type, description) and the required names. *)
Record Tool := {
  TName : string;
  TDescription : string;
  Properties : list (string * (string * string));
  Required : list string
}.

(** The [map[string]interface{}] payloads of the five handlers. *)
Inductive ResultValue :=
  | ResInitialize (protocolVersion name version : string)
      (subscribe listChanged : bool)
  | ResResources (resources : list Resource)
  | ResContents (uri mimeType text : string)
  | ResTools (tools : list Tool)
  | ResContent (text : string).

Section server.
Context `{JSONPkg}.

Record Request := {
  JSONRPC : string;
  ID : Value;
  Method : string;
  Params : RawMessage
}.

Record Response := {
  RJSONRPC : string;
  RID : Value;
  Result : option ResultValue;
  Err : option Error
}.

Definition errorResponse (id : Value) (code : Z) (message : string)
    : Response :=
  {| RJSONRPC := "2.0"; RID := id; Result := None;
     Err := Some {| Code := code; Message := message |} |}.

Definition okResponse (id : Value) (r : ResultValue) : Response :=
  {| RJSONRPC := "2.0"; RID := id; Result := Some r; Err := None |}.

(** The body of the loop of [getBookmarks], on the collection being
    built and the calls made. *)
Definition getBookmarks_step (reg : adapter.Registry) (cfg : config.Config)
    (st : Collection * list input.Call) (name : string)
    : Collection * list input.Call :=
  let '(collection, cs) := st in
  match adapter.GetInput reg name with
  | None => st
  | Some inp =>
      let inputCfg := config.GetInputConfig cfg name in
      if negb (config.Enabled inputCfg) then st
      else
        let cs := cs ++ [input.CallAvailable name] in
        if negb (input.Available inp) then (collection, cs)
        else
          let icfg := cmd.all_profiles_config inputCfg in
          let cs := cs ++ [input.CallConfigure name icfg] in
          match input.Configure inp icfg with
          | Some _ => (collection, cs)
          | None =>
              let cs := cs ++ [input.CallRead name] in
              let '(bookmarks, err) := input.Read inp icfg in
              match err with
              | Some _ => (collection, cs)
              | None =>
                  if 0 <? len bookmarks then
                    (Add collection bookmarks
                       {| bookmark.Name := name;
                          SrcProfile := cmd.first_profile bookmarks;
                          Path := input.Path inp icfg; Count := 0 |},
                     cs ++ [input.CallPath name])
                  else (collection, cs)
              end
          end
  end.

(** The read of all available inputs in [getBookmarks]. *)
Definition read_all (reg : adapter.Registry) (cfg : config.Config)
    : Collection * list input.Call :=
  fold_left (getBookmarks_step reg cfg) (adapter.ListInputs reg)
    (NewCollection, []).

(** [getBookmarks]: the collection, the error, the server afterwards.
    The parameter [uri] is not used by the body. *)
Definition getBookmarks (w : World) (s : Server) (uri : string)
    : Collection * option string * Server :=
  match cache s with
  | Some cached => (cached, None, s)
  | None =>
      let '(collection, cs) := read_all (registry w) (config s) in
      (collection, None, set_cache (log s cs) (Some collection))
  end.

Definition handleInitialize (req : Request) : Response :=
  okResponse (ID req) (ResInitialize "2024-11-05" "favs" "1.0.0" false false).

(** The per-browser part of [handleResourcesList]. *)
Definition resources_step (reg : adapter.Registry)
    (st : list Resource * list input.Call) (name : string)
    : list Resource * list input.Call :=
  let '(resources, cs) := st in
  match adapter.GetInput reg name with
  | None => st
  | Some inp =>
      let cs := cs ++ [input.CallAvailable name] in
      if negb (input.Available inp) then (resources, cs)
      else
        (resources ++
           [{| URI := "favs://" +:+ name;
               Name := input.DisplayName inp +:+ " Bookmarks";
               Description := "Bookmarks from " +:+ input.DisplayName inp;
               MimeType := "application/json" |}],
         cs ++ [input.CallDisplayName name; input.CallDisplayName name])
  end.

Definition handleResourcesList (w : World) (req : Request) (s : Server)
    : Response * Server :=
  let resources :=
    [{| URI := "favs://all"; Name := "All Bookmarks";
        Description := "All browser bookmarks in JSON format";
        MimeType := "application/json" |};
     {| URI := "favs://markdown"; Name := "Bookmarks (Markdown)";
        Description := "All browser bookmarks in Markdown format";
        MimeType := "text/markdown" |}] in
  let '(resources, cs) :=
    fold_left (resources_step (registry w))
      (adapter.ListInputs (registry w)) (resources, []) in
  (okResponse (ID req) (ResResources resources), log s cs).

Definition handleResourcesRead (w : World) (req : Request) (s : Server)
    : Response * Server :=
  match Unmarshal_uri (Params req) with
  | None => (errorResponse (ID req) (-32602) "Invalid params", s)
  | Some uri =>
      let '(collection, err, s) := getBookmarks w s uri in
      match err with
      | Some err => (errorResponse (ID req) (-32000) err, s)
      | None =>
          let format :=
            if decide (uri = "favs://markdown") then "markdown" else "json" in
          match adapter.GetOutput (registry w) format with
          | None =>
              (errorResponse (ID req) (-32000) "Output adapter not found", s)
          | Some outAdapter =>
              let '(data, err) :=
                output.Render outAdapter (now w) collection
                  output.DefaultRenderOptions in
              match err with
              | Some err => (errorResponse (ID req) (-32000) err, s)
              | None =>
                  let mimeType :=
                    if decide (format = "markdown") then "text/markdown"
                    else "application/json" in
                  (okResponse (ID req) (ResContents uri mimeType data), s)
              end
          end
      end
  end.

Definition handleToolsList (req : Request) : Response :=
  okResponse (ID req)
    (ResTools
       [{| TName := "sync_bookmarks";
           TDescription := "Refresh bookmarks from all available browsers";
           Properties := []; Required := [] |};
        {| TName := "search_bookmarks";
           TDescription := "Search bookmarks by title or URL";
           Properties := [("query", ("string", "Search query"))];
           Required := ["query"] |}]).

Definition toolSyncBookmarks (w : World) (req : Request) (s : Server)
    : Response * Server :=
  let s := set_cache s None in
  let '(collection, err, s) := getBookmarks w s "favs://all" in
  match err with
  | Some err => (errorResponse (ID req) (-32000) err, s)
  | None =>
      (okResponse (ID req)
         (ResContent
            ("Synced " +:+ itoa (Collection_Count collection)
               +:+ " bookmarks from " +:+ itoa (len (Sources collection))
               +:+ " sources")),
       s)
  end.

(** The case folding of [equalIgnoreCase]: [c += 32] on a byte in
    ['A'..'Z']. *)
Definition fold_byte (c : ascii) : ascii :=
  let n := N_of_ascii c in
  if ((65 <=? n) && (n <=? 90))%N then ascii_of_N ((n + 32) `mod` 256)%N
  else c.

(** The loop returns [false] at the first index whose folded bytes
    differ. *)
Definition equalIgnoreCase (a b : string) : bool :=
  if negb (len_s a =? len_s b) then false
  else
    forallb (λ i, match String.get i a, String.get i b with
                  | Some ca, Some cb =>
                      bool_decide (fold_byte ca = fold_byte cb)
                  | _, _ => false
                  end)
      (seq 0 (String.length a)).

(** [for i := 0; i <= len(s)-len(substr); i++]. *)
Definition containsIgnoreCaseImpl (s substr : string) : bool :=
  existsb (λ i, equalIgnoreCase (slice s i (i + len_s substr)) substr)
    (seqZ 0 (len_s s - len_s substr + 1)).

Definition containsIgnoreCase (s substr : string) : bool :=
  (len_s substr <=? len_s s)
  && (bool_decide (s = substr) || (len_s substr =? 0)
      || ((0 <? len_s s) && containsIgnoreCaseImpl s substr)).

Definition newline : string := String (ascii_of_N 10) "".

(** The matching loop of [toolSearchBookmarks]. *)
Definition search_matches (query : string) (bookmarks : list Bookmark)
    : list Bookmark :=
  fold_left (λ matches b,
               if containsIgnoreCase (Title b) query
                  || containsIgnoreCase (URL b) query
               then matches ++ [b] else matches) bookmarks [].

(** The formatting loop: one title/url object per match. *)
Definition search_results (matches : list Bookmark)
    : list (string * string) :=
  fold_left (λ results b, results ++ [(Title b, URL b)]) matches [].

Definition toolSearchBookmarks (w : World) (req : Request)
    (args : RawMessage) (s : Server) : Response * Server :=
  match Unmarshal_query args with
  | None => (errorResponse (ID req) (-32602) "Invalid search arguments", s)
  | Some query =>
      let '(collection, err, s) := getBookmarks w s "favs://all" in
      match err with
      | Some err => (errorResponse (ID req) (-32000) err, s)
      | None =>
          let matches := search_matches query (Bookmarks collection) in
          let resultJSON := MarshalIndent_results (search_results matches) in
          (okResponse (ID req)
             (ResContent
                ("Found " +:+ itoa (len matches) +:+ " matches:"
                   +:+ newline +:+ resultJSON)),
           s)
      end
  end.

Definition handleToolsCall (w : World) (req : Request) (s : Server)
    : Response * Server :=
  match Unmarshal_call (Params req) with
  | None => (errorResponse (ID req) (-32602) "Invalid params", s)
  | Some (name, arguments) =>
      if decide (name = "sync_bookmarks") then toolSyncBookmarks w req s
      else if decide (name = "search_bookmarks")
           then toolSearchBookmarks w req arguments s
      else (errorResponse (ID req) (-32602) "Unknown tool", s)
  end.

Definition handleRequest (w : World) (req : Request) (s : Server)
    : Response * Server :=
  if decide (Method req = "initialize") then (handleInitialize req, s)
  else if decide (Method req = "resources/list") then handleResourcesList w req s
  else if decide (Method req = "resources/read") then handleResourcesRead w req s
  else if decide (Method req = "tools/list") then (handleToolsList req, s)
  else if decide (Method req = "tools/call") then handleToolsCall w req s
  else (errorResponse (ID req) (-32601) "Method not found", s).

(** What one turn of the loop of [Run] meets before the end of standard
    input.  [Cancelled]: the context is done when the turn begins.
    Otherwise [decoder.Decode(&req)] is called.  [Decoded]: it reads a
    JSON value that decodes into a request.  [Malformed]: it reads a
    complete JSON value that does not fit [Request]; the decoder has
    consumed the value and returns an error it does not keep, so the
    next [Decode] reads the next value.  [Invalid]: it meets bytes that
    are not JSON, or the input ends inside a value; the decoder keeps
    this error and returns it from every later [Decode]. *)
Inductive Frame :=
  | Malformed
  | Decoded (req : Request)
  | Invalid
  | Cancelled.

(** [Run] on the turns of its loop, each with the world it happens in:
    the responses written and the server reached.  The end of the list
    is [io.EOF].  A malformed frame is skipped by [continue].  At an
    invalid frame the error is not [io.EOF], so the loop continues, and
    as every later [Decode] returns the same error no further frame is
    read and no further response is written.  A cancelled context ends
    the loop.  A failure of [encoder.Encode] is reported on standard
    error and the loop goes on. *)
Fixpoint Run (s : Server) (frames : list (World * Frame))
    : list Response * Server :=
  match frames with
  | [] => ([], s)
  | (_, Malformed) :: rest => Run s rest
  | (w, Decoded req) :: rest =>
      let '(resp, s) := handleRequest w req s in
      let '(resps, s) := Run s rest in
      (resp :: resps, s)
  | (_, Invalid) :: _ => ([], s)
  | (_, Cancelled) :: _ => ([], s)
  end.

(** How [Run] ends: it returns [nil] at [io.EOF], it returns
    [ctx.Err()] when it finds the context done, or it never returns. *)
Inductive RunEnd :=
  | ReturnsNil
  | ReturnsCtxErr
  | NeverReturns.

Definition is_cancelled (wf : World * Frame) : bool :=
  match wf.2 with
  | Cancelled => true
  | _ => false
  end.

(** After an invalid frame the loop goes round on the kept error until
    the context is cancelled. *)
Fixpoint Run_end (frames : list (World * Frame)) : RunEnd :=
  match frames with
  | [] => ReturnsNil
  | (_, Malformed) :: rest => Run_end rest
  | (_, Decoded _) :: rest => Run_end rest
  | (_, Invalid) :: rest =>
      if existsb is_cancelled rest then ReturnsCtxErr else NeverReturns
  | (_, Cancelled) :: _ => ReturnsCtxErr
  end.
End server.

End mcp.

(** ** Package [safari]: the Safari source-reader *)

Module safari.
Import go bookmark.

(** What the adapter asks of the operating system: [Stat] tells whether
    [os.Stat] returns no error, [Open] returns the file or the error.  The
    [plist] decoder is a parameter of the methods below. *)
Class OS := {
  GOOS : string;
  UserHomeDir : string;
  filepath_Join : list string → string;
  Stat : string → bool;
  File : Type;
  Open : string → File + string
}.

(** The decoded property list: [URIDictionary] is [None] for the [nil]
    map. *)
Inductive safariBookmark := mkNode {
  WebBookmarkType : string;
  NodeTitle : string;           (* field [Title] of [safariBookmark] *)
  URLString : string;
  URIDictionary : option (gmap string string);
  Children : list safariBookmark
}.

(** [m[k]] on a [map[string]string]. *)
Definition dict_get (m : gmap string string) (k : string) : string :=
  default "" (m !! k).

(** The bookmark a leaf yields, if it has a URL. *)
Definition leaf_bookmark (node : safariBookmark) (path : list string)
    : option Bookmark :=
  let url := URLString node in
  let url :=
    match URIDictionary node with
    | Some dict => if decide (url = "") then dict_get dict "" else url
    | None => url
    end in
  let title := NodeTitle node in
  let title :=
    match URIDictionary node with
    | Some dict => if decide (title = "") then dict_get dict "title" else title
    | None => title
    end in
  let title := if decide (title = "") then url else title in
  if decide (url ≠ "")
  then Some {| Title := title; URL := url; FolderPath := path; DateAdded := 0;
               Source := "safari"; Profile := "default"; Tags := [] |}
  else None.

(** [parseBookmarks]; the slice behind the pointer is returned updated. *)
Fixpoint parseBookmarks (node : safariBookmark) (path : list string)
    (bookmarks : list Bookmark) {struct node} : list Bookmark :=
  match node with
  | mkNode ty title urlString dict children =>
      if decide (ty = "WebBookmarkTypeLeaf") then
        match leaf_bookmark (mkNode ty title urlString dict children) path with
        | Some b => bookmarks ++ [b]
        | None => bookmarks
        end
      else if decide (ty = "WebBookmarkTypeList") then
        let currentPath := if decide (title ≠ "") then path ++ [title] else path in
        fold_left (λ acc child, parseBookmarks child currentPath acc)
          children bookmarks
      else
        fold_left (λ acc child, parseBookmarks child path acc) children bookmarks
  end.

(** The adapter object. *)
Record Adapter := {
  config : input.Config;
  path : string
}.

Section methods.
Context `{OS} (Decode : File → safariBookmark + string).

Definition bookmarkPath (cfg : input.Config) : string :=
  if decide (input.CustomPath cfg ≠ "") then input.CustomPath cfg
  else if decide (GOOS ≠ "darwin") then ""
  else filepath_Join [UserHomeDir; "Library"; "Safari"; "Bookmarks.plist"].

(** The zero value of [input.Config]. *)
Definition Config_zero : input.Config :=
  {| input.Enabled := false; input.Profile := ""; input.CustomPath := "" |}.

Definition New : Adapter :=
  {| config := Config_zero; path := bookmarkPath Config_zero |}.

Definition Name (a : Adapter) : string := "safari".

Definition DisplayName (a : Adapter) : string := "Apple Safari".

Definition Available (a : Adapter) : bool :=
  if decide (GOOS ≠ "darwin") then false
  else if decide (path a = "") then false
  else Stat (path a).

(** [Configure]: the error and the adapter afterwards. *)
Definition Configure (cfg : input.Config) (a : Adapter) : option string * Adapter :=
  (None, {| config := cfg; path := bookmarkPath cfg |}).

Definition Path (a : Adapter) : string := path a.

(** [ListProfiles]: the profiles and the error. *)
Definition ListProfiles (a : Adapter)
    : list input.ProfileInfo * option string :=
  if negb (Available a) then ([], None)
  else ([{| input.PName := "default"; input.PPath := path a;
            input.IsDefault := true |}], None).

Definition Read (a : Adapter) : list Bookmark * option string :=
  if decide (GOOS ≠ "darwin") then ([], None)
  else if decide (path a = "") then ([], None)
  else
    match Open (path a) with
    | inr err => ([], Some err)
    | inl file =>
        match Decode file with
        | inr err => ([], Some err)
        | inl root => (parseBookmarks root [] [], None)
        end
    end.

(** The adapter as the registry and the read paths see it. *)
Definition as_input (a : Adapter) : input.Adapter :=
  {| input.Name := Name a;
     input.DisplayName := DisplayName a;
     input.Available := Available a;
     input.Configure := λ cfg, (Configure cfg a).1;
     input.Path := λ cfg, Path (Configure cfg a).2;
     input.Read := λ cfg, Read (Configure cfg a).2;
     input.NewPath := Path a;
     input.ListProfiles := ListProfiles a |}.
End methods.

(** What every record ingested from Safari satisfies. *)
Definition ingested (b : Bookmark) : Prop :=
  URL b ≠ "" ∧ Title b ≠ "" ∧ Source b = "safari" ∧ Profile b = "default"
  ∧ Tags b = [].

(** The titles of the folders that enclose the leaves of a node, seen
    from [path]. *)
Definition within (path : list string) (b : Bookmark) : Prop :=
  path `prefix_of` FolderPath b.

End safari.

(** ** Loop characterisations and trace predicates used in the proofs *)

Module loops.
Import go bookmark.

(** The result of the loop of [Deduplicate] started with a given [seen]
    map, as a recursion on the input. *)
Fixpoint dedup_from (seen : gmap string bool) (bookmarks : list Bookmark)
    : list Bookmark :=
  match bookmarks with
  | [] => []
  | b :: rest =>
      if map_get seen (URL b) then dedup_from seen rest
      else b :: dedup_from (<[URL b := true]> seen) rest
  end.

(** A sequence of registrations, as the [init] functions of the adapter
    packages perform them. *)
Definition register_inputs (l : list input.Adapter) (r : adapter.Registry)
    : adapter.Registry :=
  fold_left (λ r a, adapter.RegisterInput a r) l r.

(** The sum of the [Count] fields of a slice of descriptors. *)
Definition sum_counts (sources : list SourceInfo) : Z :=
  foldr (λ s acc, Count s + acc) 0 sources.

(** The invariant of the data model: the counts of the descriptors add
    up to the number of bookmarks. *)
Definition counts_match (c : Collection) : Prop :=
  sum_counts (Sources c) = len (Bookmarks c).

(** The read call the all-sources loop makes for [name]: the adapter and
    the records when the source is registered, enabled, available and
    configured without error, and its [Read] returns no error. *)
Definition successful_read (reg : adapter.Registry) (cfg : config.Config)
    (name : string) : option (input.Adapter * list Bookmark) :=
  match adapter.GetInput reg name with
  | None => None
  | Some inp =>
      let inputCfg := config.GetInputConfig cfg name in
      if negb (config.Enabled inputCfg) then None
      else if negb (input.Available inp) then None
      else
        match input.Configure inp (cmd.all_profiles_config inputCfg) with
        | Some _ => None
        | None =>
            match input.Read inp (cmd.all_profiles_config inputCfg) with
            | (bookmarks, None) => Some (inp, bookmarks)
            | (_, Some _) => None
            end
        end
  end.

(** The descriptor the loop builds for a contribution. *)
Definition descriptor (cfg : config.Config) (name : string)
    (inp : input.Adapter) (bookmarks : list Bookmark) : SourceInfo :=
  {| Name := name; SrcProfile := cmd.first_profile bookmarks;
     Path := input.Path inp
               (cmd.all_profiles_config (config.GetInputConfig cfg name));
     Count := len bookmarks |}.

(** Sources whose read succeeds with at least one record. *)
Definition contributes (reg : adapter.Registry) (cfg : config.Config)
    (name : string) : bool :=
  match successful_read reg cfg name with
  | Some (_, bookmarks) => 0 <? len bookmarks
  | None => false
  end.

(** A [resources/read] request for the resource [uri]. *)
Definition reads `{mcp.JSONPkg} (uri : string) (req : mcp.Request) : bool :=
  bool_decide (mcp.Method req = "resources/read")
  && bool_decide (mcp.Unmarshal_uri (mcp.Params req) = Some uri).

(** A [tools/call] request for the resync tool. *)
Definition is_resync `{mcp.JSONPkg} (req : mcp.Request) : bool :=
  bool_decide (mcp.Method req = "tools/call")
  && match mcp.Unmarshal_call (mcp.Params req) with
     | Some (name, _) => bool_decide (name = "sync_bookmarks")
     | None => false
     end.

Definition frame_is_resync `{mcp.JSONPkg} (f : mcp.Frame) : bool :=
  match f with
  | mcp.Malformed => false
  | mcp.Decoded req => is_resync req
  | mcp.Invalid => false
  | mcp.Cancelled => false
  end.

(** The response of [handleResourcesRead] once the collection is
    resolved: the statements from "Determine format from URI" on. *)
Definition read_response `{mcp.JSONPkg} (w : mcp.World) (req : mcp.Request)
    (uri : string) (collection : Collection) : mcp.Response :=
  let format :=
    if decide (uri = "favs://markdown") then "markdown" else "json" in
  match adapter.GetOutput (mcp.registry w) format with
  | None => mcp.errorResponse (mcp.ID req) (-32000) "Output adapter not found"
  | Some outAdapter =>
      let '(data, err) :=
        output.Render outAdapter (mcp.now w) collection
          output.DefaultRenderOptions in
      match err with
      | Some err => mcp.errorResponse (mcp.ID req) (-32000) err
      | None =>
          let mimeType :=
            if decide (format = "markdown") then "text/markdown"
            else "application/json" in
          mcp.okResponse (mcp.ID req) (mcp.ResContents uri mimeType data)
      end
  end.

(** The text of the search tool's answer for a list of matches. *)
Definition search_text `{mcp.JSONPkg} (matches : list Bookmark) : string :=
  "Found " +:+ itoa (len matches) +:+ " matches:" +:+ mcp.newline
    +:+ mcp.MarshalIndent_results ((λ b, (Title b, URL b)) <$> matches).

(** A rule set with other warning rules. *)
Definition with_warn_rules (opts : FilterOptions) (warnProtocols : list string)
    (warnURLLength : Z) : FilterOptions :=
  {| IncludeFolders := IncludeFolders opts;
     ExcludeFolders := ExcludeFolders opts;
     ExcludeURLPatterns := ExcludeURLPatterns opts;
     ExcludeProtocols := ExcludeProtocols opts;
     WarnProtocols := warnProtocols;
     MaxURLLength := MaxURLLength opts;
     WarnURLLength := warnURLLength |}.

(** The warnings [Filter] generates for one kept record. *)
Definition record_warnings `{Unicode} `{RegexpPkg} (opts : FilterOptions)
    (b : Bookmark) : list string :=
  let proto := extractProtocol (URL b) in
  (if map_get (proto_map (WarnProtocols opts)) proto
   then [protocol_warning b proto] else [])
  ++ (if (0 <? WarnURLLength opts) && (WarnURLLength opts <? len_s (URL b))
      then [length_warning b] else []).

(** The joined folder path the folder rules look at. *)
Definition folder_of (b : Bookmark) : string := strings_Join (FolderPath b) "/".

(** What a source adds to the collection in the all-sources path: its
    descriptor and its records, when its read succeeds with at least one
    record. *)
Definition contribution (reg : adapter.Registry) (cfg : config.Config)
    (name : string) : option (SourceInfo * list Bookmark) :=
  match successful_read reg cfg name with
  | Some (inp, bookmarks) =>
      if 0 <? len bookmarks
      then Some (descriptor cfg name inp bookmarks, bookmarks) else None
  | None => None
  end.

(** A descriptor and a block of records that come from one read: the
    block is what the [Read] of the source named by the descriptor
    returned, it has at least one record, and the descriptor holds its
    size, the profile of its first record and the adapter's path. *)
Definition block_of_read (reg : adapter.Registry) (cfg : config.Config)
    (block : SourceInfo * list Bookmark) : Prop :=
  Count block.1 = len block.2
  ∧ 1 ≤ Count block.1
  ∧ (∃ b rest, block.2 = b :: rest ∧ SrcProfile block.1 = Profile b)
  ∧ (∃ inp,
       let icfg :=
         cmd.all_profiles_config (config.GetInputConfig cfg (Name block.1)) in
       adapter.GetInput reg (Name block.1) = Some inp
       ∧ input.Read inp icfg = (block.2, None)
       ∧ Path block.1 = input.Path inp icfg).

(** The adapter a call of the trace is made on. *)
Definition call_name (c : input.Call) : string :=
  match c with
  | input.CallAvailable name | input.CallDisplayName name
  | input.CallConfigure name _ | input.CallRead name
  | input.CallPath name => name
  end.

(** A source the preference scan of the single-source path accepts. *)
Definition usable (reg : adapter.Registry) (cfg : config.Config)
    (name : string) : option input.Adapter :=
  match adapter.GetInput reg name with
  | Some inp =>
      if config.Enabled (config.GetInputConfig cfg name) && input.Available inp
      then Some inp else None
  | None => None
  end.

(** The profile the single-source path configures: the flag, else the
    configured profile, else ["Default"]. *)
Definition effective_profile (cfg : config.Config) (name profileFlag : string)
    : string :=
  if decide (profileFlag ≠ "") then profileFlag
  else if decide (config.Profile (config.GetInputConfig cfg name) = "")
       then "Default"
       else config.Profile (config.GetInputConfig cfg name).

(** The adapter methods the server's all-sources loop invokes for one
    name, in order. *)
Definition source_calls (reg : adapter.Registry) (cfg : config.Config)
    (name : string) : list input.Call :=
  match adapter.GetInput reg name with
  | None => []
  | Some inp =>
      let inputCfg := config.GetInputConfig cfg name in
      let icfg := cmd.all_profiles_config inputCfg in
      if negb (config.Enabled inputCfg) then []
      else if negb (input.Available inp) then [input.CallAvailable name]
      else
        match input.Configure inp icfg with
        | Some _ => [input.CallAvailable name; input.CallConfigure name icfg]
        | None =>
            match input.Read inp icfg with
            | (bookmarks, None) =>
                if 0 <? len bookmarks
                then [input.CallAvailable name; input.CallConfigure name icfg;
                      input.CallRead name; input.CallPath name]
                else [input.CallAvailable name; input.CallConfigure name icfg;
                      input.CallRead name]
            | (_, Some _) =>
                [input.CallAvailable name; input.CallConfigure name icfg;
                 input.CallRead name]
            end
        end
  end.

(** The configuration the single-source path hands to [Configure]. *)
Definition single_config (cfg : config.Config) (name profileFlag : string)
    : input.Config :=
  {| input.Enabled := true;
     input.Profile := effective_profile cfg name profileFlag;
     input.CustomPath := config.CustomPath (config.GetInputConfig cfg name) |}.

(** The reading step of [runSync]: all sources, or the preferred one. *)
Definition runSync_read (reg : adapter.Registry) (cfg : config.Config)
    (flags : cmd.Flags) : Collection * option string :=
  if cmd.all flags then cmd.readAllInputs reg cfg NewCollection
  else cmd.readPreferredInput reg cfg (cmd.browser flags) (cmd.profile flags)
         NewCollection.

(** [runSync] after the configuration is loaded, as a function of the
    collection read. *)
Definition after_read `{Unicode} `{RegexpPkg} `{cmd.Env} (now : Z)
    (reg : adapter.Registry) (cfg : config.Config)
    (flags : cmd.Flags) (c : Collection) : string + cmd.Outcome :=
  if Collection_Count c =? 0 then inl "no bookmarks found"
  else
    match adapter.GetOutput reg (cmd.format flags) with
    | None =>
        inl ("unknown output format: " +:+ cmd.format flags
               +:+ " (available: ["
               +:+ strings_Join (adapter.ListOutputs reg) " " +:+ "])")
    | Some outAdapter =>
        match output.Render outAdapter now (cmd.filteredCollection_of cfg flags c)
                (cmd.renderOpts_of cfg flags) with
        | (_, Some err) => inl ("rendering output: " +:+ err)
        | (data, None) =>
            if decide (cmd.output_flag flags = "" ∨ cmd.output_flag flags = "-")
            then inr (cmd.Printed (cmd.filteredCollection_of cfg flags c) data)
            else
              match cmd.os_MkdirAll (cmd.filepath_Dir (cmd.output_flag flags)) with
              | Some err => inl ("creating output directory: " +:+ err)
              | None =>
                  match cmd.os_WriteFile (cmd.output_flag flags) data with
                  | Some err => inl ("writing output: " +:+ err)
                  | None =>
                      inr (cmd.Written (cmd.filteredCollection_of cfg flags c)
                             (cmd.output_flag flags) data)
                  end
              end
        end
    end.

(** The five methods the server dispatches on. *)
Definition known_methods : list string :=
  ["initialize"; "resources/list"; "resources/read"; "tools/list"; "tools/call"].

(** The two fixed resources of [handleResourcesList]. *)
Definition fixed_resources : list mcp.Resource :=
  [{| mcp.URI := "favs://all"; mcp.Name := "All Bookmarks";
      mcp.Description := "All browser bookmarks in JSON format";
      mcp.MimeType := "application/json" |};
   {| mcp.URI := "favs://markdown"; mcp.Name := "Bookmarks (Markdown)";
      mcp.Description := "All browser bookmarks in Markdown format";
      mcp.MimeType := "text/markdown" |}].

(** The resource listed for a registered source that is available. *)
Definition source_resource (reg : adapter.Registry) (name : string)
    : option mcp.Resource :=
  match adapter.GetInput reg name with
  | Some inp =>
      if input.Available inp
      then Some {| mcp.URI := "favs://" +:+ name;
                   mcp.Name := input.DisplayName inp +:+ " Bookmarks";
                   mcp.Description := "Bookmarks from " +:+ input.DisplayName inp;
                   mcp.MimeType := "application/json" |}
      else None
  | None => None
  end.

(** The adapter methods [handleResourcesList] invokes for one name. *)
Definition resource_calls (reg : adapter.Registry) (name : string)
    : list input.Call :=
  match adapter.GetInput reg name with
  | Some inp =>
      if input.Available inp
      then [input.CallAvailable name; input.CallDisplayName name;
            input.CallDisplayName name]
      else [input.CallAvailable name]
  | None => []
  end.

(** Calls that only ask an adapter about itself. *)
Definition is_query_call (c : input.Call) : bool :=
  match c with
  | input.CallAvailable _ | input.CallDisplayName _ => true
  | _ => false
  end.

End loops.

(** ** Fixtures: concrete library instances and sample data *)

Module fixtures.
Import go bookmark.

(** ASCII data only, where [strings.ToLower] is [ascii_ToLower]. *)
Definition ascii_unicode : Unicode := {| strings_ToLower := ascii_ToLower |}.

(** A pattern engine for literal patterns: every pattern compiles and
    matches the URLs that contain it. *)
Definition literal_regexp : RegexpPkg :=
  {| Regexp := string;
     regexp_Compile := λ p, Some p;
     MatchString := λ re s, strings_Contains s re |}.

Definition mk (title url : string) : Bookmark :=
  {| Title := title; URL := url; FolderPath := []; DateAdded := 0;
     Source := ""; Profile := ""; Tags := [] |}.

Definition mk_from (source title url : string) : Bookmark :=
  {| Title := title; URL := url; FolderPath := []; DateAdded := 0;
     Source := source; Profile := "Default"; Tags := [] |}.

Definition no_rules : FilterOptions :=
  {| IncludeFolders := []; ExcludeFolders := []; ExcludeURLPatterns := [];
     ExcludeProtocols := []; WarnProtocols := [];
     MaxURLLength := 0; WarnURLLength := 0 |}.

Definition no_javascript : FilterOptions :=
  {| IncludeFolders := []; ExcludeFolders := []; ExcludeURLPatterns := [];
     ExcludeProtocols := ["javascript"]; WarnProtocols := [];
     MaxURLLength := 0; WarnURLLength := 0 |}.

Definition no_trash : FilterOptions :=
  {| IncludeFolders := []; ExcludeFolders := ["Trash"];
     ExcludeURLPatterns := []; ExcludeProtocols := []; WarnProtocols := [];
     MaxURLLength := 0; WarnURLLength := 0 |}.

Definition trashed (title url : string) : Bookmark :=
  {| Title := title; URL := url; FolderPath := ["Trash"]; DateAdded := 0;
     Source := ""; Profile := ""; Tags := [] |}.

Definition three : list Bookmark :=
  [mk "A" "http://a"; mk "B" "javascript:alert(1)"; mk "A2" "http://a"].

(** A source that is always available, accepts every configuration
    and whose [Read] returns [res]. *)
Definition reader (name : string) (res : list Bookmark * option string)
    : input.Adapter :=
  {| input.Name := name; input.DisplayName := name;
     input.Available := true; input.Configure := λ _, None;
     input.Path := λ _, "/profiles/" +:+ name; input.Read := λ _, res;
     input.NewPath := "/profiles/" +:+ name;
     input.ListProfiles :=
       ([{| input.PName := "Default"; input.PPath := "/profiles/" +:+ name;
            input.IsDefault := true |};
         {| input.PName := "Work"; input.PPath := "/profiles/" +:+ name;
            input.IsDefault := false |}], None) |}.

Definition chrome3 : list Bookmark :=
  [mk_from "chrome" "GitHub" "https://github.com";
   mk_from "chrome" "Docs" "https://go.dev/doc";
   mk_from "chrome" "Script" "javascript:alert(1)"].

Definition firefox1 : list Bookmark :=
  [mk_from "firefox" "News" "https://news.example"].

(** [s1] returns three records, [s2]'s read fails. *)
Definition reg_one_fails : adapter.Registry :=
  loops.register_inputs
    [reader "chrome" (chrome3, None);
     reader "firefox" ([], Some "database is locked")] adapter.empty.

(** A source that is registered but not available: no profile directory
    on this machine. *)
Definition absent (name : string) : input.Adapter :=
  {| input.Name := name; input.DisplayName := name;
     input.Available := false; input.Configure := λ _, None;
     input.Path := λ _, ""; input.Read := λ _, ([], Some "not available");
     input.NewPath := ""; input.ListProfiles := ([], None) |}.

(** The seven sources the binary registers (the imports of [cmd/root.go]):
    Chrome returns three records, the read of Firefox fails, the other
    browsers are not installed and the OPML reader has no file. *)
Definition reg_seven : adapter.Registry :=
  loops.register_inputs
    [reader "chrome" (chrome3, None); absent "edge"; absent "chromium";
     absent "brave"; reader "firefox" ([], Some "database is locked");
     absent "opml"; absent "safari"] adapter.empty.

(** A source whose read succeeds with no records, as the Safari adapter
    does off macOS ([return nil, nil]). *)
Definition reg_empty_read : adapter.Registry :=
  loops.register_inputs [reader "safari" ([], None)] adapter.empty.

(** A renderer that writes the URLs of the collection. *)
Definition url_renderer (name : string) : output.Adapter :=
  {| output.Name := name; output.DisplayName := name;
     output.Extensions := [];
     output.Render := λ _ c _, (strings_Join (URL <$> Bookmarks c) " ", None) |}.

Definition reg_two_sources : adapter.Registry :=
  adapter.RegisterOutput (url_renderer "markdown")
    (adapter.RegisterOutput (url_renderer "json")
       (loops.register_inputs
          [reader "chrome" (chrome3, None); reader "firefox" (firefox1, None)]
          adapter.empty)).

(** [favs sync --all --format json]: no other flag given, the output
    goes to standard output. *)
Definition flags_all : cmd.Flags :=
  {| cmd.cfgFile := ""; cmd.list_flag := false;
     cmd.metadata := None; cmd.group := None; cmd.sort_flag := None;
     cmd.all := true; cmd.browser := ""; cmd.profile := "";
     cmd.exclude_protocols := []; cmd.warn_protocols := [];
     cmd.max_url_length := 0; cmd.warn_url_length := 0;
     cmd.format := "json"; cmd.style := ""; cmd.output_flag := "" |}.

(** [favs sync --list]. *)
Definition flags_list : cmd.Flags :=
  {| cmd.cfgFile := ""; cmd.list_flag := true;
     cmd.metadata := None; cmd.group := None; cmd.sort_flag := None;
     cmd.all := false; cmd.browser := ""; cmd.profile := "";
     cmd.exclude_protocols := []; cmd.warn_protocols := [];
     cmd.max_url_length := 0; cmd.warn_url_length := 0;
     cmd.format := "markdown"; cmd.style := ""; cmd.output_flag := "" |}.

(** [favs sync --all --format json --output out/bookmarks.json]. *)
Definition flags_to_file : cmd.Flags :=
  {| cmd.cfgFile := ""; cmd.list_flag := false;
     cmd.metadata := None; cmd.group := None; cmd.sort_flag := None;
     cmd.all := true; cmd.browser := ""; cmd.profile := "";
     cmd.exclude_protocols := []; cmd.warn_protocols := [];
     cmd.max_url_length := 0; cmd.warn_url_length := 0;
     cmd.format := "json"; cmd.style := "";
     cmd.output_flag := "out/bookmarks.json" |}.

(** A text given by its lines. *)
Definition lines (l : list string) : string :=
  foldr (λ line text, line +:+ cmd.newline +:+ text) "" l.

(** A machine without configuration file: every read fails with an
    error that [os.IsNotExist] recognises. *)
Definition no_config_file : config.OS :=
  {| config.os_ReadFile := λ _, inr "no such file or directory";
     config.os_IsNotExist := λ err, bool_decide (err = "no such file or directory");
     config.os_Stat := λ _, false;
     config.os_UserHomeDir := "/home/me";
     config.filepath_Join := λ parts, strings_Join parts "/";
     config.yaml_Unmarshal := λ _ cfg, (cfg, None) |}.

(** A machine whose [favs.yaml] is not a YAML document. *)
Definition bad_config_file : config.OS :=
  {| config.os_ReadFile :=
       λ p, if decide (p = "favs.yaml") then inl "inputs: ["
            else inr "no such file or directory";
     config.os_IsNotExist := λ err, bool_decide (err = "no such file or directory");
     config.os_Stat := λ p, bool_decide (p = "favs.yaml");
     config.os_UserHomeDir := "/home/me";
     config.filepath_Join := λ parts, strings_Join parts "/";
     config.yaml_Unmarshal := λ _ cfg, (cfg, Some "yaml: did not find expected node") |}.

(** A file system on which every directory can be made and every file
    written. *)
Definition writable_fs : cmd.Env :=
  {| cmd.filepath_Dir := λ p, p +:+ "/..";
     cmd.os_MkdirAll := λ _, None;
     cmd.os_WriteFile := λ _ _, None |}.

(** A file system that cannot be written. *)
Definition read_only_fs : cmd.Env :=
  {| cmd.filepath_Dir := λ p, p +:+ "/..";
     cmd.os_MkdirAll := λ _, Some "read-only file system";
     cmd.os_WriteFile := λ _ _, Some "read-only file system" |}.

(** Parameter payloads already in decoded form. *)
Inductive TestMsg :=
  | MsgURI (uri : string)
  | MsgCall (name : string) (arguments : TestMsg)
  | MsgQuery (query : string)
  | MsgOther.

Definition test_json : mcp.JSONPkg :=
  {| mcp.RawMessage := TestMsg;
     mcp.Value := nat;
     mcp.Unmarshal_uri := λ m, match m with MsgURI u => Some u | _ => None end;
     mcp.Unmarshal_call :=
       λ m, match m with MsgCall n a => Some (n, a) | _ => None end;
     mcp.Unmarshal_query :=
       λ m, match m with MsgQuery q => Some q | _ => None end;
     mcp.MarshalIndent_results :=
       λ l, strings_Join ((λ p, p.1 +:+ " <" +:+ p.2 +:+ ">") <$> l) ", " |}.

Definition read_request (id : nat) (uri : string) : @mcp.Request test_json :=
  @mcp.Build_Request test_json "2.0" id "resources/read" (MsgURI uri).

Definition resync_request (id : nat) : @mcp.Request test_json :=
  @mcp.Build_Request test_json "2.0" id "tools/call"
    (MsgCall "sync_bookmarks" MsgOther).

Definition search_request (id : nat) (query : string) : @mcp.Request test_json :=
  @mcp.Build_Request test_json "2.0" id "tools/call"
    (MsgCall "search_bookmarks" (MsgQuery query)).

Definition world_two : mcp.World :=
  {| mcp.registry := reg_two_sources; mcp.now := 0 |}.

(** The same registry later, when the Firefox read has come to fail. *)
Definition world_later : mcp.World :=
  {| mcp.registry :=
       adapter.RegisterInput (reader "firefox" ([], Some "database is locked"))
         reg_two_sources;
     mcp.now := 0 |}.

Definition cached_server (c : Collection) : mcp.Server :=
  {| mcp.config := config.Default; mcp.cache := Some c; mcp.calls := [] |}.

(** A Safari property list: a bar folder with a plain leaf, a leaf that
    has its title and URL in the dictionary only, a leaf without a URL,
    and an untitled folder with one leaf. *)
Definition leaf (title url : string) (dict : option (gmap string string))
    : safari.safariBookmark :=
  safari.mkNode "WebBookmarkTypeLeaf" title url dict [].

Definition plist_root : safari.safariBookmark :=
  safari.mkNode "" "" "" None
    [safari.mkNode "WebBookmarkTypeList" "BookmarksBar" "" None
       [leaf "GitHub" "https://github.com" None;
        leaf "" "" (Some {[ "title" := "Go"; "" := "https://go.dev" ]});
        leaf "No address" "" None;
        safari.mkNode "WebBookmarkTypeList" "" "" None
          [leaf "" "https://example.org" None]];
     safari.mkNode "WebBookmarkTypeProxy" "History" "" None []].

(** macOS with the property list at the default path. *)
Definition darwin : safari.OS :=
  {| safari.GOOS := "darwin";
     safari.UserHomeDir := "/Users/me";
     safari.filepath_Join := λ parts, strings_Join parts "/";
     safari.Stat := λ p, bool_decide (p = "/Users/me/Library/Safari/Bookmarks.plist");
     safari.File := safari.safariBookmark;
     safari.Open :=
       λ p, if decide (p = "/Users/me/Library/Safari/Bookmarks.plist")
            then inl plist_root else inr "no such file" |}.

Definition linux : safari.OS :=
  {| safari.GOOS := "linux";
     safari.UserHomeDir := "/home/me";
     safari.filepath_Join := λ parts, strings_Join parts "/";
     safari.Stat := λ p, true;
     safari.File := safari.safariBookmark;
     safari.Open := λ p, inl plist_root |}.

Definition decode_id (f : safari.safariBookmark)
    : safari.safariBookmark + string := inl f.

End fixtures.

(** * Properties *)

(** ** Go primitives *)

Section go_facts.
Import go.

Lemma int_wrap_id z : - 2 ^ 63 ≤ z ≤ MaxInt → int_wrap z = z.
Proof.
  unfold int_wrap, MaxInt. intros Hz.
  rewrite Z.mod_small by lia. lia.
Qed.

Lemma len_app {A} (l k : list A) : len (l ++ k) = len l + len k.
Proof. unfold len. rewrite length_app. lia. Qed.

Lemma len_nonneg {A} (l : list A) : 0 ≤ len l.
Proof. unfold len. lia. Qed.

Lemma map_get_empty k : map_get ∅ k = false.
Proof. unfold map_get. by rewrite lookup_empty. Qed.

Lemma map_get_insert_true (m : gmap string bool) k k' :
  map_get (<[k := true]> m) k' = if decide (k = k') then true else map_get m k'.
Proof.
  unfold map_get. case_decide as Hk.
  - subst. by rewrite lookup_insert_eq.
  - by rewrite lookup_insert_ne.
Qed.

Example strings_Index_examples :
  strings_Index "http://a" ":" = 4 ∧ strings_Index "no scheme" ":" = -1
  ∧ strings_Index ":leading" ":" = 0 ∧ strings_Index "abc" "" = 0.
Proof. vm_compute. done. Qed.

Example strings_Join_example :
  strings_Join ["Bookmarks"; "Dev"; "Tools"] "/" = "Bookmarks/Dev/Tools".
Proof. vm_compute. done. Qed.

Example extractProtocol_examples :
  @bookmark.extractProtocol fixtures.ascii_unicode "JavaScript:alert(1)"
    = "javascript"
  ∧ @bookmark.extractProtocol fixtures.ascii_unicode ":leading" = ""
  ∧ @bookmark.extractProtocol fixtures.ascii_unicode "no scheme" = "".
Proof. vm_compute. done. Qed.

Example truncate_examples :
  bookmark.truncate "bookmark" 40 = "bookmark"
  ∧ bookmark.truncate "a long title" 8 = "a lon..."
  ∧ bookmark.truncate "a long title" 3 = "a l".
Proof. vm_compute. done. Qed.

Example containsIgnoreCase_examples :
  mcp.containsIgnoreCase "GitHub" "git" = true
  ∧ mcp.containsIgnoreCase "Docs" "git" = false
  ∧ mcp.containsIgnoreCase "hub" "GITHUB" = false
  ∧ mcp.containsIgnoreCase "" "" = true.
Proof. vm_compute. done. Qed.
End go_facts.

(** ** The filter engine *)

Section filter_facts.
Import go bookmark.
Context `{Unicode} `{RegexpPkg}.

Variable opts : FilterOptions.
Variable patterns : list Regexp.
Variables excludeProtos warnProtos : gmap string bool.

Local Abbreviation step := (Filter_step opts patterns excludeProtos warnProtos).
Local Abbreviation keep := (λ b, negb (is_excluded opts patterns excludeProtos b)).

(** The kept records of the loop are the records that pass the
    exclusion checks, appended in input order. *)
Lemma Filter_loop_kept bookmarks result :
  FBookmarks (fold_left step bookmarks result)
  = FBookmarks result ++ List.filter keep bookmarks.
Proof.
  revert result. induction bookmarks as [|b bs IH]; intros result; simpl.
  - by rewrite app_nil_r.
  - rewrite IH. unfold Filter_step.
    destruct (is_excluded opts patterns excludeProtos b); simpl; [done|].
    by rewrite <- app_assoc.
Qed.

(** One iteration either counts the record as excluded or keeps it. *)
Lemma Filter_step_count result b :
  0 ≤ Excluded result →
  Excluded result + 1 ≤ MaxInt →
  let result' := step result b in
  0 ≤ Excluded result' ≤ Excluded result + 1
  ∧ Excluded result' + len (FBookmarks result')
    = Excluded result + len (FBookmarks result) + 1.
Proof.
  intros Hnn Hmax. unfold Filter_step.
  destruct (is_excluded opts patterns excludeProtos b); simpl.
  - rewrite int_wrap_id by (unfold MaxInt in *; lia). lia.
  - rewrite len_app. unfold len; simpl. lia.
Qed.

(** The exclusion counter and the kept records account for every record
    seen, as long as the counter stays in range. *)
Lemma Filter_loop_count bookmarks result :
  0 ≤ Excluded result →
  Excluded result + len bookmarks ≤ MaxInt →
  let result' := fold_left step bookmarks result in
  0 ≤ Excluded result'
  ∧ Excluded result' + len (FBookmarks result')
    = Excluded result + len (FBookmarks result) + len bookmarks.
Proof.
  revert result. induction bookmarks as [|b bs IH]; intros result Hnn Hmax.
  - unfold len; simpl. lia.
  - assert (Hlen : len (b :: bs) = 1 + len bs) by (unfold len; simpl; lia).
    rewrite Hlen in *. pose proof (len_nonneg bs) as Hbs.
    destruct (Filter_step_count result b) as [Hs1 Hs2]; [lia..|].
    destruct (IH (step result b)) as [IH1 IH2]; [lia..|].
    cbn [fold_left]. split; [done|]. rewrite IH2, Hs2. lia.
Qed.
End filter_facts.

(** C5. For every record slice [R] (its length fits an [int], as every Go
    slice's does) and every rule set [F], the exclusion counter of
    [Filter(R, F)] plus the number of kept records is the number of input
    records. *)
Theorem Filter_excluded_plus_kept `{go.Unicode} `{go.RegexpPkg}
    (R : list bookmark.Bookmark) (F : bookmark.FilterOptions) :
  go.len R ≤ go.MaxInt →
  bookmark.Excluded (bookmark.Filter R F)
    + go.len (bookmark.FBookmarks (bookmark.Filter R F))
  = go.len R.
Proof.
  intros HR. unfold bookmark.Filter.
  match goal with |- context [fold_left (bookmark.Filter_step _ ?p ?e ?w) R ?r] =>
    destruct (Filter_loop_count F p e w R r) as [_ Hc] end.
  - simpl. lia.
  - simpl. lia.
  - rewrite Hc. unfold go.len; simpl. lia.
Qed.

Lemma Filter_excluded_plus_kept_witness :
  go.len fixtures.three ≤ go.MaxInt
  ∧ bookmark.Excluded
      (@bookmark.Filter fixtures.ascii_unicode fixtures.literal_regexp
         fixtures.three fixtures.no_javascript)
    + go.len (bookmark.FBookmarks
                (@bookmark.Filter fixtures.ascii_unicode fixtures.literal_regexp
                   fixtures.three fixtures.no_javascript))
    = go.len fixtures.three.
Proof.
  split; [vm_compute; discriminate|].
  apply (@Filter_excluded_plus_kept fixtures.ascii_unicode fixtures.literal_regexp).
  vm_compute; discriminate.
Defined.

Lemma filter_bool_sublist {A} (p : A → bool) (l : list A) :
  List.filter p l `sublist_of` l.
Proof.
  induction l as [|x l IH]; simpl; [constructor|].
  destruct (p x); by constructor.
Qed.

Lemma Filter_sublist `{go.Unicode} `{go.RegexpPkg}
    (bookmarks : list bookmark.Bookmark) (opts : bookmark.FilterOptions) :
  bookmark.FBookmarks (bookmark.Filter bookmarks opts) `sublist_of` bookmarks.
Proof.
  unfold bookmark.Filter. rewrite Filter_loop_kept. simpl.
  apply filter_bool_sublist.
Qed.

(** C6. For every record slice [R] and rule set [F], the kept records of
    [Filter(R, F)] form a subsequence of [R] in the original order: they
    are the records of [R] that pass the exclusion checks, each once and
    in the order of [R]. *)
Theorem Filter_kept_subsequence `{go.Unicode} `{go.RegexpPkg}
    (R : list bookmark.Bookmark) (F : bookmark.FilterOptions) :
  bookmark.FBookmarks (bookmark.Filter R F) `sublist_of` R
  ∧ bookmark.FBookmarks (bookmark.Filter R F)
    = List.filter
        (λ b, negb (bookmark.is_excluded F
                      (bookmark.compile_patterns (bookmark.ExcludeURLPatterns F))
                      (bookmark.proto_map (bookmark.ExcludeProtocols F)) b)) R.
Proof.
  split; [apply Filter_sublist|].
  unfold bookmark.Filter. by rewrite Filter_loop_kept.
Qed.

Example Filter_scenario :
  let r := @bookmark.Filter fixtures.ascii_unicode fixtures.literal_regexp
             fixtures.three fixtures.no_javascript in
  bookmark.FBookmarks r = [fixtures.mk "A" "http://a"; fixtures.mk "A2" "http://a"]
  ∧ bookmark.Excluded r = 1
  ∧ bookmark.Deduplicate (bookmark.FBookmarks r) = [fixtures.mk "A" "http://a"].
Proof. vm_compute. done. Qed.

(** ** Deduplication *)

Section dedup_facts.
Import go bookmark loops.

Lemma Deduplicate_loop bookmarks seen result :
  snd (fold_left Deduplicate_step bookmarks (seen, result))
  = result ++ dedup_from seen bookmarks.
Proof.
  revert seen result. induction bookmarks as [|b bs IH]; intros seen result; simpl.
  - by rewrite app_nil_r.
  - destruct (map_get seen (URL b)); simpl; rewrite IH; [done|].
    by rewrite <- app_assoc.
Qed.

Lemma Deduplicate_dedup_from bookmarks :
  Deduplicate bookmarks = dedup_from ∅ bookmarks.
Proof. unfold Deduplicate. by rewrite Deduplicate_loop. Qed.

Lemma dedup_from_sublist seen bookmarks :
  dedup_from seen bookmarks `sublist_of` bookmarks.
Proof.
  revert seen. induction bookmarks as [|b bs IH]; intros seen; simpl.
  - constructor.
  - destruct (map_get seen (URL b)); constructor; apply IH.
Qed.

(** No record of the result has a URL that was already seen. *)
Lemma dedup_from_unseen seen bookmarks b :
  b ∈ dedup_from seen bookmarks → map_get seen (URL b) = false.
Proof.
  revert seen. induction bookmarks as [|x bs IH]; intros seen; simpl.
  - by intros ?%elem_of_nil.
  - destruct (map_get seen (URL x)) eqn:Hx.
    + apply IH.
    + intros [->|Hin]%elem_of_cons; [done|].
      apply IH in Hin. rewrite map_get_insert_true in Hin.
      by case_decide.
Qed.

Lemma dedup_from_NoDup seen bookmarks :
  NoDup (URL <$> dedup_from seen bookmarks).
Proof.
  revert seen. induction bookmarks as [|x bs IH]; intros seen; simpl.
  - constructor.
  - destruct (map_get seen (URL x)); [apply IH|].
    rewrite fmap_cons. constructor; [|apply IH].
    intros (b & Hb & Hin)%list_elem_of_fmap.
    apply dedup_from_unseen in Hin.
    rewrite map_get_insert_true, Hb in Hin. by case_decide.
Qed.

(** A slice without repeated URLs, none of them seen, is left as it is. *)
Lemma dedup_from_fixed seen bookmarks :
  NoDup (URL <$> bookmarks) →
  (∀ b, b ∈ bookmarks → map_get seen (URL b) = false) →
  dedup_from seen bookmarks = bookmarks.
Proof.
  revert seen. induction bookmarks as [|x bs IH]; intros seen Hnd Hseen; simpl.
  - done.
  - rewrite fmap_cons in Hnd. apply NoDup_cons in Hnd as [Hx Hnd].
    rewrite (Hseen x) by left. f_equal. apply IH; [done|].
    intros b Hb. rewrite map_get_insert_true. case_decide as Heq.
    + exfalso. apply Hx. rewrite Heq. by apply list_elem_of_fmap_2.
    + apply Hseen. by right.
Qed.

(** The record kept for a URL is the first record of the input with that
    URL, unless the URL was seen before. *)
Lemma dedup_from_find seen bookmarks u :
  List.find (λ b, bool_decide (URL b = u)) (dedup_from seen bookmarks)
  = if map_get seen u then None
    else List.find (λ b, bool_decide (URL b = u)) bookmarks.
Proof.
  revert seen. induction bookmarks as [|x bs IH]; intros seen; simpl.
  - by destruct (map_get seen u).
  - destruct (map_get seen (URL x)) eqn:Hx; simpl.
    + rewrite IH. case_bool_decide as Heq; [|done].
      subst u. by rewrite Hx.
    + rewrite IH, map_get_insert_true.
      case_bool_decide as Heq.
      * subst u. by rewrite Hx.
      * rewrite decide_False by done. done.
Qed.
End dedup_facts.

(** C8. [Deduplicate] is idempotent; its result is a subsequence of the
    input (the order of the remaining records is kept) with no URL
    repeated, and for every URL the record it holds is the first record of
    the input with that URL. *)
Theorem Deduplicate_idempotent_first_occurrence (R : list bookmark.Bookmark) :
  bookmark.Deduplicate (bookmark.Deduplicate R) = bookmark.Deduplicate R
  ∧ bookmark.Deduplicate R `sublist_of` R
  ∧ NoDup (bookmark.URL <$> bookmark.Deduplicate R)
  ∧ ∀ u, List.find (λ b, bool_decide (bookmark.URL b = u)) (bookmark.Deduplicate R)
         = List.find (λ b, bool_decide (bookmark.URL b = u)) R.
Proof.
  rewrite !Deduplicate_dedup_from. repeat split.
  - apply dedup_from_fixed; [apply dedup_from_NoDup|].
    intros b _. apply map_get_empty.
  - apply dedup_from_sublist.
  - apply dedup_from_NoDup.
  - intros u. by rewrite dedup_from_find, map_get_empty.
Qed.

(** ** The adapter registry *)

Section registry_facts.
Import adapter loops.

Lemma range_keys_perm {V} (m : gmap string V) :
  range_keys m ≡ₚ elements (dom m).
Proof.
  unfold range_keys. apply NoDup_Permutation.
  - apply NoDup_fst_map_to_list.
  - apply NoDup_elements.
  - intros k. rewrite elem_of_elements, elem_of_dom.
    rewrite list_elem_of_fmap. split.
    + intros ([k' v] & -> & Hin). apply elem_of_map_to_list in Hin. eauto.
    + intros [v Hv]. exists (k, v). split; [done|].
      by apply elem_of_map_to_list.
Qed.

Lemma sort_Strings_sorted names : StronglySorted String.le (sort_Strings names).
Proof. apply StronglySorted_merge_sort; apply _. Qed.

Lemma sort_Strings_perm names : sort_Strings names ≡ₚ names.
Proof. apply merge_sort_Permutation. Qed.

(** The result of sorting depends on the multiset of names only, so the
    iteration order of the map is immaterial. *)
Lemma sort_Strings_order_irrelevant l1 l2 :
  l1 ≡ₚ l2 → sort_Strings l1 = sort_Strings l2.
Proof.
  intros Hp. apply (StronglySorted_unique String.le).
  - apply sort_Strings_sorted.
  - apply sort_Strings_sorted.
  - by rewrite !sort_Strings_perm.
Qed.

Lemma ListInputs_dom r1 r2 :
  dom (inputs r1) = dom (inputs r2) → ListInputs r1 = ListInputs r2.
Proof.
  intros Hd. unfold ListInputs. apply sort_Strings_order_irrelevant.
  by rewrite !range_keys_perm, Hd.
Qed.

Lemma ListInputs_elem r name :
  name ∈ ListInputs r ↔ is_Some (GetInput r name).
Proof.
  unfold ListInputs, GetInput.
  rewrite sort_Strings_perm, range_keys_perm, elem_of_elements.
  apply elem_of_dom.
Qed.

Lemma ListInputs_NoDup r : NoDup (ListInputs r).
Proof.
  unfold ListInputs. rewrite sort_Strings_perm, range_keys_perm.
  apply NoDup_elements.
Qed.

Lemma register_inputs_dom l r :
  dom (inputs (register_inputs l r))
  = dom (inputs r) ∪ list_to_set (input.Name <$> l).
Proof.
  revert r. induction l as [|a l IH]; intros r; simpl.
  - by rewrite (right_id_L ∅ (∪)).
  - unfold register_inputs in *. simpl. rewrite IH. simpl.
    rewrite dom_insert_L.
    rewrite (comm_L (∪) {[input.Name a]} (dom (inputs r))).
    by rewrite (assoc_L (∪)).
Qed.
End registry_facts.

(** C9. After [RegisterInput(A)] then [RegisterInput(B)] under the same
    name ["x"], [GetInput("x")] returns [B]; and for every registry
    [ListInputs] is sorted, lists exactly the registered names once each,
    and is the same whatever the order in which the adapters were
    registered. *)
Theorem registry_last_wins_sorted_listing :
  (∀ (r : adapter.Registry) (x : string) (A B : input.Adapter),
     input.Name A = x → input.Name B = x →
     adapter.GetInput (adapter.RegisterInput B (adapter.RegisterInput A r)) x
     = Some B)
  ∧ (∀ r : adapter.Registry,
       StronglySorted String.le (adapter.ListInputs r)
       ∧ NoDup (adapter.ListInputs r)
       ∧ ∀ name, name ∈ adapter.ListInputs r
                 ↔ is_Some (adapter.GetInput r name))
  ∧ (∀ (r : adapter.Registry) (l1 l2 : list input.Adapter),
       l1 ≡ₚ l2 →
       adapter.ListInputs (loops.register_inputs l1 r)
       = adapter.ListInputs (loops.register_inputs l2 r)).
Proof.
  split; [|split].
  - intros r x A B HA HB. unfold adapter.GetInput, adapter.RegisterInput; simpl.
    rewrite HA, HB. apply lookup_insert_eq.
  - intros r. split; [apply sort_Strings_sorted|].
    split; [apply ListInputs_NoDup|]. intros name. apply ListInputs_elem.
  - intros r l1 l2 Hp. apply ListInputs_dom.
    rewrite !register_inputs_dom. by rewrite Hp.
Qed.

(** ** The all-sources read path *)

Section read_facts.
Import go bookmark loops.

(** A fold over a list without repetition in which every element but
    [x] is idle. *)
Lemma fold_left_single_in {A B} (f : A → B → A) (l : list B) (x : B) (a : A) :
  NoDup l → x ∈ l → (∀ y a', y ∈ l → y ≠ x → f a' y = a') →
  fold_left f l a = f a x.
Proof.
  intros Hnd Hin Hid. revert a.
  induction Hnd as [|y l Hy Hnd IH]; intros a.
  - by apply elem_of_nil in Hin.
  - simpl. apply elem_of_cons in Hin as [->|Hin].
    + clear IH.
      assert (Hrest : ∀ z a', z ∈ l → f a' z = a').
      { intros z a' Hz. apply Hid; [by right|]. intros ->. done. }
      clear Hid Hy Hnd. generalize (f a y).
      induction l as [|z l IHl]; intros a'; [done|].
      simpl. rewrite Hrest by (by left).
      apply IHl. intros z' a'' Hz'. apply Hrest. by right.
    + rewrite Hid; [|by left|by intros ->].
      apply IH; [done|]. intros z a' Hz Hne. apply Hid; [by right|done].
Qed.

Lemma inputPreference_NoDup : NoDup cmd.inputPreference.
Proof. compute_done. Qed.

(** The loop body in terms of the read call it makes. *)
Lemma readAllInputs_step_read reg cfg c name :
  cmd.readAllInputs_step reg cfg c name
  = match successful_read reg cfg name with
    | Some (inp, bookmarks) =>
        if 0 <? len bookmarks
        then Add c bookmarks (descriptor cfg name inp bookmarks) else c
    | None => c
    end.
Proof.
  unfold cmd.readAllInputs_step, successful_read.
  destruct (adapter.GetInput reg name) as [inp|]; [|done].
  destruct (negb (config.Enabled _)); [done|].
  destruct (negb (input.Available inp)); [done|].
  destruct (input.Configure inp _); [done|].
  destruct (input.Read inp _) as [bookmarks [e|]]; [done|].
  by destruct (0 <? len bookmarks).
Qed.

Lemma readAllInputs_step_skip reg cfg c name :
  successful_read reg cfg name = None →
  cmd.readAllInputs_step reg cfg c name = c.
Proof. intros Hr. by rewrite readAllInputs_step_read, Hr. Qed.

Lemma readAllInputs_step_idle reg cfg c name :
  contributes reg cfg name = false →
  cmd.readAllInputs_step reg cfg c name = c.
Proof.
  unfold contributes. rewrite readAllInputs_step_read.
  destruct (successful_read reg cfg name) as [[inp bookmarks]|]; [|done].
  by intros ->.
Qed.

(** The descriptors of a pass over [names]: one per contributing
    source, in iteration order. *)
Lemma readAllInputs_loop_sources reg cfg names c :
  length (Sources (fold_left (cmd.readAllInputs_step reg cfg) names c))
  = (length (Sources c) + length (List.filter (contributes reg cfg) names))%nat.
Proof.
  revert c. induction names as [|name names IH]; intros c; simpl; [lia|].
  rewrite IH, readAllInputs_step_read. unfold contributes.
  destruct (successful_read reg cfg name) as [[inp bookmarks]|]; [|simpl; lia].
  destruct (0 <? len bookmarks); simpl; [|lia].
  rewrite length_app. simpl. lia.
Qed.

(** The server's loop builds its collection by the same loop body. *)
Lemma getBookmarks_step_collection reg cfg c cs name :
  fst (mcp.getBookmarks_step reg cfg (c, cs) name)
  = cmd.readAllInputs_step reg cfg c name.
Proof.
  unfold mcp.getBookmarks_step, cmd.readAllInputs_step.
  destruct (adapter.GetInput reg name) as [inp|]; [|done].
  destruct (negb (config.Enabled _)); [done|].
  destruct (negb (input.Available inp)); [done|].
  destruct (input.Configure inp _); [done|].
  destruct (input.Read inp _) as [bookmarks [e|]]; [done|].
  by destruct (0 <? len bookmarks).
Qed.

Lemma getBookmarks_loop_collection reg cfg names c cs :
  fst (fold_left (mcp.getBookmarks_step reg cfg) names (c, cs))
  = fold_left (cmd.readAllInputs_step reg cfg) names c.
Proof.
  revert c cs. induction names as [|name names IH]; intros c cs; [done|].
  cbn [fold_left].
  destruct (mcp.getBookmarks_step reg cfg (c, cs) name) as [c' cs'] eqn:Hstep.
  rewrite IH. f_equal.
  by rewrite <- (getBookmarks_step_collection reg cfg c cs name), Hstep.
Qed.

Lemma read_all_collection reg cfg :
  fst (mcp.read_all reg cfg)
  = fold_left (cmd.readAllInputs_step reg cfg) (adapter.ListInputs reg)
      NewCollection.
Proof. apply getBookmarks_loop_collection. Qed.
End read_facts.

(** C3, as stated, fails: a source whose read succeeds with zero records
    gets no descriptor.  The Safari-like reader below is registered,
    enabled, available and configured, its [Read] returns an empty slice
    and no error, and the all-sources path (of the orchestrator and of the
    server alike) appends nothing. *)
Lemma empty_successful_read_adds_no_descriptor :
  snd <$> loops.successful_read fixtures.reg_empty_read config.Default "safari"
    = Some []
  ∧ bookmark.Sources
      (cmd.readAllInputs fixtures.reg_empty_read config.Default
         bookmark.NewCollection).1 = []
  ∧ input.CallRead "safari"
      ∈ (mcp.read_all fixtures.reg_empty_read config.Default).2
  ∧ bookmark.Sources
      (mcp.read_all fixtures.reg_empty_read config.Default).1 = [].
Proof.
  split; [by vm_compute|]. split; [by vm_compute|].
  split; [|by vm_compute].
  vm_compute. apply list_elem_of_In. simpl. tauto.
Qed.

(** C3, amended. In the all-sources read path a source whose read call
    succeeds with at least one record gets exactly one descriptor, holding
    its name and the number of records; a successful read of zero records
    gets none.  So a pass appends as many descriptors as there are
    contributing sources, in the orchestrator (over the preference order)
    and in the server (over the sorted listing). *)
Theorem one_descriptor_per_nonempty_read :
  (∀ reg cfg c name inp bookmarks,
     loops.successful_read reg cfg name = Some (inp, bookmarks) →
     bookmark.Sources (cmd.readAllInputs_step reg cfg c name)
     = if (0 <? go.len bookmarks)
       then bookmark.Sources c ++ [loops.descriptor cfg name inp bookmarks]
       else bookmark.Sources c)
  ∧ (∀ reg cfg c,
       length (bookmark.Sources (cmd.readAllInputs reg cfg c).1)
       = (length (bookmark.Sources c)
          + length (List.filter (loops.contributes reg cfg) cmd.inputPreference))%nat)
  ∧ (∀ reg cfg,
       length (bookmark.Sources (mcp.read_all reg cfg).1)
       = length (List.filter (loops.contributes reg cfg) (adapter.ListInputs reg))).
Proof.
  split; [|split].
  - intros reg cfg c name inp bookmarks Hr.
    rewrite readAllInputs_step_read, Hr.
    by destruct (0 <? go.len bookmarks).
  - intros reg cfg c. apply readAllInputs_loop_sources.
  - intros reg cfg. rewrite read_all_collection.
    by rewrite readAllInputs_loop_sources.
Qed.

Lemma one_descriptor_per_nonempty_read_witness :
  loops.successful_read fixtures.reg_one_fails config.Default "chrome"
    = Some (fixtures.reader "chrome" (fixtures.chrome3, None), fixtures.chrome3)
  ∧ bookmark.Sources
      (cmd.readAllInputs_step fixtures.reg_one_fails config.Default
         bookmark.NewCollection "chrome")
    = [loops.descriptor config.Default "chrome"
         (fixtures.reader "chrome" (fixtures.chrome3, None)) fixtures.chrome3].
Proof.
  assert (Hr : loops.successful_read fixtures.reg_one_fails config.Default "chrome"
    = Some (fixtures.reader "chrome" (fixtures.chrome3, None), fixtures.chrome3))
    by (vm_compute; reflexivity).
  split; [exact Hr|].
  destruct one_descriptor_per_nonempty_read as [Hstep _].
  exact (Hstep fixtures.reg_one_fails config.Default bookmark.NewCollection
           "chrome" _ _ Hr).
Defined.

(** C7. In all-sources mode, where the read of [s1] succeeds with three
    records, the read call of [s2] returns an error and the other sources
    of the preference list contribute nothing (each is unregistered,
    disabled, unavailable, fails to configure or to read, or reads no
    record), [readAllInputs] returns no error and the collection holds
    exactly the three records of [s1] and exactly one descriptor, the one
    of [s1] with count 3. *)
Theorem failed_read_is_skipped reg cfg s1 s2 a1 a2 bookmarks e :
  s1 ∈ cmd.inputPreference → s1 ≠ s2 →
  (∀ name, name ∈ cmd.inputPreference → name ≠ s1 → name ≠ s2 →
           loops.contributes reg cfg name = false) →
  loops.successful_read reg cfg s1 = Some (a1, bookmarks) →
  length bookmarks = 3%nat →
  adapter.GetInput reg s2 = Some a2 →
  snd (input.Read a2 (cmd.all_profiles_config (config.GetInputConfig cfg s2)))
    = Some e →
  let '(collection, err) := cmd.readAllInputs reg cfg bookmark.NewCollection in
  err = None
  ∧ bookmark.Bookmarks collection = bookmarks
  ∧ bookmark.Collection_Count collection = 3
  ∧ bookmark.Sources collection = [loops.descriptor cfg s1 a1 bookmarks]
  ∧ bookmark.Count (loops.descriptor cfg s1 a1 bookmarks) = 3.
Proof.
  intros Hs1 Hne Hothers Hr1 Hlen Hg2 Hr2.
  unfold cmd.readAllInputs.
  rewrite (fold_left_single_in _ _ s1); [|apply inputPreference_NoDup|done|].
  - rewrite readAllInputs_step_read, Hr1.
    assert (Hl : go.len bookmarks = 3) by (unfold go.len; lia).
    rewrite Hl. simpl. unfold bookmark.Collection_Count. simpl.
    repeat split; unfold go.len; lia.
  - intros name c Hin Hname.
    destruct (decide (name = s2)) as [->|Hn2].
    + apply readAllInputs_step_skip. unfold loops.successful_read.
      rewrite Hg2. destruct (negb _); [done|]. destruct (negb _); [done|].
      destruct (input.Configure a2 _); [done|].
      destruct (input.Read a2 _) as [bs [e'|]]; [done|]. discriminate.
    + apply readAllInputs_step_idle. by apply Hothers.
Qed.

Lemma failed_read_is_skipped_witness :
  let '(collection, err) :=
    cmd.readAllInputs fixtures.reg_seven config.Default bookmark.NewCollection in
  err = None
  ∧ bookmark.Bookmarks collection = fixtures.chrome3
  ∧ bookmark.Collection_Count collection = 3
  ∧ bookmark.Sources collection
    = [loops.descriptor config.Default "chrome"
         (fixtures.reader "chrome" (fixtures.chrome3, None)) fixtures.chrome3]
  ∧ bookmark.Count
      (loops.descriptor config.Default "chrome"
         (fixtures.reader "chrome" (fixtures.chrome3, None)) fixtures.chrome3) = 3.
Proof.
  apply (failed_read_is_skipped fixtures.reg_seven config.Default
           "chrome" "firefox" _
           (fixtures.reader "firefox" ([], Some "database is locked"))
           fixtures.chrome3 "database is locked").
  - compute_done.
  - discriminate.
  - intros name Hin H1 H2.
    repeat (apply elem_of_cons in Hin as [->|Hin]; [first [done | vm_compute; reflexivity]|]).
    by apply elem_of_nil in Hin.
  - vm_compute; reflexivity.
  - reflexivity.
  - vm_compute; reflexivity.
  - reflexivity.
Defined.

(** ** The count invariant of collections *)

Section invariant_facts.
Import go bookmark loops.

Lemma sum_counts_app l k : sum_counts (l ++ k) = sum_counts l + sum_counts k.
Proof. induction l as [|s l IH]; simpl; [done|]. rewrite IH. lia. Qed.

Lemma counts_match_new : counts_match NewCollection.
Proof. reflexivity. Qed.

Lemma counts_match_Add c bookmarks source :
  counts_match c → counts_match (Add c bookmarks source).
Proof.
  unfold counts_match, Add. simpl. intros Hc.
  rewrite sum_counts_app, len_app, Hc. simpl. lia.
Qed.

Lemma counts_match_step reg cfg c name :
  counts_match c → counts_match (cmd.readAllInputs_step reg cfg c name).
Proof.
  intros Hc. rewrite readAllInputs_step_read.
  destruct (successful_read reg cfg name) as [[inp bookmarks]|]; [|done].
  destruct (0 <? len bookmarks); [|done]. by apply counts_match_Add.
Qed.

Lemma counts_match_loop reg cfg names c :
  counts_match c →
  counts_match (fold_left (cmd.readAllInputs_step reg cfg) names c).
Proof.
  revert c. induction names as [|name names IH]; intros c Hc; [done|].
  simpl. by apply IH, counts_match_step.
Qed.

Lemma counts_match_readPreferredInput reg cfg browserFlag profileFlag c :
  counts_match c →
  counts_match (cmd.readPreferredInput reg cfg browserFlag profileFlag c).1.
Proof.
  intros Hc. unfold cmd.readPreferredInput.
  repeat (case_match; simpl; try done); by apply counts_match_Add.
Qed.

Lemma counts_match_getBookmarks w s uri :
  (∀ c, mcp.cache s = Some c → counts_match c) →
  let '(collection, _, s') := mcp.getBookmarks w s uri in
  counts_match collection ∧ mcp.cache s' = Some collection.
Proof.
  intros Hs. unfold mcp.getBookmarks.
  destruct (mcp.cache s) as [cached|] eqn:Hcache.
  - split; [by apply Hs|done].
  - destruct (mcp.read_all _ _) as [collection cs] eqn:Hread.
    split; [|done].
    change collection with (collection, cs).1.
    rewrite <- Hread, read_all_collection.
    apply counts_match_loop, counts_match_new.
Qed.
End invariant_facts.

(** C2, as stated, fails at the post-filter update of [runSync]: the
    filtered collection takes the filtered bookmarks and the descriptors
    of the unfiltered collection.  With the default rules, of the four
    records read one is a [javascript:] URL and is excluded; three
    bookmarks remain and the counts still add up to four. *)
Lemma post_filter_counts_not_updated :
  match @cmd.runSync fixtures.ascii_unicode fixtures.literal_regexp
          fixtures.no_config_file fixtures.writable_fs 0
          fixtures.reg_two_sources fixtures.flags_all with
  | inr (cmd.Printed filteredCollection _) =>
      loops.sum_counts (bookmark.Sources filteredCollection) = 4
      ∧ go.len (bookmark.Bookmarks filteredCollection) = 3
  | _ => False
  end.
Proof. vm_compute. done. Qed.

(** C2, amended. Every collection built by the read paths ([NewCollection]
    followed by [Add] calls: [readAllInputs], [readPreferredInput], and
    the server's cache) has descriptor counts that add up to the number of
    bookmarks.  The post-filter update of the orchestrator replaces the
    bookmarks only: the descriptors stay those of the collection read, so
    their counts add up to the number of records read, which is at least
    the number of bookmarks kept. *)
Theorem counts_match_on_read_paths `{go.Unicode} `{go.RegexpPkg} :
  loops.counts_match bookmark.NewCollection
  ∧ (∀ c bookmarks source,
       loops.counts_match c → loops.counts_match (bookmark.Add c bookmarks source))
  ∧ (∀ reg cfg c,
       loops.counts_match c → loops.counts_match (cmd.readAllInputs reg cfg c).1)
  ∧ (∀ reg cfg browserFlag profileFlag c,
       loops.counts_match c →
       loops.counts_match (cmd.readPreferredInput reg cfg browserFlag profileFlag c).1)
  ∧ (∀ w s uri,
       (∀ c, mcp.cache s = Some c → loops.counts_match c) →
       let '(collection, _, s') := mcp.getBookmarks w s uri in
       loops.counts_match collection ∧ mcp.cache s' = Some collection)
  ∧ (∀ cfg flags c,
       loops.counts_match c →
       let filteredCollection := cmd.filteredCollection_of cfg flags c in
       bookmark.Sources filteredCollection = bookmark.Sources c
       ∧ loops.sum_counts (bookmark.Sources filteredCollection)
         = go.len (bookmark.Bookmarks c)
       ∧ go.len (bookmark.Bookmarks filteredCollection)
         ≤ loops.sum_counts (bookmark.Sources filteredCollection)).
Proof.
  split; [apply counts_match_new|].
  split; [apply counts_match_Add|].
  split; [intros reg cfg c Hc; by apply counts_match_loop|].
  split; [apply counts_match_readPreferredInput|].
  split; [apply counts_match_getBookmarks|].
  intros cfg flags c Hc. simpl. split; [done|]. split; [done|].
  rewrite Hc. unfold go.len. apply inj_le, sublist_length.
  destruct (config.Deduplicate _).
  - etrans; [|apply Filter_sublist].
    rewrite Deduplicate_dedup_from. apply dedup_from_sublist.
  - apply Filter_sublist.
Qed.

Lemma counts_match_on_read_paths_witness :
  let c := (cmd.readAllInputs fixtures.reg_two_sources config.Default
              bookmark.NewCollection).1 in
  loops.counts_match c
  ∧ let filteredCollection :=
        @cmd.filteredCollection_of fixtures.ascii_unicode fixtures.literal_regexp
          config.Default fixtures.flags_all c in
    bookmark.Sources filteredCollection = bookmark.Sources c
    ∧ loops.sum_counts (bookmark.Sources filteredCollection)
      = go.len (bookmark.Bookmarks c)
    ∧ go.len (bookmark.Bookmarks filteredCollection)
      ≤ loops.sum_counts (bookmark.Sources filteredCollection).
Proof.
  intros c.
  assert (Hc : loops.counts_match c) by (vm_compute; reflexivity).
  split; [exact Hc|].
  destruct (@counts_match_on_read_paths fixtures.ascii_unicode
              fixtures.literal_regexp) as (_ & _ & _ & _ & _ & Hfilter).
  exact (Hfilter config.Default fixtures.flags_all c Hc).
Defined.

Lemma registry_last_wins_sorted_listing_witness :
  adapter.GetInput
    (adapter.RegisterInput (fixtures.reader "x" (fixtures.firefox1, None))
       (adapter.RegisterInput (fixtures.reader "x" (fixtures.chrome3, None))
          adapter.empty)) "x"
  = Some (fixtures.reader "x" (fixtures.firefox1, None))
  ∧ adapter.ListInputs
      (loops.register_inputs
         [fixtures.reader "safari" ([], None); fixtures.reader "chrome" ([], None)]
         adapter.empty)
    = adapter.ListInputs
        (loops.register_inputs
           [fixtures.reader "chrome" ([], None); fixtures.reader "safari" ([], None)]
           adapter.empty).
Proof.
  destruct registry_last_wins_sorted_listing as (Hlast & _ & Horder).
  split.
  - apply (Hlast adapter.empty "x"); reflexivity.
  - apply (Horder adapter.empty). apply perm_swap.
Defined.

Example ListInputs_sorted_example :
  adapter.ListInputs
    (loops.register_inputs
       [fixtures.reader "safari" ([], None); fixtures.reader "chrome" ([], None);
        fixtures.reader "firefox" ([], None)] adapter.empty)
  = ["chrome"; "firefox"; "safari"].
Proof. vm_compute. done. Qed.

(** ** The protocol server *)

Section server_facts.
Import go bookmark loops.
Context `{mcp.JSONPkg}.

Lemma getBookmarks_cached w s uri c :
  mcp.cache s = Some c → mcp.getBookmarks w s uri = (c, None, s).
Proof. intros Hc. unfold mcp.getBookmarks. by rewrite Hc. Qed.

Lemma getBookmarks_miss w s uri :
  mcp.cache s = None →
  mcp.getBookmarks w s uri
  = ((mcp.read_all (mcp.registry w) (mcp.config s)).1, None,
     mcp.set_cache
       (mcp.log s (mcp.read_all (mcp.registry w) (mcp.config s)).2)
       (Some (mcp.read_all (mcp.registry w) (mcp.config s)).1)).
Proof.
  intros Hc. unfold mcp.getBookmarks. rewrite Hc.
  by destruct (mcp.read_all _ _).
Qed.

(** The resource identifier has no influence on the collection. *)
Lemma getBookmarks_uri_irrelevant w s uri uri' :
  mcp.getBookmarks w s uri = mcp.getBookmarks w s uri'.
Proof. reflexivity. Qed.

(** Whatever the state, [getBookmarks] returns no error and leaves the
    returned collection in the cache. *)
Lemma getBookmarks_populates w s uri :
  ∃ c s', mcp.getBookmarks w s uri = (c, None, s')
          ∧ mcp.cache s' = Some c ∧ mcp.config s' = mcp.config s.
Proof.
  destruct (mcp.cache s) as [c|] eqn:Hc.
  - exists c, s. by rewrite (getBookmarks_cached _ _ _ c).
  - eexists _, _. by rewrite getBookmarks_miss.
Qed.

Lemma handleResourcesRead_resolved w req s uri :
  mcp.Unmarshal_uri (mcp.Params req) = Some uri →
  mcp.handleResourcesRead w req s
  = let '(c, _, s') := mcp.getBookmarks w s uri in
    (read_response w req uri c, s').
Proof.
  intros Hu. unfold mcp.handleResourcesRead, read_response. rewrite Hu.
  destruct (getBookmarks_populates w s uri) as (c & s' & -> & _ & _).
  destruct (adapter.GetOutput _ _) as [outAdapter|]; [|done].
  destruct (output.Render _ _ _ _) as [data [err|]]; done.
Qed.

Lemma handleRequest_read w req s uri :
  reads uri req = true →
  mcp.handleRequest w req s
  = let '(c, _, s') := mcp.getBookmarks w s uri in
    (read_response w req uri c, s').
Proof.
  unfold reads. intros [Hm Hu]%andb_prop.
  apply bool_decide_eq_true in Hm, Hu.
  unfold mcp.handleRequest. rewrite Hm. simpl.
  by apply handleResourcesRead_resolved.
Qed.

Lemma handleRequest_resync w req s :
  is_resync req = true →
  mcp.handleRequest w req s = mcp.toolSyncBookmarks w req s.
Proof.
  unfold is_resync. intros [Hm Hc]%andb_prop.
  apply bool_decide_eq_true in Hm.
  unfold mcp.handleRequest, mcp.handleToolsCall. rewrite Hm. simpl.
  destruct (mcp.Unmarshal_call _) as [[name arguments]|]; [|done].
  apply bool_decide_eq_true in Hc. by rewrite Hc.
Qed.

(** The resync tool empties the cache and fills it by a fresh pass. *)
Lemma toolSyncBookmarks_state w req s :
  (mcp.toolSyncBookmarks w req s).2
  = mcp.set_cache
      (mcp.log s (mcp.read_all (mcp.registry w) (mcp.config s)).2)
      (Some (mcp.read_all (mcp.registry w) (mcp.config s)).1).
Proof.
  unfold mcp.toolSyncBookmarks. by rewrite getBookmarks_miss.
Qed.

(** A request other than a resync leaves a populated cache as it is. *)
Lemma handleRequest_keeps_cache w req s c :
  is_resync req = false → mcp.cache s = Some c →
  mcp.cache (mcp.handleRequest w req s).2 = Some c.
Proof.
  intros Hr Hc. unfold mcp.handleRequest.
  repeat case_decide; simpl; try done.
  - unfold mcp.handleResourcesList.
    by destruct (fold_left _ _ _) as [resources cs].
  - unfold mcp.handleResourcesRead.
    destruct (mcp.Unmarshal_uri _) as [uri|]; [|done].
    rewrite (getBookmarks_cached _ _ _ c) by done.
    destruct (adapter.GetOutput _ _) as [outAdapter|]; [|done].
    by destruct (output.Render _ _ _ _) as [data [err|]].
  - unfold mcp.handleToolsCall.
    unfold is_resync in Hr. rewrite bool_decide_eq_true_2 in Hr by done.
    simpl in Hr.
    destruct (mcp.Unmarshal_call _) as [[name arguments]|]; [|done].
    apply bool_decide_eq_false in Hr. rewrite decide_False by done.
    case_decide; [|done]. unfold mcp.toolSearchBookmarks.
    destruct (mcp.Unmarshal_query _) as [query|]; [|done].
    by rewrite (getBookmarks_cached _ _ _ c).
Qed.

Lemma Run_keeps_cache frames s c :
  Forall (λ wf, frame_is_resync wf.2 = false) frames →
  mcp.cache s = Some c →
  mcp.cache (mcp.Run s frames).2 = Some c.
Proof.
  intros Hf. revert s. induction Hf as [|[w f] frames Hwf Hf IH]; intros s Hc.
  - done.
  - simpl. destruct f as [|req| |]; [by apply IH| |done..].
    destruct (mcp.handleRequest w req s) as [resp s1] eqn:Hh.
    specialize (IH s1). destruct (mcp.Run s1 frames) as [resps s2].
    simpl. apply IH.
    change s1 with (resp, s1).2. rewrite <- Hh.
    by apply handleRequest_keeps_cache.
Qed.

Lemma read_response_same w1 w2 (req1 req2 : mcp.Request) uri c :
  adapter.GetOutput (mcp.registry w1) "json"
    = adapter.GetOutput (mcp.registry w2) "json" →
  adapter.GetOutput (mcp.registry w1) "markdown"
    = adapter.GetOutput (mcp.registry w2) "markdown" →
  mcp.now w1 = mcp.now w2 → mcp.ID req1 = mcp.ID req2 →
  read_response w1 req1 uri c = read_response w2 req2 uri c.
Proof.
  intros Hj Hm Hn Hi. unfold read_response.
  case_decide; [rewrite Hm|rewrite Hj]; by rewrite Hn, Hi.
Qed.
End server_facts.

(** C1. A [resources/read] for [favs://chrome] is answered with the
    bookmarks of every source: with Chrome contributing three records and
    Firefox one, the text rendered for [favs://chrome] holds the Firefox
    URL as well, and the collection resolved is the one resolved for
    [favs://all].  The claim asks for the Chrome records only. *)
Theorem source_uri_is_not_narrowed :
  (mcp.handleRequest fixtures.world_two
     (fixtures.read_request 1 "favs://chrome")
     (mcp.NewServer config.Default)).1
  = @mcp.okResponse fixtures.test_json 1%nat
      (mcp.ResContents "favs://chrome" "application/json"
         "https://github.com https://go.dev/doc javascript:alert(1) https://news.example")
  ∧ bookmark.Bookmarks
      (mcp.getBookmarks fixtures.world_two (mcp.NewServer config.Default)
         "favs://chrome").1.1
    = fixtures.chrome3 ++ fixtures.firefox1
  ∧ mcp.getBookmarks fixtures.world_two (mcp.NewServer config.Default)
      "favs://chrome"
    = mcp.getBookmarks fixtures.world_two (mcp.NewServer config.Default)
        "favs://all".
Proof. split; [by vm_compute|]. split; [by vm_compute|reflexivity]. Qed.

(** C4, as stated, fails in its last part: the resync tool call itself
    re-runs the read path and stores the result, so the read that follows
    it finds the cache populated and invokes no source-reader, although a
    pass over the sources in that world makes calls. *)
Lemma read_after_resync_is_served_from_cache :
  let s0 := mcp.NewServer config.Default in
  let s1 := (mcp.handleRequest fixtures.world_two
               (fixtures.read_request 1 "favs://all") s0).2 in
  let s2 := (mcp.handleRequest fixtures.world_two
               (fixtures.resync_request 2) s1).2 in
  let s3 := (mcp.handleRequest fixtures.world_later
               (fixtures.read_request 3 "favs://all") s2).2 in
  mcp.calls s3 = mcp.calls s2
  ∧ mcp.cache s3 = mcp.cache s2
  ∧ input.CallRead "chrome"
      ∈ (mcp.read_all (mcp.registry fixtures.world_later) (mcp.config s2)).2
  ∧ (mcp.read_all (mcp.registry fixtures.world_later) (mcp.config s2)).1
    ≠ (mcp.read_all (mcp.registry fixtures.world_two) (mcp.config s2)).1
  ∧ mcp.cache s3
    = Some (mcp.read_all (mcp.registry fixtures.world_two) (mcp.config s2)).1.
Proof.
  split; [by vm_compute|]. split; [by vm_compute|].
  split; [vm_compute; apply list_elem_of_In; simpl; tauto|].
  split; [vm_compute; discriminate|by vm_compute].
Qed.

(** C4, amended. After a [resources/read] (for the all-bookmarks resource
    or any other), whatever requests other than a resync tool call follow,
    a second read is answered from the cache: it resolves to the collection the
    first read resolved to and leaves the server (its cache and the trace
    of adapter calls) unchanged, so no source-reader is invoked; the two
    responses are equal when the resource, the renderers, the clock and
    the request identifier are.  A resync tool call re-runs the read of
    all sources itself and stores the result, so that the read following
    it is answered from that refreshed cache, again without invoking a
    source-reader. *)
Theorem repeated_read_is_served_from_cache `{mcp.JSONPkg} :
  (∀ s0 w1 uri1 req1 frames w2 uri2 req2,
     loops.reads uri1 req1 = true → loops.reads uri2 req2 = true →
     Forall (λ wf, loops.frame_is_resync wf.2 = false) frames →
     let '(r1, s1) := mcp.handleRequest w1 req1 s0 in
     let '(_, s2) := mcp.Run s1 frames in
     let '(r2, s3) := mcp.handleRequest w2 req2 s2 in
     ∃ c, r1 = loops.read_response w1 req1 uri1 c
          ∧ r2 = loops.read_response w2 req2 uri2 c
          ∧ mcp.cache s1 = Some c ∧ mcp.cache s2 = Some c
          ∧ s3 = s2
          ∧ (uri1 = uri2 →
             adapter.outputs (mcp.registry w1) = adapter.outputs (mcp.registry w2) →
             mcp.now w1 = mcp.now w2 → mcp.ID req1 = mcp.ID req2 → r1 = r2))
  ∧ (∀ s w req,
       loops.is_resync req = true →
       let '(_, s') := mcp.handleRequest w req s in
       let pass := mcp.read_all (mcp.registry w) (mcp.config s) in
       mcp.cache s' = Some pass.1
       ∧ mcp.calls s' = mcp.calls s ++ pass.2
       ∧ ∀ w' uri' req',
           loops.reads uri' req' = true →
           mcp.handleRequest w' req' s'
           = (loops.read_response w' req' uri' pass.1, s')).
Proof.
  split.
  - intros s0 w1 uri1 req1 frames w2 uri2 req2 Hr1 Hr2 Hframes.
    rewrite (handleRequest_read w1 req1 s0 uri1 Hr1).
    destruct (getBookmarks_populates w1 s0 uri1) as (c & s1 & -> & Hc1 & _).
    pose proof (Run_keeps_cache frames s1 c Hframes Hc1) as Hc2.
    destruct (mcp.Run s1 frames) as [resps s2]. simpl in Hc2.
    rewrite (handleRequest_read w2 req2 s2 uri2 Hr2).
    rewrite (getBookmarks_cached w2 s2 _ c Hc2).
    exists c. repeat split; try done.
    intros <- Ho Hn Hi. apply read_response_same; try done.
    + unfold adapter.GetOutput. by rewrite Ho.
    + unfold adapter.GetOutput. by rewrite Ho.
  - intros s w req Hr. rewrite (handleRequest_resync w req s Hr).
    pose proof (toolSyncBookmarks_state w req s) as Hs.
    destruct (mcp.toolSyncBookmarks w req s) as [resp s']. simpl in Hs.
    subst s'. split; [done|]. split; [done|].
    intros w' uri' req' Hr'. rewrite (handleRequest_read w' req' _ uri' Hr').
    by rewrite (getBookmarks_cached _ _ _ (mcp.read_all (mcp.registry w) (mcp.config s)).1).
Qed.

Lemma repeated_read_is_served_from_cache_witness :
  let '(r1, s1) :=
    mcp.handleRequest fixtures.world_two (fixtures.read_request 1 "favs://all")
      (mcp.NewServer config.Default) in
  let '(_, s2) :=
    mcp.Run s1
      [(fixtures.world_later,
        mcp.Decoded (fixtures.search_request 2 "git"));
       (fixtures.world_later, mcp.Malformed)] in
  let '(r2, s3) :=
    mcp.handleRequest fixtures.world_later
      (fixtures.read_request 3 "favs://all") s2 in
  ∃ c, r1 = loops.read_response fixtures.world_two
              (fixtures.read_request 1 "favs://all") "favs://all" c
       ∧ r2 = loops.read_response fixtures.world_later
                (fixtures.read_request 3 "favs://all") "favs://all" c
       ∧ mcp.cache s1 = Some c ∧ mcp.cache s2 = Some c
       ∧ s3 = s2
       ∧ ("favs://all" = "favs://all" →
          adapter.outputs (mcp.registry fixtures.world_two)
          = adapter.outputs (mcp.registry fixtures.world_later) →
          mcp.now fixtures.world_two = mcp.now fixtures.world_later →
          mcp.ID (fixtures.read_request 1 "favs://all")
          = mcp.ID (fixtures.read_request 3 "favs://all") → r1 = r2).
Proof.
  destruct (@repeated_read_is_served_from_cache fixtures.test_json) as [Hread _].
  apply (Hread (mcp.NewServer config.Default) fixtures.world_two "favs://all"
           (fixtures.read_request 1 "favs://all")
           [(fixtures.world_later, mcp.Decoded (fixtures.search_request 2 "git"));
            (fixtures.world_later, mcp.Malformed)]
           fixtures.world_later "favs://all"
           (fixtures.read_request 3 "favs://all")).
  - reflexivity.
  - reflexivity.
  - repeat constructor.
Defined.

(** ** The search tool *)

Section search_facts.
Import go bookmark loops.
Context `{mcp.JSONPkg}.

(** The empty query is contained in every string. *)
Lemma containsIgnoreCase_empty s : mcp.containsIgnoreCase s "" = true.
Proof.
  unfold mcp.containsIgnoreCase.
  replace (len_s "" <=? len_s s) with true
    by (symmetry; apply Z.leb_le; unfold len_s; simpl; lia).
  replace (len_s "" =? 0) with true by reflexivity.
  simpl. by rewrite orb_true_r.
Qed.

Lemma search_matches_loop query bookmarks acc :
  fold_left (λ matches b,
               if mcp.containsIgnoreCase (Title b) query
                  || mcp.containsIgnoreCase (URL b) query
               then matches ++ [b] else matches) bookmarks acc
  = acc ++ List.filter
             (λ b, mcp.containsIgnoreCase (Title b) query
                   || mcp.containsIgnoreCase (URL b) query) bookmarks.
Proof.
  revert acc. induction bookmarks as [|b bs IH]; intros acc; simpl.
  - by rewrite app_nil_r.
  - rewrite IH. destruct (_ || _); [|done]. by rewrite <- app_assoc.
Qed.

Lemma search_matches_empty_query bookmarks :
  mcp.search_matches "" bookmarks = bookmarks.
Proof.
  unfold mcp.search_matches. rewrite search_matches_loop. simpl.
  induction bookmarks as [|b bs IH]; [done|]. simpl.
  rewrite containsIgnoreCase_empty. simpl. by rewrite IH.
Qed.

Lemma search_results_loop matches acc :
  fold_left (λ results b, results ++ [(Title b, URL b)]) matches acc
  = acc ++ ((λ b, (Title b, URL b)) <$> matches).
Proof.
  revert acc. induction matches as [|b bs IH]; intros acc; simpl.
  - by rewrite app_nil_r.
  - rewrite IH. by rewrite <- app_assoc.
Qed.

Lemma toolSearchBookmarks_cached w req args s c query :
  mcp.Unmarshal_query args = Some query → mcp.cache s = Some c →
  mcp.toolSearchBookmarks w req args s
  = (mcp.okResponse (mcp.ID req)
       (mcp.ResContent (search_text (mcp.search_matches query (Bookmarks c)))),
     s).
Proof.
  intros Hq Hc. unfold mcp.toolSearchBookmarks. rewrite Hq.
  rewrite (getBookmarks_cached _ _ _ c) by done.
  unfold search_text, mcp.search_results. by rewrite search_results_loop.
Qed.
End search_facts.

(** C10. For every cached collection, a [tools/call] of
    [search_bookmarks] whose query is the empty string matches every
    bookmark of the collection: the substring test accepts the empty
    query against any title or URL, the matches are the bookmarks of the
    collection in order, and the count reported in the answer is the size
    of the collection. *)
Theorem empty_query_matches_everything `{mcp.JSONPkg}
    (w : mcp.World) (req : mcp.Request) (args : mcp.RawMessage)
    (s : mcp.Server) (c : bookmark.Collection) :
  mcp.Method req = "tools/call" →
  mcp.Unmarshal_call (mcp.Params req) = Some ("search_bookmarks", args) →
  mcp.Unmarshal_query args = Some "" →
  mcp.cache s = Some c →
  (∀ text, mcp.containsIgnoreCase text "" = true)
  ∧ mcp.search_matches "" (bookmark.Bookmarks c) = bookmark.Bookmarks c
  ∧ go.len (mcp.search_matches "" (bookmark.Bookmarks c))
    = bookmark.Collection_Count c
  ∧ mcp.handleRequest w req s
    = (mcp.okResponse (mcp.ID req)
         (mcp.ResContent
            ("Found " +:+ go.itoa (bookmark.Collection_Count c) +:+ " matches:"
               +:+ mcp.newline
               +:+ mcp.MarshalIndent_results
                     ((λ b, (bookmark.Title b, bookmark.URL b))
                        <$> bookmark.Bookmarks c))),
       s).
Proof.
  intros Hm Hcall Hq Hc.
  split; [apply containsIgnoreCase_empty|].
  split; [apply search_matches_empty_query|].
  split; [by rewrite search_matches_empty_query|].
  unfold mcp.handleRequest, mcp.handleToolsCall. rewrite Hm, Hcall. simpl.
  rewrite (toolSearchBookmarks_cached w req args s c "") by done.
  by rewrite search_matches_empty_query.
Qed.

Lemma empty_query_matches_everything_witness :
  let c := {| bookmark.Bookmarks := fixtures.chrome3 ++ fixtures.firefox1;
              bookmark.Sources := [] |} in
  mcp.handleRequest fixtures.world_two (fixtures.search_request 7 "")
    (fixtures.cached_server c)
  = (@mcp.okResponse fixtures.test_json 7%nat
       (mcp.ResContent
          ("Found " +:+ go.itoa (bookmark.Collection_Count c) +:+ " matches:"
             +:+ mcp.newline
             +:+ @mcp.MarshalIndent_results fixtures.test_json
                   ((λ b, (bookmark.Title b, bookmark.URL b))
                      <$> bookmark.Bookmarks c))),
     fixtures.cached_server c).
Proof.
  intros c.
  apply (@empty_query_matches_everything fixtures.test_json fixtures.world_two
           (fixtures.search_request 7 "") (fixtures.MsgQuery "")
           (fixtures.cached_server c) c); reflexivity.
Defined.

Example search_git_one_match :
  mcp.search_matches "git"
    [fixtures.mk "GitHub" "https://example.com/a"; fixtures.mk "Docs" "https://example.com/b"]
  = [fixtures.mk "GitHub" "https://example.com/a"].
Proof. vm_compute. done. Qed.

(** * Further properties of the code *)

(** ** The filter engine: which records are kept *)

Section filter_rules.
Import go bookmark loops.
Context `{Unicode} `{RegexpPkg}.

Lemma proto_map_loop ps (m : gmap string bool) k :
  map_get (fold_left (λ m p, <[strings_ToLower p := true]> m) ps m) k = true
  ↔ map_get m k = true ∨ k ∈ strings_ToLower <$> ps.
Proof.
  revert m. induction ps as [|p ps IH]; intros m; simpl.
  - rewrite elem_of_nil. tauto.
  - rewrite IH, map_get_insert_true, elem_of_cons.
    case_decide as Hk; [subst; tauto|].
    split; [tauto|]. intros [?|[?|?]]; auto; congruence.
Qed.

(** The lookup maps hold the lower-cased protocols of the rule. *)
Lemma proto_map_get ps k :
  map_get (proto_map ps) k = true ↔ k ∈ strings_ToLower <$> ps.
Proof.
  unfold proto_map. rewrite proto_map_loop, map_get_empty.
  split; [intros [?|?]; [done|auto]|auto].
Qed.

Lemma compile_patterns_loop ps acc :
  fold_left (λ patterns p,
               match regexp_Compile p with
               | Some re => patterns ++ [re]
               | None => patterns
               end) ps acc
  = acc ++ omap regexp_Compile ps.
Proof.
  revert acc. induction ps as [|p ps IH]; intros acc; simpl.
  - by rewrite app_nil_r.
  - rewrite IH. destruct (regexp_Compile p); [|done]. by rewrite <- app_assoc.
Qed.

(** The patterns used are those that compile, in rule order. *)
Lemma compile_patterns_omap ps :
  compile_patterns ps = omap regexp_Compile ps.
Proof. unfold compile_patterns. by rewrite compile_patterns_loop. Qed.

Lemma existsb_elem {A} (p : A → bool) (l : list A) :
  existsb p l = true ↔ ∃ x, x ∈ l ∧ p x = true.
Proof.
  rewrite existsb_exists. split; intros (x & Hx & Hp); exists x;
    (split; [by apply list_elem_of_In|done]).
Qed.

Lemma existsb_none {A} (p : A → bool) (l : list A) :
  existsb p l = false ↔ ∀ x, x ∈ l → p x = false.
Proof.
  split.
  - intros He x Hx. destruct (p x) eqn:Hp; [|done].
    rewrite <- He. symmetry. apply existsb_elem. eauto.
  - intros Hall. destruct (existsb p l) eqn:He; [|done].
    apply existsb_elem in He as (x & Hx & Hp). by rewrite Hall in Hp.
Qed.

(** The precedence of the checks has no influence on the outcome: a
    record is excluded when one of the five rules matches it. *)
Lemma is_excluded_any opts patterns excludeProtos b :
  is_excluded opts patterns excludeProtos b
  = map_get excludeProtos (extractProtocol (URL b))
    || ((0 <? MaxURLLength opts) && (MaxURLLength opts <? len_s (URL b)))
    || ((0 <? len (IncludeFolders opts))
        && negb (existsb (strings_Contains (folder_of b)) (IncludeFolders opts)))
    || existsb (strings_Contains (folder_of b)) (ExcludeFolders opts)
    || existsb (λ p, MatchString p (URL b)) patterns.
Proof.
  unfold is_excluded, folder_of.
  destruct (map_get excludeProtos _); simpl; [done|].
  destruct ((0 <? MaxURLLength opts) && _); simpl; [done|].
  destruct (0 <? len (IncludeFolders opts)); simpl.
  - destruct (existsb _ (IncludeFolders opts)); simpl; [|done].
    by destruct (existsb _ (ExcludeFolders opts)), (existsb _ patterns).
  - by destruct (existsb _ (ExcludeFolders opts)), (existsb _ patterns).
Qed.

Lemma filter_bool_elem {A} (p : A → bool) (l : list A) x :
  x ∈ List.filter p l ↔ x ∈ l ∧ p x = true.
Proof. rewrite !list_elem_of_In. apply filter_In. Qed.

(** The five rules as propositions. *)
Lemma not_excluded_iff opts b :
  is_excluded opts (compile_patterns (ExcludeURLPatterns opts))
    (proto_map (ExcludeProtocols opts)) b = false
  ↔ (extractProtocol (URL b) ∉ (strings_ToLower <$> ExcludeProtocols opts))
    ∧ (0 < MaxURLLength opts → len_s (URL b) ≤ MaxURLLength opts)
    ∧ (IncludeFolders opts ≠ [] →
       ∃ inc, inc ∈ IncludeFolders opts
              ∧ strings_Contains (folder_of b) inc = true)
    ∧ (∀ exc, exc ∈ ExcludeFolders opts →
              strings_Contains (folder_of b) exc = false)
    ∧ (∀ p re, p ∈ ExcludeURLPatterns opts →
               regexp_Compile p = Some re → MatchString re (URL b) = false).
Proof.
  rewrite is_excluded_any, !orb_false_iff.
  assert (E1 : map_get (proto_map (ExcludeProtocols opts))
                 (extractProtocol (URL b)) = false
               ↔ extractProtocol (URL b)
                   ∉ (strings_ToLower <$> ExcludeProtocols opts)).
  { rewrite <- proto_map_get. symmetry. apply not_true_iff_false. }
  assert (E2 : ((0 <? MaxURLLength opts) && (MaxURLLength opts <? len_s (URL b))
                = false)
               ↔ (0 < MaxURLLength opts → len_s (URL b) ≤ MaxURLLength opts)).
  { rewrite andb_false_iff, !Z.ltb_ge. split; [intros [?|?] ?; lia|].
    intros Hm. destruct (decide (0 < MaxURLLength opts)); [right; auto|left; lia]. }
  assert (E3 : ((0 <? len (IncludeFolders opts))
                && negb (existsb (strings_Contains (folder_of b))
                           (IncludeFolders opts)) = false)
               ↔ (IncludeFolders opts ≠ [] →
                  ∃ inc, inc ∈ IncludeFolders opts
                         ∧ strings_Contains (folder_of b) inc = true)).
  { rewrite andb_false_iff, negb_false_iff, existsb_elem, Z.ltb_ge.
    destruct (IncludeFolders opts) as [|i l]; unfold len; simpl.
    - split; [done|]. intros _. left. lia.
    - split; [intros [?|?] _; [lia|done]|]. intros Hi. right. by apply Hi. }
  assert (E5 : existsb (λ p, MatchString p (URL b))
                 (compile_patterns (ExcludeURLPatterns opts)) = false
               ↔ (∀ p re, p ∈ ExcludeURLPatterns opts →
                          regexp_Compile p = Some re →
                          MatchString re (URL b) = false)).
  { rewrite existsb_none, compile_patterns_omap. split.
    - intros Hall p re Hp Hc. apply Hall, list_elem_of_omap. eauto.
    - intros Hall re (p & Hp & Hc)%list_elem_of_omap. by apply (Hall p). }
  rewrite E1, E2, E3, E5, existsb_none. tauto.
Qed.
End filter_rules.

(** X1. A record is among the kept records of [Filter] exactly when it is
    an input record that no rule excludes: its lower-cased scheme is not
    a lower-cased excluded protocol, its URL is within a positive maximum
    length, its folder path contains an include substring when there are
    any, contains no exclude substring, and no pattern that compiles
    matches its URL.  Patterns that do not compile exclude nothing. *)
Theorem Filter_kept_iff `{go.Unicode} `{go.RegexpPkg}
    (R : list bookmark.Bookmark) (F : bookmark.FilterOptions)
    (b : bookmark.Bookmark) :
  b ∈ bookmark.FBookmarks (bookmark.Filter R F)
  ↔ b ∈ R
    ∧ (bookmark.extractProtocol (bookmark.URL b)
         ∉ (go.strings_ToLower <$> bookmark.ExcludeProtocols F))
    ∧ (0 < bookmark.MaxURLLength F →
       go.len_s (bookmark.URL b) ≤ bookmark.MaxURLLength F)
    ∧ (bookmark.IncludeFolders F ≠ [] →
       ∃ inc, inc ∈ bookmark.IncludeFolders F
              ∧ go.strings_Contains (loops.folder_of b) inc = true)
    ∧ (∀ exc, exc ∈ bookmark.ExcludeFolders F →
              go.strings_Contains (loops.folder_of b) exc = false)
    ∧ (∀ p re, p ∈ bookmark.ExcludeURLPatterns F →
               go.regexp_Compile p = Some re →
               go.MatchString re (bookmark.URL b) = false).
Proof.
  unfold bookmark.Filter. rewrite Filter_loop_kept. simpl.
  rewrite filter_bool_elem, negb_true_iff. by rewrite not_excluded_iff.
Qed.

(** ** The filter engine: warnings and repeated filtering *)

Section filter_more.
Import go bookmark loops.
Context `{Unicode} `{RegexpPkg}.

Lemma Filter_loop_warnings opts patterns excludeProtos bookmarks result :
  Warnings (fold_left (Filter_step opts patterns excludeProtos
                         (proto_map (WarnProtocols opts))) bookmarks result)
  = Warnings result
    ++ mjoin (record_warnings opts
                <$> List.filter
                      (λ b, negb (is_excluded opts patterns excludeProtos b))
                      bookmarks).
Proof.
  revert result. induction bookmarks as [|b bs IH]; intros result; simpl.
  - by rewrite app_nil_r.
  - rewrite IH. unfold Filter_step.
    destruct (is_excluded opts patterns excludeProtos b); simpl; [done|].
    unfold record_warnings. rewrite !app_assoc. f_equal.
    destruct (map_get _ _), (_ && _); simpl; by rewrite <- ?app_assoc, ?app_nil_r.
Qed.

(** The counter only depends on which records the rules exclude. *)
Lemma Filter_loop_excluded_ext opts opts' patterns patterns'
    excludeProtos excludeProtos' warnProtos warnProtos' bookmarks result result' :
  (∀ b, is_excluded opts patterns excludeProtos b
        = is_excluded opts' patterns' excludeProtos' b) →
  Excluded result = Excluded result' →
  Excluded (fold_left (Filter_step opts patterns excludeProtos warnProtos)
              bookmarks result)
  = Excluded (fold_left (Filter_step opts' patterns' excludeProtos' warnProtos')
                bookmarks result').
Proof.
  intros Hext. revert result result'.
  induction bookmarks as [|b bs IH]; intros result result' He; simpl; [done|].
  apply IH. unfold Filter_step. rewrite <- Hext.
  destruct (is_excluded opts patterns excludeProtos b); simpl; by rewrite ?He.
Qed.

Lemma Filter_loop_none_excluded opts patterns excludeProtos warnProtos
    bookmarks result :
  (∀ b, b ∈ bookmarks → is_excluded opts patterns excludeProtos b = false) →
  let result' :=
    fold_left (Filter_step opts patterns excludeProtos warnProtos)
      bookmarks result in
  FBookmarks result' = FBookmarks result ++ bookmarks
  ∧ Excluded result' = Excluded result.
Proof.
  revert result. induction bookmarks as [|b bs IH]; intros result Hall; simpl.
  - by rewrite app_nil_r.
  - destruct (IH (Filter_step opts patterns excludeProtos warnProtos result b))
      as [IH1 IH2].
    { intros b' Hb'. apply Hall. by right. }
    rewrite IH1, IH2. unfold Filter_step. rewrite (Hall b) by left.
    simpl. by rewrite <- app_assoc.
Qed.

Lemma record_warnings_length opts b : (length (record_warnings opts b) ≤ 2)%nat.
Proof.
  unfold record_warnings. destruct (map_get _ _), (_ && _); simpl; lia.
Qed.

Lemma mjoin_length_bound {A B} (f : A → list B) (l : list A) n :
  (∀ x, length (f x) ≤ n)%nat → (length (mjoin (f <$> l)) ≤ n * length l)%nat.
Proof.
  intros Hf. induction l as [|x l IH]; [simpl; lia|].
  rewrite fmap_cons. change (mjoin (f x :: (f <$> l))) with (f x ++ mjoin (f <$> l)).
  rewrite length_app. specialize (Hf x). simpl. nia.
Qed.
End filter_more.

(** X2. Warnings are advisory: changing the warning rules changes neither
    the kept records nor the exclusion counter.  The warnings are those of
    the kept records, in record order, at most two per kept record; an
    excluded record produces none. *)
Theorem Filter_warnings_advisory `{go.Unicode} `{go.RegexpPkg}
    (R : list bookmark.Bookmark) (F : bookmark.FilterOptions)
    (warnProtocols : list string) (warnURLLength : Z) :
  bookmark.FBookmarks
    (bookmark.Filter R (loops.with_warn_rules F warnProtocols warnURLLength))
  = bookmark.FBookmarks (bookmark.Filter R F)
  ∧ bookmark.Excluded
      (bookmark.Filter R (loops.with_warn_rules F warnProtocols warnURLLength))
    = bookmark.Excluded (bookmark.Filter R F)
  ∧ bookmark.Warnings (bookmark.Filter R F)
    = mjoin (loops.record_warnings F
               <$> bookmark.FBookmarks (bookmark.Filter R F))
  ∧ (length (bookmark.Warnings (bookmark.Filter R F))
     ≤ 2 * length (bookmark.FBookmarks (bookmark.Filter R F)))%nat.
Proof.
  assert (Hw : bookmark.Warnings (bookmark.Filter R F)
               = mjoin (loops.record_warnings F
                          <$> bookmark.FBookmarks (bookmark.Filter R F))).
  { unfold bookmark.Filter. by rewrite Filter_loop_warnings, Filter_loop_kept. }
  split; [|split; [|split]].
  - unfold bookmark.Filter. by rewrite !Filter_loop_kept.
  - unfold bookmark.Filter. by apply Filter_loop_excluded_ext.
  - exact Hw.
  - rewrite Hw. apply mjoin_length_bound, record_warnings_length.
Qed.

(** X3. Filtering is idempotent on the records: filtering the kept
    records again with the same rules keeps all of them and excludes
    none. *)
Theorem Filter_kept_refilter `{go.Unicode} `{go.RegexpPkg}
    (R : list bookmark.Bookmark) (F : bookmark.FilterOptions) :
  let kept := bookmark.FBookmarks (bookmark.Filter R F) in
  bookmark.FBookmarks (bookmark.Filter kept F) = kept
  ∧ bookmark.Excluded (bookmark.Filter kept F) = 0.
Proof.
  intros kept.
  assert (Hkept : ∀ b, b ∈ kept →
            bookmark.is_excluded F
              (bookmark.compile_patterns (bookmark.ExcludeURLPatterns F))
              (bookmark.proto_map (bookmark.ExcludeProtocols F)) b = false).
  { subst kept. unfold bookmark.Filter. rewrite Filter_loop_kept. simpl.
    intros b [_ Hb]%filter_bool_elem. by apply negb_true_iff. }
  unfold bookmark.Filter at 1 2.
  match goal with |- context [fold_left (bookmark.Filter_step _ ?p ?e ?w) kept ?r] =>
    destruct (Filter_loop_none_excluded F p e w kept r Hkept) as [H1 H2] end.
  by rewrite H1, H2.
Qed.

(** X4. A rule set without include or exclude folders and without
    excluded protocols, whose patterns all fail to compile and whose
    maximum length is zero or negative, keeps every record in order and
    excludes none. *)
Theorem Filter_without_rules `{go.Unicode} `{go.RegexpPkg}
    (R : list bookmark.Bookmark) (F : bookmark.FilterOptions) :
  bookmark.IncludeFolders F = [] → bookmark.ExcludeFolders F = [] →
  bookmark.ExcludeProtocols F = [] →
  (∀ p, p ∈ bookmark.ExcludeURLPatterns F → go.regexp_Compile p = None) →
  bookmark.MaxURLLength F ≤ 0 →
  bookmark.FBookmarks (bookmark.Filter R F) = R
  ∧ bookmark.Excluded (bookmark.Filter R F) = 0.
Proof.
  intros Hinc Hexc Hproto Hpat Hmax.
  assert (Hnone : ∀ b, b ∈ R →
            bookmark.is_excluded F
              (bookmark.compile_patterns (bookmark.ExcludeURLPatterns F))
              (bookmark.proto_map (bookmark.ExcludeProtocols F)) b = false).
  { intros b _. apply not_excluded_iff. rewrite Hinc, Hexc, Hproto.
    repeat split.
    - by intros ?%elem_of_nil.
    - lia.
    - done.
    - by intros exc ?%elem_of_nil.
    - intros p re Hp Hc. rewrite (Hpat p Hp) in Hc. discriminate. }
  unfold bookmark.Filter.
  match goal with |- context [fold_left (bookmark.Filter_step _ ?p ?e ?w) R ?r] =>
    destruct (Filter_loop_none_excluded F p e w R r Hnone) as [H1 H2] end.
  by rewrite H1, H2.
Qed.

Lemma Filter_without_rules_witness :
  let F := {| bookmark.IncludeFolders := []; bookmark.ExcludeFolders := [];
              bookmark.ExcludeURLPatterns := [];
              bookmark.ExcludeProtocols := [];
              bookmark.WarnProtocols := ["javascript"];
              bookmark.MaxURLLength := -1; bookmark.WarnURLLength := 5 |} in
  bookmark.FBookmarks
    (@bookmark.Filter fixtures.ascii_unicode fixtures.literal_regexp
       fixtures.three F) = fixtures.three
  ∧ bookmark.Excluded
      (@bookmark.Filter fixtures.ascii_unicode fixtures.literal_regexp
         fixtures.three F) = 0.
Proof.
  intros F.
  apply (@Filter_without_rules fixtures.ascii_unicode fixtures.literal_regexp
           fixtures.three F); try reflexivity.
  - intros p Hp. simpl in Hp. by apply elem_of_nil in Hp.
  - simpl. lia.
Defined.

(** ** Truncation of titles and URLs in warnings *)

Section truncate_facts.
Import go bookmark.

Lemma length_substring_0 n s :
  String.length (String.substring 0 n s) = Nat.min n (String.length s).
Proof.
  revert s. induction n as [|n IH]; intros [|c s]; simpl; try done.
  by rewrite IH.
Qed.

Lemma length_string_app (a b : string) :
  String.length (a +:+ b) = (String.length a + String.length b)%nat.
Proof. induction a as [|c a IH]; simpl; [done|]. by rewrite IH. Qed.

Lemma substring_0_prefix n s : strings_HasPrefix s (String.substring 0 n s) = true.
Proof.
  revert s. induction n as [|n IH]; intros [|c s]; simpl; try done.
  rewrite decide_True by done. apply IH.
Qed.

Lemma len_slice_to s n : 0 ≤ n ≤ len_s s → len_s (slice_to s n) = n.
Proof.
  unfold len_s, slice_to. intros Hn. rewrite length_substring_0. lia.
Qed.
End truncate_facts.

(** X5. For a limit [maxLen >= 0], [truncate] returns a string of at most
    [maxLen] bytes: the string itself when it fits, and otherwise a prefix
    of it, which for [maxLen > 3] is followed by three dots and fills the
    limit exactly. *)
Theorem truncate_within_limit (s : string) (maxLen : Z) :
  0 ≤ maxLen →
  go.len_s (bookmark.truncate s maxLen) ≤ maxLen
  ∧ (go.len_s s ≤ maxLen → bookmark.truncate s maxLen = s)
  ∧ (maxLen < go.len_s s → 3 < maxLen →
     go.len_s (bookmark.truncate s maxLen) = maxLen
     ∧ ∃ head, bookmark.truncate s maxLen = head +:+ "..."
               ∧ go.strings_HasPrefix s head = true)
  ∧ (maxLen < go.len_s s → maxLen ≤ 3 →
     go.len_s (bookmark.truncate s maxLen) = maxLen
     ∧ go.strings_HasPrefix s (bookmark.truncate s maxLen) = true).
Proof.
  intros Hmax. unfold bookmark.truncate.
  destruct (go.len_s s <=? maxLen) eqn:Hfit.
  - apply Z.leb_le in Hfit. repeat split; try done; lia.
  - apply Z.leb_gt in Hfit.
    destruct (maxLen <=? 3) eqn:Hsmall.
    + apply Z.leb_le in Hsmall.
      rewrite len_slice_to by lia.
      repeat split; try lia. unfold go.slice_to. apply substring_0_prefix.
    + apply Z.leb_gt in Hsmall.
      assert (Hlen : go.len_s (go.slice_to s (maxLen - 3) +:+ "...") = maxLen).
      { unfold go.len_s. rewrite length_string_app.
        pose proof (len_slice_to s (maxLen - 3)) as Hs. unfold go.len_s in *.
        simpl. lia. }
      rewrite Hlen. repeat split; try lia.
      eexists. split; [done|]. unfold go.slice_to. apply substring_0_prefix.
Qed.

Lemma truncate_within_limit_witness :
  go.len_s (bookmark.truncate "a rather long bookmark title" 8) ≤ 8
  ∧ (go.len_s "a rather long bookmark title" ≤ 8 →
     bookmark.truncate "a rather long bookmark title" 8
     = "a rather long bookmark title")
  ∧ (8 < go.len_s "a rather long bookmark title" → 3 < 8 →
     go.len_s (bookmark.truncate "a rather long bookmark title" 8) = 8
     ∧ ∃ head, bookmark.truncate "a rather long bookmark title" 8 = head +:+ "..."
               ∧ go.strings_HasPrefix "a rather long bookmark title" head = true)
  ∧ (8 < go.len_s "a rather long bookmark title" → 8 ≤ 3 →
     go.len_s (bookmark.truncate "a rather long bookmark title" 8) = 8
     ∧ go.strings_HasPrefix "a rather long bookmark title"
         (bookmark.truncate "a rather long bookmark title" 8) = true).
Proof. apply (truncate_within_limit "a rather long bookmark title" 8). lia. Defined.

(** ** Deduplication: the URLs kept, and its composition with the filter *)

Section dedup_more.
Import go bookmark loops.

Lemma dedup_from_urls seen bookmarks u :
  u ∈ URL <$> dedup_from seen bookmarks
  ↔ u ∈ URL <$> bookmarks ∧ map_get seen u = false.
Proof.
  revert seen. induction bookmarks as [|b bs IH]; intros seen; cbn [dedup_from].
  - rewrite fmap_nil, elem_of_nil. tauto.
  - rewrite (fmap_cons URL b bs), elem_of_cons.
    destruct (map_get seen (URL b)) eqn:Hb.
    + rewrite IH. split; [tauto|].
      intros [[->|?] Hu]; [congruence|done].
    + rewrite fmap_cons, elem_of_cons, IH, map_get_insert_true.
      case_decide as Hd.
      * subst u. split; [intros [?|[? ?]]; [tauto|done]|tauto].
      * split; [intros [?|[? ?]]; [done|tauto]|]. intros [[?|?] ?]; [done|tauto].
Qed.

(** Filtering after deduplicating keeps no more than deduplicating after
    filtering, for [seen] maps ordered the same way. *)
Lemma filter_dedup_from_sublist (p : Bookmark → bool) seen1 seen2 bookmarks :
  (∀ u, map_get seen1 u = true → map_get seen2 u = true) →
  List.filter p (dedup_from seen2 bookmarks)
  `sublist_of` dedup_from seen1 (List.filter p bookmarks).
Proof.
  revert seen1 seen2.
  induction bookmarks as [|b bs IH]; intros seen1 seen2 Hsub; simpl; [done|].
  assert (Hins : ∀ s1 s2 : gmap string bool,
            (∀ u, map_get s1 u = true → map_get s2 u = true) →
            ∀ u, map_get (<[URL b := true]> s1) u = true →
                 map_get (<[URL b := true]> s2) u = true).
  { intros s1 s2 Hs u. rewrite !map_get_insert_true. case_decide; auto. }
  destruct (p b) eqn:Hp; simpl.
  - destruct (map_get seen2 (URL b)) eqn:H2.
    + destruct (map_get seen1 (URL b)) eqn:H1; [by apply IH|].
      apply sublist_cons, IH. intros u. rewrite map_get_insert_true.
      case_decide; [by subst|auto].
    + destruct (map_get seen1 (URL b)) eqn:H1.
      { apply Hsub in H1. congruence. }
      simpl. rewrite Hp. apply sublist_skip, IH. by apply Hins.
  - destruct (map_get seen2 (URL b)) eqn:H2; [by apply IH|].
    simpl. rewrite Hp. apply IH. intros u Hu. rewrite map_get_insert_true.
    case_decide; auto.
Qed.

(** When the test looks at the URL only, the two orders agree. *)
Lemma filter_dedup_from_by_url (p : Bookmark → bool) (q : string → bool)
    seen1 seen2 bookmarks :
  (∀ b, p b = q (URL b)) →
  (∀ u, q u = true → map_get seen1 u = map_get seen2 u) →
  List.filter p (dedup_from seen2 bookmarks)
  = dedup_from seen1 (List.filter p bookmarks).
Proof.
  intros Hpq. revert seen1 seen2.
  induction bookmarks as [|b bs IH]; intros seen1 seen2 Hag; simpl; [done|].
  destruct (p b) eqn:Hp; simpl.
  - rewrite <- (Hag (URL b)) by (by rewrite <- Hpq).
    destruct (map_get seen1 (URL b)); [by apply IH|].
    simpl. rewrite Hp. f_equal. apply IH.
    intros u Hu. rewrite !map_get_insert_true. case_decide; auto.
  - assert (Hq : q (URL b) = false) by (by rewrite <- Hpq).
    destruct (map_get seen2 (URL b)); [by apply IH|].
    simpl. rewrite Hp. apply IH.
    intros u Hu. rewrite map_get_insert_true.
    case_decide; [subst; congruence|auto].
Qed.

(** Without folder rules the exclusion of a record depends on its URL
    only. *)
Lemma is_excluded_by_url `{Unicode} `{RegexpPkg} opts patterns excludeProtos :
  IncludeFolders opts = [] → ExcludeFolders opts = [] →
  ∀ b, negb (is_excluded opts patterns excludeProtos b)
       = negb (map_get excludeProtos (extractProtocol (URL b))
               || ((0 <? MaxURLLength opts) && (MaxURLLength opts <? len_s (URL b)))
               || existsb (λ p, MatchString p (URL b)) patterns).
Proof.
  intros Hinc Hexc b. rewrite is_excluded_any, Hinc, Hexc. simpl.
  by rewrite !orb_false_r.
Qed.
End dedup_more.

(** X6. [Deduplicate] keeps exactly the URLs of its input, never returns
    more records than it was given, and returns its input unchanged
    exactly when no URL is repeated in it. *)
Theorem Deduplicate_same_urls (R : list bookmark.Bookmark) :
  (∀ u, u ∈ bookmark.URL <$> bookmark.Deduplicate R ↔ u ∈ bookmark.URL <$> R)
  ∧ (length (bookmark.Deduplicate R) ≤ length R)%nat
  ∧ (bookmark.Deduplicate R = R ↔ NoDup (bookmark.URL <$> R)).
Proof.
  rewrite Deduplicate_dedup_from. split; [|split].
  - intros u. rewrite dedup_from_urls, map_get_empty. tauto.
  - apply sublist_length, dedup_from_sublist.
  - split.
    + intros <-. apply dedup_from_NoDup.
    + intros Hnd. apply dedup_from_fixed; [done|].
      intros b _. apply map_get_empty.
Qed.

(** X7. Filtering and deduplicating do not commute in general: filtering
    the deduplicated records gives a subsequence of deduplicating the
    filtered records, the order [runSync] uses.  The two agree when the
    rule set has no folder rules, where the exclusion of a record depends
    on its URL alone. *)
Theorem Filter_Deduplicate_order `{go.Unicode} `{go.RegexpPkg}
    (R : list bookmark.Bookmark) (F : bookmark.FilterOptions) :
  bookmark.FBookmarks (bookmark.Filter (bookmark.Deduplicate R) F)
    `sublist_of` bookmark.Deduplicate (bookmark.FBookmarks (bookmark.Filter R F))
  ∧ (bookmark.IncludeFolders F = [] → bookmark.ExcludeFolders F = [] →
     bookmark.FBookmarks (bookmark.Filter (bookmark.Deduplicate R) F)
     = bookmark.Deduplicate (bookmark.FBookmarks (bookmark.Filter R F))).
Proof.
  unfold bookmark.Filter. rewrite !Filter_loop_kept, !Deduplicate_dedup_from.
  simpl. split.
  - by apply filter_dedup_from_sublist.
  - intros Hinc Hexc.
    apply (filter_dedup_from_by_url _
             (λ u, negb (go.map_get
                           (bookmark.proto_map (bookmark.ExcludeProtocols F))
                           (bookmark.extractProtocol u)
                         || ((0 <? bookmark.MaxURLLength F)
                             && (bookmark.MaxURLLength F <? go.len_s u))
                         || existsb (λ p, go.MatchString p u)
                              (bookmark.compile_patterns
                                 (bookmark.ExcludeURLPatterns F))))); [|done].
    intros b. by apply is_excluded_by_url.
Qed.

Lemma Filter_Deduplicate_order_witness :
  bookmark.FBookmarks
    (@bookmark.Filter fixtures.ascii_unicode fixtures.literal_regexp
       (bookmark.Deduplicate fixtures.three) fixtures.no_javascript)
  = bookmark.Deduplicate
      (bookmark.FBookmarks
         (@bookmark.Filter fixtures.ascii_unicode fixtures.literal_regexp
            fixtures.three fixtures.no_javascript)).
Proof.
  destruct (@Filter_Deduplicate_order fixtures.ascii_unicode
              fixtures.literal_regexp fixtures.three fixtures.no_javascript)
    as [_ Heq].
  apply Heq; reflexivity.
Defined.

Example filter_then_dedup_keeps_more :
  let R := [fixtures.trashed "old" "http://a"; fixtures.mk "A" "http://a"] in
  bookmark.FBookmarks
    (@bookmark.Filter fixtures.ascii_unicode fixtures.literal_regexp
       (bookmark.Deduplicate R) fixtures.no_trash) = []
  ∧ bookmark.Deduplicate
      (bookmark.FBookmarks
         (@bookmark.Filter fixtures.ascii_unicode fixtures.literal_regexp
            R fixtures.no_trash))
    = [fixtures.mk "A" "http://a"].
Proof. vm_compute. done. Qed.

(** ** The registry: both tables, and the adapters listed *)

Section registry_more.
Import adapter loops.

Lemma register_inputs_snoc l a r :
  register_inputs (l ++ [a]) r = RegisterInput a (register_inputs l r).
Proof. unfold register_inputs. by rewrite fold_left_app. Qed.

(** The adapter found under a name is the one registered last under it. *)
Lemma register_inputs_lookup l r name :
  GetInput (register_inputs l r) name
  = match List.find (λ a, bool_decide (input.Name a = name)) (reverse l) with
    | Some a => Some a
    | None => GetInput r name
    end.
Proof.
  induction l as [|a l IH] using rev_ind; [done|].
  rewrite register_inputs_snoc, reverse_snoc. simpl.
  unfold GetInput, RegisterInput; simpl.
  case_bool_decide as Hn.
  - rewrite Hn. apply lookup_insert_eq.
  - rewrite lookup_insert_ne by done. apply IH.
Qed.

Lemma register_inputs_named l name a :
  GetInput (register_inputs l empty) name = Some a → input.Name a = name.
Proof.
  rewrite register_inputs_lookup.
  destruct (List.find _ _) as [a'|] eqn:Hf.
  - intros [= <-]. apply find_some in Hf as [_ Hn].
    by apply bool_decide_eq_true in Hn.
  - unfold GetInput, empty; simpl. by rewrite lookup_empty.
Qed.

Lemma AllInputs_elem r a :
  a ∈ AllInputs r ↔ ∃ name, GetInput r name = Some a.
Proof.
  unfold AllInputs, GetInput. rewrite list_elem_of_fmap. split.
  - intros ([k a'] & -> & Hin). exists k. by apply elem_of_map_to_list.
  - intros [k Hk]. exists (k, a). split; [done|]. by apply elem_of_map_to_list.
Qed.

Lemma AvailableInputs_loop l acc :
  fold_left (λ available a,
               if input.Available a then available ++ [a] else available) l acc
  = acc ++ List.filter input.Available l.
Proof.
  revert acc. induction l as [|a l IH]; intros acc; simpl.
  - by rewrite app_nil_r.
  - rewrite IH. destruct (input.Available a); [|done]. by rewrite <- app_assoc.
Qed.

Lemma AllInputs_names r :
  (∀ name a, GetInput r name = Some a → input.Name a = name) →
  input.Name <$> AllInputs r = range_keys (inputs r).
Proof.
  intros Hnamed. unfold AllInputs, range_keys.
  assert (Hall : Forall (λ ka, input.Name ka.2 = ka.1) (map_to_list (inputs r))).
  { apply Forall_forall. intros [k a] Hin. simpl. apply Hnamed.
    by apply elem_of_map_to_list. }
  induction Hall as [|[k a] l Hka Hall IH]; [done|].
  rewrite !fmap_cons. cbn [fst snd] in *. by rewrite Hka, IH.
Qed.
End registry_more.

(** X8. The renderer table behaves like the source table: the last
    [RegisterOutput] under a name wins, a lookup of a name never
    registered reports not found, and [ListOutputs] is sorted and lists
    exactly the registered names.  A registration leaves the lookups of
    all other names, and the whole other table, as they were. *)
Theorem registry_tables_independent :
  (∀ r A B, output.Name A = output.Name B →
     adapter.GetOutput (adapter.RegisterOutput B (adapter.RegisterOutput A r))
       (output.Name B) = Some B)
  ∧ (∀ r a name, output.Name a ≠ name →
       adapter.GetOutput (adapter.RegisterOutput a r) name
       = adapter.GetOutput r name)
  ∧ (∀ r a name, input.Name a ≠ name →
       adapter.GetInput (adapter.RegisterInput a r) name
       = adapter.GetInput r name)
  ∧ (∀ r a name,
       adapter.GetInput (adapter.RegisterOutput a r) name = adapter.GetInput r name
       ∧ adapter.ListInputs (adapter.RegisterOutput a r) = adapter.ListInputs r)
  ∧ (∀ r a name,
       adapter.GetOutput (adapter.RegisterInput a r) name = adapter.GetOutput r name
       ∧ adapter.ListOutputs (adapter.RegisterInput a r) = adapter.ListOutputs r)
  ∧ (∀ name, adapter.GetInput adapter.empty name = None
             ∧ adapter.GetOutput adapter.empty name = None)
  ∧ (∀ r, StronglySorted String.le (adapter.ListOutputs r)
          ∧ NoDup (adapter.ListOutputs r)
          ∧ ∀ name, name ∈ adapter.ListOutputs r
                    ↔ is_Some (adapter.GetOutput r name)).
Proof.
  split_and!.
  - intros r A B HAB. unfold adapter.GetOutput, adapter.RegisterOutput; simpl.
    apply lookup_insert_eq.
  - intros r a name Hne. unfold adapter.GetOutput, adapter.RegisterOutput; simpl.
    by apply lookup_insert_ne.
  - intros r a name Hne. unfold adapter.GetInput, adapter.RegisterInput; simpl.
    by apply lookup_insert_ne.
  - done.
  - done.
  - intros name. unfold adapter.GetInput, adapter.GetOutput, adapter.empty; simpl.
    by rewrite !lookup_empty.
  - intros r. split; [apply sort_Strings_sorted|].
    unfold adapter.ListOutputs, adapter.GetOutput. split.
    + rewrite sort_Strings_perm, range_keys_perm. apply NoDup_elements.
    + intros name.
      rewrite sort_Strings_perm, range_keys_perm, elem_of_elements.
      apply elem_of_dom.
Qed.

Lemma registry_tables_independent_witness :
  adapter.GetInput
    (adapter.RegisterInput (fixtures.reader "firefox" ([], None))
       fixtures.reg_two_sources) "chrome"
  = adapter.GetInput fixtures.reg_two_sources "chrome".
Proof.
  destruct registry_tables_independent as (_ & _ & Hother & _).
  apply Hother. discriminate.
Defined.

(** X9. After any sequence of registrations the adapter found under a
    name is the last one registered under it, or the one found before
    when the sequence has none.  Starting from the empty registry, every
    adapter is found under its own name, so the names of [AllInputs] are
    the names [ListInputs] lists, and [AvailableInputs] holds exactly the
    registered adapters that report themselves available. *)
Theorem registered_under_own_name (l : list input.Adapter) :
  (∀ r name,
     adapter.GetInput (loops.register_inputs l r) name
     = match List.find (λ a, bool_decide (input.Name a = name)) (reverse l) with
       | Some a => Some a
       | None => adapter.GetInput r name
       end)
  ∧ let r := loops.register_inputs l adapter.empty in
    (∀ name a, adapter.GetInput r name = Some a → input.Name a = name)
    ∧ input.Name <$> adapter.AllInputs r ≡ₚ adapter.ListInputs r
    ∧ (∀ a, a ∈ adapter.AllInputs r ↔ ∃ name, adapter.GetInput r name = Some a)
    ∧ (∀ a, a ∈ adapter.AvailableInputs r
            ↔ a ∈ adapter.AllInputs r ∧ input.Available a = true).
Proof.
  split; [intros r name; apply register_inputs_lookup|].
  intros r. split; [apply register_inputs_named|].
  split; [|split].
  - rewrite AllInputs_names by apply register_inputs_named.
    unfold adapter.ListInputs. by rewrite sort_Strings_perm.
  - apply AllInputs_elem.
  - intros a. unfold adapter.AvailableInputs.
    rewrite AvailableInputs_loop. simpl. apply filter_bool_elem.
Qed.

Lemma registered_under_own_name_witness :
  input.Name <$> adapter.AllInputs fixtures.reg_one_fails
  ≡ₚ adapter.ListInputs fixtures.reg_one_fails.
Proof.
  destruct (registered_under_own_name
              [fixtures.reader "chrome" (fixtures.chrome3, None);
               fixtures.reader "firefox" ([], Some "database is locked")])
    as (_ & _ & Hnames & _).
  exact Hnames.
Defined.

(** ** The single-source read path *)

Section single_source.
Import go bookmark loops.

Lemma effective_profile_nonempty cfg name profileFlag :
  effective_profile cfg name profileFlag ≠ "".
Proof. unfold effective_profile. repeat case_decide; done. Qed.

Lemma first_available_head reg cfg names :
  cmd.first_available reg cfg names = head (omap (usable reg cfg) names).
Proof.
  induction names as [|name names IH]; [done|].
  simpl. unfold usable at 1.
  destruct (adapter.GetInput reg name) as [inp|]; [|done].
  destruct (config.Enabled _); simpl; [|done].
  by destruct (input.Available inp).
Qed.

Lemma head_omap_Some {A B} (f : A → option B) (l : list A) y :
  head (omap f l) = Some y →
  ∃ pre x post, l = pre ++ x :: post ∧ f x = Some y
                ∧ ∀ z, z ∈ pre → f z = None.
Proof.
  induction l as [|x l IH]; [done|]. simpl.
  destruct (f x) as [y'|] eqn:Hx.
  - simpl. intros [= ->]. exists [], x, l. split; [done|]. split; [done|].
    by intros z ?%elem_of_nil.
  - intros (pre & x' & post & -> & Hx' & Hpre)%IH.
    exists (x :: pre), x', post. split; [done|]. split; [done|].
    intros z [->|?]%elem_of_cons; auto.
Qed.

Lemma head_omap_None {A B} (f : A → option B) (l : list A) :
  head (omap f l) = None → ∀ z, z ∈ l → f z = None.
Proof.
  induction l as [|x l IH]; [by intros _ z ?%elem_of_nil|]. simpl.
  destruct (f x) as [y'|] eqn:Hx; [done|].
  intros Hl z [->|?]%elem_of_cons; auto.
Qed.
End single_source.

(** X10. The preference scan of the single-source path returns the first
    source of the list that is registered, enabled in the configuration
    and available; it returns none exactly when the list has no such
    source. *)
Theorem first_available_is_first_usable reg cfg names :
  match cmd.first_available reg cfg names with
  | Some inp =>
      ∃ before name after,
        names = before ++ name :: after
        ∧ loops.usable reg cfg name = Some inp
        ∧ ∀ earlier, earlier ∈ before → loops.usable reg cfg earlier = None
  | None => ∀ name, name ∈ names → loops.usable reg cfg name = None
  end.
Proof.
  rewrite first_available_head.
  destruct (head _) as [inp|] eqn:Hh.
  - by apply head_omap_Some.
  - by apply head_omap_None.
Qed.

(** X11. The single-source read is all or nothing.  When
    [readPreferredInput] returns an error the collection is unchanged.
    When it returns none, the records of one source were appended with
    exactly one descriptor, also when the source returned no record; the
    source is the one named by the browser flag (whether or not it is
    enabled or available) or else the first usable one, and the profile it
    was configured with and labelled by is never empty. *)
Theorem single_source_read_all_or_nothing reg cfg browserFlag profileFlag c :
  let '(c', err) := cmd.readPreferredInput reg cfg browserFlag profileFlag c in
  match err with
  | Some _ => c' = c
  | None =>
      ∃ inp bookmarks,
        (if decide (browserFlag ≠ "")
         then adapter.GetInput reg browserFlag = Some inp
         else cmd.first_available reg cfg cmd.inputPreference = Some inp)
        ∧ let icfg := loops.single_config cfg (input.Name inp) profileFlag in
          input.Configure inp icfg = None
          ∧ input.Read inp icfg = (bookmarks, None)
          ∧ input.Profile icfg ≠ ""
          ∧ c' = {| bookmark.Bookmarks := bookmark.Bookmarks c ++ bookmarks;
                    bookmark.Sources :=
                      bookmark.Sources c
                      ++ [{| bookmark.Name := input.Name inp;
                             bookmark.SrcProfile := input.Profile icfg;
                             bookmark.Path := input.Path inp icfg;
                             bookmark.Count := go.len bookmarks |}] |}
  end.
Proof.
  unfold cmd.readPreferredInput.
  case_decide as Hb.
  - destruct (adapter.GetInput reg browserFlag) as [inp|] eqn:Hg; simpl; [|done].
    fold (loops.effective_profile cfg (input.Name inp) profileFlag).
    fold (loops.single_config cfg (input.Name inp) profileFlag).
    destruct (input.Configure inp _) as [e|] eqn:Hc; simpl; [done|].
    destruct (input.Read inp _) as [bookmarks [e|]] eqn:Hr; simpl; [done|].
    exists inp, bookmarks.
    split; [done|]. split; [done|]. split; [done|].
    split; [apply effective_profile_nonempty|done].
  - destruct (cmd.first_available reg cfg cmd.inputPreference) as [inp|] eqn:Hf;
      simpl; [|done].
    fold (loops.effective_profile cfg (input.Name inp) profileFlag).
    fold (loops.single_config cfg (input.Name inp) profileFlag).
    destruct (input.Configure inp _) as [e|] eqn:Hc; simpl; [done|].
    destruct (input.Read inp _) as [bookmarks [e|]] eqn:Hr; simpl; [done|].
    exists inp, bookmarks.
    split; [done|]. split; [done|]. split; [done|].
    split; [apply effective_profile_nonempty|done].
Qed.

(** ** The all-sources read path: structure of the collection and trace *)

Section all_sources.
Import go bookmark loops.

Lemma readAllInputs_step_contribution reg cfg c name :
  cmd.readAllInputs_step reg cfg c name
  = match contribution reg cfg name with
    | Some (d, bookmarks) =>
        {| Bookmarks := Bookmarks c ++ bookmarks; Sources := Sources c ++ [d] |}
    | None => c
    end.
Proof.
  rewrite readAllInputs_step_read. unfold contribution.
  destruct (successful_read reg cfg name) as [[inp bookmarks]|]; [|done].
  by destruct (0 <? len bookmarks).
Qed.

(** The collection of a pass: the blocks of the contributing sources, in
    iteration order, with one descriptor per block. *)
Lemma readAllInputs_loop_blocks reg cfg names c :
  fold_left (cmd.readAllInputs_step reg cfg) names c
  = {| Bookmarks := Bookmarks c ++ mjoin ((omap (contribution reg cfg) names).*2);
       Sources := Sources c ++ (omap (contribution reg cfg) names).*1 |}.
Proof.
  revert c. induction names as [|name names IH]; intros c.
  - simpl. rewrite !app_nil_r. by destruct c.
  - cbn [fold_left omap list_omap]. rewrite IH, readAllInputs_step_contribution.
    destruct (contribution reg cfg name) as [[d bookmarks]|]; [|done].
    simpl. by rewrite <- !app_assoc.
Qed.

Lemma contribution_facts reg cfg name d bookmarks :
  contribution reg cfg name = Some (d, bookmarks) →
  Name d = name ∧ Count d = len bookmarks ∧ 1 ≤ Count d
  ∧ (∃ b rest, bookmarks = b :: rest ∧ SrcProfile d = Profile b)
  ∧ config.Enabled (config.GetInputConfig cfg name) = true
  ∧ ∃ inp, adapter.GetInput reg name = Some inp ∧ input.Available inp = true
           ∧ input.Read inp
               (cmd.all_profiles_config (config.GetInputConfig cfg name))
             = (bookmarks, None)
           ∧ Path d = input.Path inp
                        (cmd.all_profiles_config (config.GetInputConfig cfg name)).
Proof.
  unfold contribution, successful_read.
  destruct (adapter.GetInput reg name) as [inp|]; [|done].
  destruct (config.Enabled _); [|done]. simpl.
  destruct (input.Available inp) eqn:Hav; [|done]. simpl.
  destruct (input.Configure inp _); [done|].
  destruct (input.Read inp _) as [bs [e|]] eqn:Hread; [done|].
  destruct (0 <? len bs) eqn:Hlen; [|done].
  intros [= <- <-]. simpl. apply Z.ltb_lt in Hlen.
  split_and!; try done; try lia.
  - destruct bs as [|b rest]; [done|]. by exists b, rest.
  - by exists inp.
Qed.

Lemma GetInputConfig_enabled_known cfg name :
  config.Enabled (config.GetInputConfig cfg name) = true →
  name ∈ cmd.inputPreference.
Proof.
  unfold config.GetInputConfig, cmd.inputPreference.
  repeat case_decide; subst; try done; intros _; compute_done.
Qed.

Lemma omap_names_sublist reg cfg names :
  Name <$> (omap (contribution reg cfg) names).*1 `sublist_of` names.
Proof.
  induction names as [|name names IH]; [done|].
  cbn [omap list_omap].
  destruct (contribution reg cfg name) as [[d bookmarks]|] eqn:Hc.
  - apply contribution_facts in Hc as (Hn & _).
    rewrite !fmap_cons. simpl. rewrite Hn. by apply sublist_skip.
  - by apply sublist_cons.
Qed.

Lemma blocks_at_least_one reg cfg names :
  (length (omap (contribution reg cfg) names).*1
   ≤ length (mjoin ((omap (contribution reg cfg) names).*2)))%nat.
Proof.
  induction names as [|name names IH]; [done|].
  cbn [omap list_omap].
  destruct (contribution reg cfg name) as [[d bookmarks]|] eqn:Hc; [|done].
  apply contribution_facts in Hc as (_ & Hcount & Hone & _).
  rewrite !fmap_cons. simpl. rewrite length_app.
  unfold len in *. lia.
Qed.

(** The trace of a pass of the server is the concatenation of the calls
    made for each name. *)
Lemma getBookmarks_step_calls reg cfg c cs name :
  snd (mcp.getBookmarks_step reg cfg (c, cs) name)
  = cs ++ source_calls reg cfg name.
Proof.
  unfold mcp.getBookmarks_step, source_calls.
  destruct (adapter.GetInput reg name) as [inp|]; simpl; [|by rewrite app_nil_r].
  destruct (negb (config.Enabled _)); simpl; [by rewrite app_nil_r|].
  destruct (negb (input.Available inp)); simpl; [done|].
  destruct (input.Configure inp _); simpl; [by rewrite <- app_assoc|].
  destruct (input.Read inp _) as [bookmarks [e|]]; simpl.
  - by rewrite <- !app_assoc.
  - destruct (0 <? len bookmarks); simpl; by rewrite <- !app_assoc.
Qed.

Lemma getBookmarks_loop_calls reg cfg names c cs :
  snd (fold_left (mcp.getBookmarks_step reg cfg) names (c, cs))
  = cs ++ mjoin (source_calls reg cfg <$> names).
Proof.
  revert c cs. induction names as [|name names IH]; intros c cs.
  - simpl. by rewrite app_nil_r.
  - cbn [fold_left].
    destruct (mcp.getBookmarks_step reg cfg (c, cs) name) as [c' cs'] eqn:Hstep.
    rewrite IH. rewrite fmap_cons.
    change (mjoin (?x :: ?l)) with (x ++ mjoin l).
    rewrite app_assoc. f_equal.
    by rewrite <- (getBookmarks_step_calls reg cfg c cs name), Hstep.
Qed.

Lemma source_calls_names reg cfg name call :
  call ∈ source_calls reg cfg name →
  call_name call = name
  ∧ config.Enabled (config.GetInputConfig cfg name) = true
  ∧ is_Some (adapter.GetInput reg name).
Proof.
  unfold source_calls.
  destruct (adapter.GetInput reg name) as [inp|]; [|by intros ?%elem_of_nil].
  destruct (config.Enabled _); simpl; [|by intros ?%elem_of_nil].
  intros Hin. split; [|by eauto].
  destruct (input.Available inp); simpl in Hin;
    [destruct (input.Configure inp _); simpl in Hin;
     [|destruct (input.Read inp _) as [bookmarks [e|]];
       [|destruct (0 <? len bookmarks)]]|];
    rewrite ?elem_of_cons, elem_of_nil in Hin; naive_solver.
Qed.

(** [Read] is invoked on a source exactly when it is registered, enabled,
    available and configured without error. *)
Lemma source_calls_read reg cfg name name' :
  input.CallRead name' ∈ source_calls reg cfg name
  ↔ name' = name
    ∧ ∃ inp, adapter.GetInput reg name = Some inp
             ∧ config.Enabled (config.GetInputConfig cfg name) = true
             ∧ input.Available inp = true
             ∧ input.Configure inp
                 (cmd.all_profiles_config (config.GetInputConfig cfg name)) = None.
Proof.
  unfold source_calls. split.
  - destruct (adapter.GetInput reg name) as [inp|] eqn:Hg;
      [|by intros ?%elem_of_nil].
    destruct (config.Enabled _) eqn:He; simpl; [|by intros ?%elem_of_nil].
    destruct (input.Available inp) eqn:Ha; simpl.
    2:{ rewrite elem_of_cons, elem_of_nil. naive_solver. }
    destruct (input.Configure inp _) eqn:Hc.
    { rewrite !elem_of_cons, elem_of_nil. naive_solver. }
    intros Hin. split; [|by exists inp].
    destruct (input.Read inp _) as [bookmarks [e|]];
      [|destruct (0 <? len bookmarks)];
      rewrite ?elem_of_cons, elem_of_nil in Hin; naive_solver.
  - intros (-> & inp & Hg & He & Ha & Hc). rewrite Hg, He, Ha, Hc. simpl.
    destruct (input.Read inp _) as [bookmarks [e|]];
      [|destruct (0 <? len bookmarks)];
      rewrite ?elem_of_cons, elem_of_nil; naive_solver.
Qed.
End all_sources.

Section all_sources_pass.
Import go bookmark loops.

(** What holds of the blocks of a pass over a list of distinct names. *)
Lemma pass_blocks reg cfg names :
  NoDup names →
  let blocks := omap (contribution reg cfg) names in
  fold_left (cmd.readAllInputs_step reg cfg) names NewCollection
  = {| Bookmarks := mjoin blocks.*2; Sources := blocks.*1 |}
  ∧ Forall (block_of_read reg cfg) blocks
  ∧ Name <$> blocks.*1 `sublist_of` names
  ∧ NoDup (Name <$> blocks.*1)
  ∧ (length blocks.*1 ≤ length (mjoin blocks.*2))%nat.
Proof.
  intros Hnd blocks. split_and!.
  - by rewrite readAllInputs_loop_blocks.
  - apply Forall_forall. intros [d bookmarks] Hin.
    apply list_elem_of_omap in Hin as (name & _ & Hc).
    apply contribution_facts
      in Hc as (<- & Hcount & Hone & Hfirst & _ & inp & Hg & _ & Hread & Hpath).
    unfold block_of_read. simpl. split_and!; try done. by exists inp.
  - apply omap_names_sublist.
  - eapply sublist_NoDup; [exact Hnd|apply omap_names_sublist].
  - apply blocks_at_least_one.
Qed.
End all_sources_pass.

(** X12. The collection built by the all-sources path is the
    concatenation of one block of records per contributing source, in
    iteration order (the preference order in the orchestrator, the sorted
    listing in the server), with one descriptor per block.  The block is
    what the [Read] of the source named by the descriptor returned,
    without error and with at least one record; the descriptor's count is
    the size of the block, its profile label is the [Profile] field of
    the first record of the block, its path is the adapter's; and no
    source name occurs twice.  Hence there are never more descriptors
    than bookmarks. *)
Theorem all_sources_blocks reg cfg :
  let from_read (block : bookmark.SourceInfo * list bookmark.Bookmark) :=
    bookmark.Count block.1 = go.len block.2
    ∧ 1 ≤ bookmark.Count block.1
    ∧ (∃ b rest, block.2 = b :: rest
                 ∧ bookmark.SrcProfile block.1 = bookmark.Profile b)
    ∧ (∃ inp,
         let icfg :=
           cmd.all_profiles_config
             (config.GetInputConfig cfg (bookmark.Name block.1)) in
         adapter.GetInput reg (bookmark.Name block.1) = Some inp
         ∧ input.Read inp icfg = (block.2, None)
         ∧ bookmark.Path block.1 = input.Path inp icfg) in
  (let blocks := omap (loops.contribution reg cfg) cmd.inputPreference in
   (cmd.readAllInputs reg cfg bookmark.NewCollection).1
   = {| bookmark.Bookmarks := mjoin blocks.*2; bookmark.Sources := blocks.*1 |}
   ∧ Forall from_read blocks
   ∧ bookmark.Name <$> blocks.*1 `sublist_of` cmd.inputPreference
   ∧ NoDup (bookmark.Name <$> blocks.*1)
   ∧ (length blocks.*1 ≤ length (mjoin blocks.*2))%nat)
  ∧ (let blocks := omap (loops.contribution reg cfg) (adapter.ListInputs reg) in
     (mcp.read_all reg cfg).1
     = {| bookmark.Bookmarks := mjoin blocks.*2; bookmark.Sources := blocks.*1 |}
     ∧ Forall from_read blocks
     ∧ bookmark.Name <$> blocks.*1 `sublist_of` adapter.ListInputs reg
     ∧ NoDup (bookmark.Name <$> blocks.*1)
     ∧ (length blocks.*1 ≤ length (mjoin blocks.*2))%nat).
Proof.
  intros from_read. split.
  - apply (pass_blocks reg cfg cmd.inputPreference), inputPreference_NoDup.
  - rewrite read_all_collection.
    apply (pass_blocks reg cfg (adapter.ListInputs reg)), ListInputs_NoDup.
Qed.

(** X13. During a pass of the server over the sources, adapter methods are
    invoked only on sources that are registered and enabled in the
    configuration, so never on a source whose name the configuration does
    not know.  [Read] is invoked on a source exactly when it is
    registered, enabled, available and configured without error, and every
    [Configure] call asks for all profiles. *)
Theorem all_sources_trace reg cfg :
  let trace := (mcp.read_all reg cfg).2 in
  trace = mjoin (loops.source_calls reg cfg <$> adapter.ListInputs reg)
  ∧ (∀ call, call ∈ trace →
       is_Some (adapter.GetInput reg (loops.call_name call))
       ∧ config.Enabled (config.GetInputConfig cfg (loops.call_name call)) = true
       ∧ loops.call_name call ∈ cmd.inputPreference)
  ∧ (∀ name, input.CallRead name ∈ trace
             ↔ ∃ inp, adapter.GetInput reg name = Some inp
                      ∧ config.Enabled (config.GetInputConfig cfg name) = true
                      ∧ input.Available inp = true
                      ∧ input.Configure inp
                          (cmd.all_profiles_config
                             (config.GetInputConfig cfg name)) = None)
  ∧ (∀ name icfg, input.CallConfigure name icfg ∈ trace →
       input.Profile icfg = "" ∧ input.Enabled icfg = true).
Proof.
  intros trace.
  assert (Htrace : trace
            = mjoin (loops.source_calls reg cfg <$> adapter.ListInputs reg)).
  { subst trace. unfold mcp.read_all. by rewrite getBookmarks_loop_calls. }
  split; [done|]. rewrite Htrace. split_and!.
  - intros call (cs & Hcall & (name & -> & Hname)%list_elem_of_fmap)%list_elem_of_join.
    apply source_calls_names in Hcall as (-> & He & Hg).
    split; [done|]. split; [done|]. by apply (GetInputConfig_enabled_known cfg).
  - intros name. rewrite list_elem_of_join. split.
    + intros (cs & Hcall & (name' & -> & Hname)%list_elem_of_fmap).
      apply source_calls_read in Hcall as (-> & Hinp). exact Hinp.
    + intros (inp & Hg & Hrest).
      exists (loops.source_calls reg cfg name). split.
      * apply source_calls_read. split; [done|]. by exists inp.
      * apply list_elem_of_fmap. exists name. split; [done|].
        apply ListInputs_elem. by rewrite Hg.
  - intros name icfg
      (cs & Hcall & (name' & -> & Hname)%list_elem_of_fmap)%list_elem_of_join.
    unfold loops.source_calls in Hcall.
    destruct (adapter.GetInput reg name') as [inp|]; [|by apply elem_of_nil in Hcall].
    destruct (negb _); [by apply elem_of_nil in Hcall|].
    destruct (negb _);
      [|destruct (input.Configure inp _);
        [|destruct (input.Read inp _) as [bookmarks [e|]];
          [|destruct (0 <? go.len bookmarks)]]];
      rewrite ?elem_of_cons, elem_of_nil in Hcall; naive_solver.
Qed.

(** ** [runSync]: what a successful run returns and why a run fails *)

Section runSync_facts.
Import go bookmark loops.
Context `{Unicode} `{RegexpPkg}.

Lemma filteredCollection_facts cfg flags c :
  let fc := cmd.filteredCollection_of cfg flags c in
  Sources fc = Sources c
  ∧ Bookmarks fc `sublist_of` Bookmarks c
  ∧ (config.Deduplicate (config.Transform (config.Pipeline cfg)) = true →
     NoDup (URL <$> Bookmarks fc))
  ∧ (∀ b, b ∈ Bookmarks fc →
          b ∈ FBookmarks (Filter (Bookmarks c) (cmd.filterOpts_of cfg flags))).
Proof.
  unfold cmd.filteredCollection_of. simpl.
  destruct (config.Deduplicate _); split_and!; try done.
  - etrans; [|apply Filter_sublist].
    rewrite Deduplicate_dedup_from. apply dedup_from_sublist.
  - intros _. rewrite Deduplicate_dedup_from. apply dedup_from_NoDup.
  - intros b. rewrite Deduplicate_dedup_from.
    intros Hb. eapply elem_of_sublist; [exact Hb|apply dedup_from_sublist].
  - apply Filter_sublist.
Qed.

End runSync_facts.

Section runSync_paths.
Import go bookmark loops.
Context `{Unicode} `{RegexpPkg} `{config.OS} `{cmd.Env}.

(** The profile listing never fails. *)
Lemma runSync_list now reg flags :
  cmd.list_flag flags = true →
  cmd.runSync now reg flags = inr (cmd.Listed (cmd.runListProfiles reg).1).
Proof. intros Hl. unfold cmd.runSync. by rewrite Hl. Qed.

Lemma runSync_unfold now reg flags :
  cmd.list_flag flags = false →
  cmd.runSync now reg flags
  = match (cmd.loadConfig (cmd.cfgFile flags)).2 with
    | Some err => inl ("loading config: " +:+ err)
    | None =>
        let cfg :=
          cmd.applyFlagOverrides flags (cmd.loadConfig (cmd.cfgFile flags)).1 in
        match runSync_read reg cfg flags with
        | (_, Some err) => inl err
        | (c, None) => after_read now reg cfg flags c
        end
    end.
Proof.
  intros Hl. unfold cmd.runSync, runSync_read, after_read. rewrite Hl.
  destruct (cmd.loadConfig (cmd.cfgFile flags)) as [cfg0 [lerr|]]; [done|].
  simpl.
  destruct (if cmd.all flags then _ else _) as [c [e|]]; [done|].
  destruct (Collection_Count c =? 0); [done|].
  destruct (adapter.GetOutput reg (cmd.format flags)) as [out|]; [|done].
  by destruct (output.Render out now _ _) as [data [e|]].
Qed.

Lemma Collection_Count_zero c :
  (Collection_Count c =? 0) = true ↔ Bookmarks c = [].
Proof.
  unfold Collection_Count, len. rewrite Z.eqb_eq.
  destruct (Bookmarks c); simpl; split; (done || lia).
Qed.

(** Why the part after the read succeeds. *)
Lemma after_read_inr now reg cfg flags c outcome :
  after_read now reg cfg flags c = inr outcome →
  Bookmarks c ≠ []
  ∧ ∃ out data,
      adapter.GetOutput reg (cmd.format flags) = Some out
      ∧ output.Render out now (cmd.filteredCollection_of cfg flags c)
          (cmd.renderOpts_of cfg flags) = (data, None)
      ∧ if decide (cmd.output_flag flags = "" ∨ cmd.output_flag flags = "-")
        then outcome = cmd.Printed (cmd.filteredCollection_of cfg flags c) data
        else outcome = cmd.Written (cmd.filteredCollection_of cfg flags c)
                         (cmd.output_flag flags) data
             ∧ cmd.os_MkdirAll (cmd.filepath_Dir (cmd.output_flag flags)) = None
             ∧ cmd.os_WriteFile (cmd.output_flag flags) data = None.
Proof.
  unfold after_read.
  destruct (Collection_Count c =? 0) eqn:Hcount; [done|].
  assert (Hne : Bookmarks c ≠ []).
  { intros Hnil%Collection_Count_zero. by rewrite Hnil in Hcount. }
  destruct (adapter.GetOutput reg (cmd.format flags)) as [out|]; [|done].
  destruct (output.Render out now _ _) as [data [e|]] eqn:Hr; [done|].
  intros Hrun. split; [done|]. exists out, data. split; [done|]. split; [done|].
  case_decide; [by injection Hrun as <-|].
  destruct (cmd.os_MkdirAll _); [done|].
  destruct (cmd.os_WriteFile _ _); [done|].
  by injection Hrun as <-.
Qed.

(** Why the part after the read fails. *)
Lemma after_read_inl now reg cfg flags c e :
  after_read now reg cfg flags c = inl e →
  (Bookmarks c = [] ∧ e = "no bookmarks found")
  ∨ (Bookmarks c ≠ []
     ∧ adapter.GetOutput reg (cmd.format flags) = None
     ∧ e = "unknown output format: " +:+ cmd.format flags
             +:+ " (available: ["
             +:+ strings_Join (adapter.ListOutputs reg) " " +:+ "])")
  ∨ (Bookmarks c ≠ []
     ∧ ∃ out data,
         adapter.GetOutput reg (cmd.format flags) = Some out
         ∧ ((∃ rerr,
               output.Render out now (cmd.filteredCollection_of cfg flags c)
                 (cmd.renderOpts_of cfg flags) = (data, Some rerr)
               ∧ e = "rendering output: " +:+ rerr)
            ∨ (output.Render out now (cmd.filteredCollection_of cfg flags c)
                 (cmd.renderOpts_of cfg flags) = (data, None)
               ∧ cmd.output_flag flags ≠ "" ∧ cmd.output_flag flags ≠ "-"
               ∧ ((∃ derr,
                     cmd.os_MkdirAll (cmd.filepath_Dir (cmd.output_flag flags))
                     = Some derr
                     ∧ e = "creating output directory: " +:+ derr)
                  ∨ (cmd.os_MkdirAll (cmd.filepath_Dir (cmd.output_flag flags))
                     = None
                     ∧ ∃ werr,
                         cmd.os_WriteFile (cmd.output_flag flags) data
                         = Some werr
                         ∧ e = "writing output: " +:+ werr))))).
Proof.
  unfold after_read.
  destruct (Collection_Count c =? 0) eqn:Hcount.
  { intros [= <-]. left. by apply Collection_Count_zero in Hcount. }
  assert (Hne : Bookmarks c ≠ []).
  { intros Hnil%Collection_Count_zero. by rewrite Hnil in Hcount. }
  destruct (adapter.GetOutput reg (cmd.format flags)) as [out|].
  2:{ intros [= <-]. right; left. done. }
  destruct (output.Render out now _ _) as [data [rerr|]] eqn:Hr.
  { intros [= <-]. right; right. split; [done|]. exists out, data.
    split; [done|]. left. by exists rerr. }
  case_decide as Hout; [done|].
  destruct (cmd.os_MkdirAll _) as [derr|] eqn:Hdir.
  { intros [= <-]. right; right. split; [done|]. exists out, data.
    split; [done|]. right. split_and!; [done|naive_solver..|].
    left. by exists derr. }
  destruct (cmd.os_WriteFile _ _) as [werr|] eqn:Hwrite; [|done].
  intros [= <-]. right; right. split; [done|]. exists out, data.
  split; [done|]. right. split_and!; [done|naive_solver..|].
  right. split; [done|]. by exists werr.
Qed.
End runSync_paths.

(** X14. With the [list] flag [runSync] succeeds with the profile listing
    only: no configuration is loaded and no source is read.  Without it,
    when [runSync] succeeds, the configuration was loaded and at least one
    record was read without error; the collection it renders carries the
    descriptors of the collection read and a subsequence of its
    bookmarks, each of which passes the filter, with no URL repeated when
    deduplication is on; the bytes are what the renderer registered under
    the requested format returned for that collection; and they were
    printed when the output flag is empty or ["-"], and otherwise written
    to that path after its directory was made. *)
Theorem runSync_success
    `{go.Unicode} `{go.RegexpPkg} `{config.OS} `{cmd.Env}
    now reg flags outcome :
  cmd.runSync now reg flags = inr outcome →
  if cmd.list_flag flags
  then outcome = cmd.Listed (cmd.runListProfiles reg).1
  else
    ∃ cfg0 c out filteredCollection data,
      let cfg := cmd.applyFlagOverrides flags cfg0 in
      cmd.loadConfig (cmd.cfgFile flags) = (cfg0, None)
      ∧ (if cmd.all flags
         then cmd.readAllInputs reg cfg bookmark.NewCollection
         else cmd.readPreferredInput reg cfg (cmd.browser flags)
                (cmd.profile flags) bookmark.NewCollection) = (c, None)
      ∧ bookmark.Bookmarks c ≠ []
      ∧ bookmark.Sources filteredCollection = bookmark.Sources c
      ∧ bookmark.Bookmarks filteredCollection `sublist_of` bookmark.Bookmarks c
      ∧ (config.Deduplicate (config.Transform (config.Pipeline cfg)) = true →
         NoDup (bookmark.URL <$> bookmark.Bookmarks filteredCollection))
      ∧ (∀ b, b ∈ bookmark.Bookmarks filteredCollection →
              b ∈ bookmark.FBookmarks
                    (bookmark.Filter (bookmark.Bookmarks c)
                       (cmd.filterOpts_of cfg flags)))
      ∧ adapter.GetOutput reg (cmd.format flags) = Some out
      ∧ output.Render out now filteredCollection (cmd.renderOpts_of cfg flags)
        = (data, None)
      ∧ if decide (cmd.output_flag flags = "" ∨ cmd.output_flag flags = "-")
        then outcome = cmd.Printed filteredCollection data
        else outcome = cmd.Written filteredCollection (cmd.output_flag flags) data
             ∧ cmd.os_MkdirAll (cmd.filepath_Dir (cmd.output_flag flags)) = None
             ∧ cmd.os_WriteFile (cmd.output_flag flags) data = None.
Proof.
  destruct (cmd.list_flag flags) eqn:Hl.
  { rewrite runSync_list by done. by intros [= <-]. }
  rewrite runSync_unfold by done.
  destruct (cmd.loadConfig (cmd.cfgFile flags)) as [cfg0 [lerr|]] eqn:Hload;
    [done|]. simpl.
  destruct (loops.runSync_read _ _ _) as [c [e|]] eqn:Hread; [done|].
  intros (Hne & out & data & Hout & Hrender & Hput)%after_read_inr.
  exists cfg0, c, out,
    (cmd.filteredCollection_of (cmd.applyFlagOverrides flags cfg0) flags c), data.
  destruct (filteredCollection_facts (cmd.applyFlagOverrides flags cfg0) flags c)
    as (Hs & Hsub & Hnd & Hkept).
  unfold loops.runSync_read in Hread. simpl. split_and!; done.
Qed.

Lemma runSync_success_witness :
  ∃ cfg0 c out filteredCollection data,
    @cmd.loadConfig fixtures.no_config_file "" = (cfg0, None)
    ∧ cmd.readAllInputs fixtures.reg_two_sources
        (cmd.applyFlagOverrides fixtures.flags_all cfg0) bookmark.NewCollection
      = (c, None)
    ∧ bookmark.Bookmarks c ≠ []
    ∧ bookmark.Sources filteredCollection = bookmark.Sources c
    ∧ adapter.GetOutput fixtures.reg_two_sources (cmd.format fixtures.flags_all)
      = Some out
    ∧ output.Render out 0 filteredCollection
        (cmd.renderOpts_of (cmd.applyFlagOverrides fixtures.flags_all cfg0)
           fixtures.flags_all)
      = (data, None).
Proof.
  destruct (@runSync_success fixtures.ascii_unicode fixtures.literal_regexp
              fixtures.no_config_file fixtures.writable_fs 0
              fixtures.reg_two_sources fixtures.flags_all
              (cmd.Printed
                 (cmd.filteredCollection_of (H := fixtures.ascii_unicode)
                    (H0 := fixtures.literal_regexp) config.Default
                    fixtures.flags_all
                    (cmd.readAllInputs fixtures.reg_two_sources config.Default
                       bookmark.NewCollection).1)
                 "https://github.com https://go.dev/doc https://news.example"))
    as (cfg0 & c & out & fc & data & Hload & Hread & Hne & Hs & _ & _ & _
        & Hout & Hrender & _).
  - vm_compute. reflexivity.
  - exists cfg0, c, out, fc, data. split_and!; done.
Defined.

(** The profile listing of a machine with Chrome and Firefox. *)
Example runSync_list_example :
  @cmd.runSync fixtures.ascii_unicode fixtures.literal_regexp
    fixtures.bad_config_file fixtures.read_only_fs 0 fixtures.reg_seven
    fixtures.flags_list
  = inr (cmd.Listed
           (fixtures.lines
              ["Available browser profiles:"; "";
               "  chrome (available)"; "    Path: /profiles/chrome";
               "    Profiles:"; "      - Default (default)"; "      - Work"; "";
               "  firefox (available)"; "    Path: /profiles/firefox";
               "    Profiles:"; "      - Default (default)"; "      - Work"; "";
               "  edge (not available)"; "    Path: "; "";
               "  safari (not available)"; "    Path: "; "";
               "  chromium (not available)"; "    Path: "; "";
               "  brave (not available)"; "    Path: "; ""])).
Proof. vm_compute. reflexivity. Qed.

(** X15. In all-sources mode, without the [list] flag, [runSync] never
    fails because of a source.  It fails with "no bookmarks found"
    exactly when the configuration was loaded and no record was read,
    before any filtering, so a run whose records are all filtered out
    does not fail with it.  Its other failures are: the configuration
    cannot be loaded; the output format is not registered; the renderer
    returns an error; and, when the output goes to a file, the directory
    cannot be made or the file cannot be written. *)
Theorem runSync_all_mode_failures
    `{go.Unicode} `{go.RegexpPkg} `{config.OS} `{cmd.Env}
    now reg flags :
  cmd.list_flag flags = false → cmd.all flags = true →
  let cfg :=
    cmd.applyFlagOverrides flags (cmd.loadConfig (cmd.cfgFile flags)).1 in
  let c := (cmd.readAllInputs reg cfg bookmark.NewCollection).1 in
  let filteredCollection := cmd.filteredCollection_of cfg flags c in
  let outPath := cmd.output_flag flags in
  (cmd.runSync now reg flags = inl "no bookmarks found"
   ↔ (cmd.loadConfig (cmd.cfgFile flags)).2 = None ∧ bookmark.Bookmarks c = [])
  ∧ ∀ e, cmd.runSync now reg flags = inl e →
         (∃ lerr, (cmd.loadConfig (cmd.cfgFile flags)).2 = Some lerr
                  ∧ e = "loading config: " +:+ lerr)
         ∨ ((cmd.loadConfig (cmd.cfgFile flags)).2 = None
            ∧ ((bookmark.Bookmarks c = [] ∧ e = "no bookmarks found")
               ∨ (bookmark.Bookmarks c ≠ []
                  ∧ adapter.GetOutput reg (cmd.format flags) = None
                  ∧ e = "unknown output format: " +:+ cmd.format flags
                          +:+ " (available: ["
                          +:+ go.strings_Join (adapter.ListOutputs reg) " "
                          +:+ "])")
               ∨ (bookmark.Bookmarks c ≠ []
                  ∧ ∃ out data,
                      adapter.GetOutput reg (cmd.format flags) = Some out
                      ∧ ((∃ rerr,
                            output.Render out now filteredCollection
                              (cmd.renderOpts_of cfg flags) = (data, Some rerr)
                            ∧ e = "rendering output: " +:+ rerr)
                         ∨ (output.Render out now filteredCollection
                              (cmd.renderOpts_of cfg flags) = (data, None)
                            ∧ outPath ≠ "" ∧ outPath ≠ "-"
                            ∧ ((∃ derr,
                                  cmd.os_MkdirAll (cmd.filepath_Dir outPath)
                                  = Some derr
                                  ∧ e = "creating output directory: " +:+ derr)
                               ∨ (cmd.os_MkdirAll (cmd.filepath_Dir outPath)
                                  = None
                                  ∧ ∃ werr,
                                      cmd.os_WriteFile outPath data = Some werr
                                      ∧ e = "writing output: " +:+ werr))))))).
Proof.
  intros Hl Hall cfg c filteredCollection outPath.
  assert (Hread : loops.runSync_read reg cfg flags = (c, None)).
  { unfold loops.runSync_read. by rewrite Hall. }
  rewrite runSync_unfold by done. fold cfg. simpl. rewrite Hread.
  destruct ((cmd.loadConfig (cmd.cfgFile flags)).2) as [lerr|] eqn:Hload.
  { split.
    - split; [|by intros [? _]].
      intros [=].
    - intros e [= <-]. left. by exists lerr. }
  split.
  - split.
    + intros Hrun. split; [done|].
      apply after_read_inl in Hrun
        as [[Hnil _]|[(_ & _ & He)|(_ & out & data & _ & He)]];
        [done|exfalso..].
      * discriminate He.
      * destruct He
          as [(rerr & _ & He)
             |(_ & _ & _ & [(derr & _ & He)|(_ & werr & _ & He)])];
          discriminate He.
    + intros [_ Hnil]. unfold loops.after_read.
      by rewrite (proj2 (Collection_Count_zero c) Hnil).
  - intros e He. right. split; [done|].
    by apply after_read_inl in He.
Qed.

Lemma runSync_all_mode_failures_witness :
  @cmd.runSync fixtures.ascii_unicode fixtures.literal_regexp
    fixtures.no_config_file fixtures.writable_fs 0 fixtures.reg_empty_read
    fixtures.flags_all
  = inl "no bookmarks found"
  ↔ (@cmd.loadConfig fixtures.no_config_file "").2 = None
    ∧ bookmark.Bookmarks
        (cmd.readAllInputs fixtures.reg_empty_read
           (cmd.applyFlagOverrides fixtures.flags_all
              (@cmd.loadConfig fixtures.no_config_file "").1)
           bookmark.NewCollection).1 = [].
Proof.
  destruct (@runSync_all_mode_failures fixtures.ascii_unicode
              fixtures.literal_regexp fixtures.no_config_file
              fixtures.writable_fs 0
              fixtures.reg_empty_read fixtures.flags_all)
    as [Hiff _]; [reflexivity..|].
  exact Hiff.
Defined.

(** A configuration file that is not a YAML document stops the run
    before any source is read. *)
Example runSync_config_failure :
  @cmd.runSync fixtures.ascii_unicode fixtures.literal_regexp
    fixtures.bad_config_file fixtures.writable_fs 0 fixtures.reg_two_sources
    fixtures.flags_all
  = inl "loading config: yaml: did not find expected node".
Proof. vm_compute. reflexivity. Qed.

(** A run whose bytes cannot be written fails after the sources were
    read and the collection rendered. *)
Example runSync_write_failure :
  @cmd.runSync fixtures.ascii_unicode fixtures.literal_regexp
    fixtures.no_config_file fixtures.read_only_fs 0 fixtures.reg_two_sources
    fixtures.flags_to_file
  = inl "creating output directory: read-only file system".
Proof. vm_compute. reflexivity. Qed.

(** ** The protocol server: responses, errors and state *)

Section server_more.
Import go bookmark loops.
Context `{mcp.JSONPkg}.

Lemma getBookmarks_state w s uri :
  ∃ c s', mcp.getBookmarks w s uri = (c, None, s')
          ∧ mcp.cache s' = Some c ∧ mcp.config s' = mcp.config s
          ∧ mcp.calls s `prefix_of` mcp.calls s'
          ∧ (is_Some (mcp.cache s) → s' = s).
Proof.
  destruct (mcp.cache s) as [c|] eqn:Hc.
  - exists c, s. rewrite (getBookmarks_cached _ _ _ c) by done. by split_and!.
  - eexists _, _. rewrite getBookmarks_miss by done.
    split; [done|]. split; [done|]. split; [done|].
    split; [simpl; by apply prefix_app_r|]. by intros [? ?].
Qed.

(** The ways a request can be answered. *)
Lemma handleRequest_outcome w req s :
  let '(r, s') := mcp.handleRequest w req s in
  (∃ res, r = mcp.okResponse (mcp.ID req) res)
  ∨ (r = mcp.errorResponse (mcp.ID req) (-32601) "Method not found"
     ∧ s' = s ∧ mcp.Method req ∉ known_methods)
  ∨ (∃ msg, r = mcp.errorResponse (mcp.ID req) (-32602) msg ∧ s' = s
            ∧ (mcp.Method req = "resources/read" ∨ mcp.Method req = "tools/call"))
  ∨ (∃ msg, r = mcp.errorResponse (mcp.ID req) (-32000) msg
            ∧ mcp.Method req = "resources/read" ∧ is_Some (mcp.cache s')).
Proof.
  unfold mcp.handleRequest.
  case_decide as H1; [left; by eexists|].
  case_decide as H2.
  { unfold mcp.handleResourcesList.
    destruct (fold_left _ _ _) as [resources cs]. left; by eexists. }
  case_decide as H3.
  { unfold mcp.handleResourcesRead.
    destruct (mcp.Unmarshal_uri _) as [uri|].
    2:{ right; right; left. eexists. by split_and!; [|done|left]. }
    destruct (getBookmarks_state w s uri) as (c & s' & -> & Hc & _).
    destruct (adapter.GetOutput _ _) as [outAdapter|].
    2:{ right; right; right. eexists. split_and!; [done..|by rewrite Hc]. }
    destruct (output.Render _ _ _ _) as [data [err|]].
    - right; right; right. eexists. split_and!; [done..|by rewrite Hc].
    - left; by eexists. }
  case_decide as H4; [left; by eexists|].
  case_decide as H5.
  { unfold mcp.handleToolsCall.
    destruct (mcp.Unmarshal_call _) as [[name arguments]|].
    2:{ right; right; left. eexists. by split_and!; [|done|right]. }
    case_decide.
    { unfold mcp.toolSyncBookmarks.
      destruct (getBookmarks_state w (mcp.set_cache s None) "favs://all")
        as (c & s' & -> & _). left; by eexists. }
    case_decide.
    { unfold mcp.toolSearchBookmarks.
      destruct (mcp.Unmarshal_query _) as [query|].
      2:{ right; right; left. eexists. by split_and!; [|done|right]. }
      destruct (getBookmarks_state w s "favs://all") as (c & s' & -> & _).
      left; by eexists. }
    right; right; left. eexists. by split_and!; [|done|right]. }
  right; left. split_and!; try done.
  unfold known_methods. rewrite !elem_of_cons, elem_of_nil. naive_solver.
Qed.

(** What a request does to the server. *)
Lemma handleRequest_state w req s :
  let s' := (mcp.handleRequest w req s).2 in
  mcp.config s' = mcp.config s
  ∧ mcp.calls s `prefix_of` mcp.calls s'
  ∧ (is_Some (mcp.cache s) → is_Some (mcp.cache s')).
Proof.
  unfold mcp.handleRequest.
  case_decide as H1; [done|].
  case_decide as H2.
  { unfold mcp.handleResourcesList.
    destruct (fold_left _ _ _) as [resources cs]. simpl.
    split_and!; [done|by apply prefix_app_r|done]. }
  case_decide as H3.
  { unfold mcp.handleResourcesRead.
    destruct (mcp.Unmarshal_uri _) as [uri|]; [|done].
    destruct (getBookmarks_state w s uri) as (c & s' & -> & Hc & Hcfg & Hcalls & _).
    assert (is_Some (mcp.cache s')) by (by rewrite Hc).
    destruct (adapter.GetOutput _ _) as [outAdapter|]; [|done].
    by destruct (output.Render _ _ _ _) as [data [err|]]. }
  case_decide as H4; [done|].
  case_decide as H5; [|done].
  unfold mcp.handleToolsCall.
  destruct (mcp.Unmarshal_call _) as [[name arguments]|]; [|done].
  case_decide.
  { unfold mcp.toolSyncBookmarks.
    destruct (getBookmarks_state w (mcp.set_cache s None) "favs://all")
      as (c & s' & -> & Hc & Hcfg & Hcalls & _).
    simpl. split_and!; [done|done|by rewrite Hc]. }
  case_decide; [|done].
  unfold mcp.toolSearchBookmarks.
  destruct (mcp.Unmarshal_query _) as [query|]; [|done].
  destruct (getBookmarks_state w s "favs://all")
    as (c & s' & -> & Hc & Hcfg & Hcalls & _).
  simpl. split_and!; [done|done|by rewrite Hc].
Qed.

Lemma response_shape id (r : mcp.Response) :
  (∃ res, r = mcp.okResponse id res)
  ∨ (∃ code msg, r = mcp.errorResponse id code msg) →
  mcp.RJSONRPC r = "2.0" ∧ mcp.RID r = id
  ∧ (is_Some (mcp.Result r) ↔ mcp.Err r = None).
Proof.
  intros [[res ->]|(code & msg & ->)]; simpl; split_and!; try done;
    by intros [? ?].
Qed.

Lemma handleRequest_shape w req s :
  let r := (mcp.handleRequest w req s).1 in
  mcp.RJSONRPC r = "2.0" ∧ mcp.RID r = mcp.ID req
  ∧ (is_Some (mcp.Result r) ↔ mcp.Err r = None).
Proof.
  pose proof (handleRequest_outcome w req s) as Ho.
  destruct (mcp.handleRequest w req s) as [r s']. simpl.
  apply response_shape. naive_solver.
Qed.
End server_more.

Section server_run.
Import go bookmark loops.
Context `{mcp.JSONPkg}.

Lemma Run_cons_decoded s w req frames :
  mcp.Run s ((w, mcp.Decoded req) :: frames)
  = ((mcp.handleRequest w req s).1
       :: (mcp.Run (mcp.handleRequest w req s).2 frames).1,
     (mcp.Run (mcp.handleRequest w req s).2 frames).2).
Proof.
  simpl. destruct (mcp.handleRequest w req s) as [resp s1]. simpl.
  by destruct (mcp.Run s1 frames).
Qed.

Lemma cancelled_after (frames : list (mcp.World * mcp.Frame)) :
  existsb mcp.is_cancelled frames = true
  ↔ ∃ w, (w, mcp.Cancelled) ∈ frames.
Proof.
  rewrite existsb_exists. split.
  - intros ([w f] & Hin & Hc). exists w. apply list_elem_of_In.
    unfold mcp.is_cancelled in Hc. simpl in Hc. by destruct f.
  - intros [w Hin]. exists (w, mcp.Cancelled).
    split; [by apply list_elem_of_In|done].
Qed.

Lemma resources_step_eq reg resources cs name :
  mcp.resources_step reg (resources, cs) name
  = (resources ++ option_list (source_resource reg name),
     cs ++ resource_calls reg name).
Proof.
  unfold mcp.resources_step, source_resource, resource_calls.
  destruct (adapter.GetInput reg name) as [inp|]; simpl.
  - destruct (input.Available inp); simpl.
    + by rewrite <- app_assoc.
    + by rewrite app_nil_r.
  - by rewrite !app_nil_r.
Qed.

Lemma resources_loop reg names resources cs :
  fold_left (mcp.resources_step reg) names (resources, cs)
  = (resources ++ omap (source_resource reg) names,
     cs ++ mjoin (resource_calls reg <$> names)).
Proof.
  revert resources cs. induction names as [|name names IH]; intros resources cs.
  - simpl. by rewrite !app_nil_r.
  - cbn [fold_left]. rewrite resources_step_eq, IH.
    rewrite fmap_cons. change (mjoin (?x :: ?l)) with (x ++ mjoin l).
    cbn [omap list_omap].
    destruct (source_resource reg name); simpl; by rewrite <- !app_assoc.
Qed.

Lemma resource_calls_query reg names :
  forallb is_query_call (mjoin (resource_calls reg <$> names)) = true.
Proof.
  induction names as [|name names IH]; [done|].
  rewrite fmap_cons. change (mjoin (?x :: ?l)) with (x ++ mjoin l).
  rewrite forallb_app, IH, andb_true_r. unfold resource_calls.
  destruct (adapter.GetInput reg name) as [inp|]; [|done].
  by destruct (input.Available inp).
Qed.
End server_run.

(** X16. [Run] answers the requests it reads in order, each with exactly
    one response, and skips a complete JSON value that is not a request.
    When no frame is invalid JSON and the context is not cancelled, the
    identifiers of the responses are the identifiers of the decoded
    requests and [Run] returns [nil] at the end of input.  At the first
    invalid frame or cancellation the run stops reading: the responses
    and the server are those of the turns before it, whatever follows,
    and [Run] does not return [nil]: it returns the error of the context
    once that is cancelled, and after an invalid frame never returns
    before.  Every response carries version "2.0" and either a result or
    an error, never both and never neither. *)
Theorem Run_one_response_per_request `{mcp.JSONPkg}
    (s : mcp.Server) (frames : list (mcp.World * mcp.Frame)) :
  let reads_on (wf : mcp.World * mcp.Frame) :=
    wf.2 ≠ mcp.Invalid ∧ wf.2 ≠ mcp.Cancelled in
  (Forall reads_on frames →
   mcp.RID <$> (mcp.Run s frames).1
   = omap (λ wf, match wf.2 with
                 | mcp.Decoded req => Some (mcp.ID req)
                 | _ => None
                 end) frames
   ∧ mcp.Run_end frames = mcp.ReturnsNil)
  ∧ (∀ before w after,
       frames = before ++ (w, mcp.Invalid) :: after →
       Forall reads_on before →
       mcp.Run s frames = mcp.Run s before
       ∧ ((∃ w', (w', mcp.Cancelled) ∈ after) →
          mcp.Run_end frames = mcp.ReturnsCtxErr)
       ∧ ((∀ w', (w', mcp.Cancelled) ∉ after) →
          mcp.Run_end frames = mcp.NeverReturns))
  ∧ (∀ before w after,
       frames = before ++ (w, mcp.Cancelled) :: after →
       Forall reads_on before →
       mcp.Run s frames = mcp.Run s before
       ∧ mcp.Run_end frames = mcp.ReturnsCtxErr)
  ∧ Forall (λ r, mcp.RJSONRPC r = "2.0"
                 ∧ (is_Some (mcp.Result r) ↔ mcp.Err r = None))
      (mcp.Run s frames).1.
Proof.
  intros reads_on. split_and!.
  - intros Hvalid. revert s.
    induction Hvalid as [|[w f] frames [Hf1 Hf2] Hvalid IH]; intros s; [done|].
    destruct f as [|req| |]; [apply IH| |done..].
    rewrite Run_cons_decoded. cbn [omap list_omap snd fst mcp.Run_end].
    destruct (IH (mcp.handleRequest w req s).2) as [IH1 IH2].
    destruct (handleRequest_shape w req s) as (_ & Hid & _).
    split; [|done]. rewrite fmap_cons. simpl. by rewrite Hid, IH1.
  - intros before w after -> Hvalid. revert s.
    induction Hvalid as [|[w' f] before [Hf1 Hf2] Hvalid IH]; intros s.
    + split; [done|]. cbn [app mcp.Run_end].
      destruct (existsb mcp.is_cancelled after) eqn:He.
      * split; [done|]. apply cancelled_after in He as [w' Hin].
        intros Hnone. by destruct (Hnone w').
      * split; [|done]. intros Hsome%cancelled_after. congruence.
    + destruct f as [|req| |]; [apply IH| |done..].
      rewrite <- app_comm_cons, !Run_cons_decoded. cbn [mcp.Run_end].
      destruct (IH (mcp.handleRequest w' req s).2) as (-> & IH2 & IH3). done.
  - intros before w after -> Hvalid. revert s.
    induction Hvalid as [|[w' f] before [Hf1 Hf2] Hvalid IH]; intros s; [done|].
    destruct f as [|req| |]; [apply IH| |done..].
    rewrite <- app_comm_cons, !Run_cons_decoded. cbn [mcp.Run_end].
    destruct (IH (mcp.handleRequest w' req s).2) as [-> ->]. done.
  - revert s. induction frames as [|[w [|req| |]] frames IH]; intros s.
    + constructor.
    + apply IH.
    + rewrite Run_cons_decoded. cbn [fst].
      destruct (handleRequest_shape w req s) as (Hv & _ & Hone).
      constructor; [done|apply IH].
    + constructor.
    + constructor.
Qed.

(** A frame that is not JSON ends the answering: the [initialize] that
    follows it gets no response, where after a JSON value of the wrong
    shape it is answered. *)
Example Run_after_invalid_frame :
  (mcp.Run (mcp.NewServer config.Default)
     [(fixtures.world_two, mcp.Invalid);
      (fixtures.world_two,
       mcp.Decoded (@mcp.Build_Request fixtures.test_json "2.0" 1%nat
                      "initialize" fixtures.MsgOther))]).1 = []
  ∧ mcp.RID
      <$> (mcp.Run (mcp.NewServer config.Default)
             [(fixtures.world_two, mcp.Malformed);
              (fixtures.world_two,
               mcp.Decoded (@mcp.Build_Request fixtures.test_json "2.0" 1%nat
                              "initialize" fixtures.MsgOther))]).1 = [1%nat].
Proof. split; reflexivity. Qed.

(** X17. An error response carries one of three codes, each for its own
    reason.  [-32601] answers exactly the requests whose method is none
    of the five known ones.  [-32602] answers a [resources/read] whose
    parameters do not decode, a [tools/call] whose parameters do not
    decode or name an unknown tool, and a search whose arguments do not
    decode.  Both leave the server as it was.  [-32000] only answers a
    [resources/read] with decodable parameters whose renderer is missing
    or returns an error for the cached collection, which by then is
    populated; a tool call never fails with it.  Conversely each of these
    conditions gives that error response. *)
Theorem error_responses `{mcp.JSONPkg} w req s :
  let resp := (mcp.handleRequest w req s).1 in
  let s' := (mcp.handleRequest w req s).2 in
  let format_of (uri : string) :=
    if decide (uri = "favs://markdown") then "markdown" else "json" in
  (∀ e, mcp.Err resp = Some e →
        (mcp.Code e = -32601 ∧ mcp.Message e = "Method not found"
         ∧ (mcp.Method req ∉ loops.known_methods) ∧ s' = s)
        ∨ (mcp.Code e = -32602 ∧ s' = s
           ∧ ((mcp.Method req = "resources/read"
               ∧ mcp.Unmarshal_uri (mcp.Params req) = None
               ∧ mcp.Message e = "Invalid params")
              ∨ (mcp.Method req = "tools/call"
                 ∧ match mcp.Unmarshal_call (mcp.Params req) with
                   | None => mcp.Message e = "Invalid params"
                   | Some (name, arguments) =>
                       (name = "search_bookmarks"
                        ∧ mcp.Unmarshal_query arguments = None
                        ∧ mcp.Message e = "Invalid search arguments")
                       ∨ (name ≠ "sync_bookmarks" ∧ name ≠ "search_bookmarks"
                          ∧ mcp.Message e = "Unknown tool")
                   end)))
        ∨ (mcp.Code e = -32000 ∧ mcp.Method req = "resources/read"
           ∧ ∃ uri c,
               mcp.Unmarshal_uri (mcp.Params req) = Some uri
               ∧ mcp.cache s' = Some c
               ∧ match adapter.GetOutput (mcp.registry w) (format_of uri) with
                 | None => mcp.Message e = "Output adapter not found"
                 | Some out =>
                     (output.Render out (mcp.now w) c
                        output.DefaultRenderOptions).2 = Some (mcp.Message e)
                 end))
  ∧ (mcp.Method req ∉ loops.known_methods →
     mcp.handleRequest w req s
     = (mcp.errorResponse (mcp.ID req) (-32601) "Method not found", s))
  ∧ (mcp.Method req = "resources/read" →
     mcp.Unmarshal_uri (mcp.Params req) = None →
     mcp.handleRequest w req s
     = (mcp.errorResponse (mcp.ID req) (-32602) "Invalid params", s))
  ∧ (mcp.Method req = "tools/call" →
     mcp.Unmarshal_call (mcp.Params req) = None →
     mcp.handleRequest w req s
     = (mcp.errorResponse (mcp.ID req) (-32602) "Invalid params", s))
  ∧ (∀ name arguments,
       mcp.Method req = "tools/call" →
       mcp.Unmarshal_call (mcp.Params req) = Some (name, arguments) →
       (name ≠ "sync_bookmarks" → name ≠ "search_bookmarks" →
        mcp.handleRequest w req s
        = (mcp.errorResponse (mcp.ID req) (-32602) "Unknown tool", s))
       ∧ (name = "search_bookmarks" → mcp.Unmarshal_query arguments = None →
          mcp.handleRequest w req s
          = (mcp.errorResponse (mcp.ID req) (-32602) "Invalid search arguments",
             s)))
  ∧ (∀ uri c,
       mcp.Method req = "resources/read" →
       mcp.Unmarshal_uri (mcp.Params req) = Some uri →
       mcp.cache s' = Some c →
       match adapter.GetOutput (mcp.registry w) (format_of uri) with
       | None =>
           resp = mcp.errorResponse (mcp.ID req) (-32000)
                    "Output adapter not found"
       | Some out =>
           ∀ err,
             (output.Render out (mcp.now w) c output.DefaultRenderOptions).2
             = Some err →
             resp = mcp.errorResponse (mcp.ID req) (-32000) err
       end).
Proof.
  intros resp s' format_of. subst resp s'.
  assert (Hknown : mcp.Method req ∉ loops.known_methods
                   ↔ mcp.Method req ≠ "initialize"
                     ∧ mcp.Method req ≠ "resources/list"
                     ∧ mcp.Method req ≠ "resources/read"
                     ∧ mcp.Method req ≠ "tools/list"
                     ∧ mcp.Method req ≠ "tools/call").
  { unfold loops.known_methods. rewrite !elem_of_cons, elem_of_nil. naive_solver. }
  split_and!.
  - intros e. unfold mcp.handleRequest.
    case_decide as H1; [done|].
    case_decide as H2.
    { unfold mcp.handleResourcesList.
      by destruct (fold_left _ _ _) as [resources cs]. }
    case_decide as H3.
    { unfold mcp.handleResourcesRead.
      destruct (mcp.Unmarshal_uri _) as [uri|] eqn:Huri.
      2:{ intros [= <-]. right; left. simpl. split_and!; try done. by left. }
      destruct (getBookmarks_state w s uri) as (c & s' & -> & Hc & _).
      fold (format_of uri).
      destruct (adapter.GetOutput _ (format_of uri)) as [outAdapter|] eqn:Hout.
      2:{ intros [= <-]. right; right. simpl. split_and!; try done.
          exists uri, c. by rewrite Hout. }
      destruct (output.Render _ _ _ _) as [data [err|]] eqn:Hrender; [|done].
      intros [= <-]. right; right. simpl. split_and!; try done.
      exists uri, c. rewrite Hout, Hrender. done. }
    case_decide as H4; [done|].
    case_decide as H5.
    { unfold mcp.handleToolsCall.
      destruct (mcp.Unmarshal_call _) as [[name arguments]|] eqn:Hcall.
      2:{ intros [= <-]. right; left. simpl. split_and!; try done. by right. }
      case_decide as Hsync.
      { unfold mcp.toolSyncBookmarks.
        by destruct (getBookmarks_state w (mcp.set_cache s None) "favs://all")
          as (c & s' & -> & _). }
      case_decide as Hsearch.
      { unfold mcp.toolSearchBookmarks.
        destruct (mcp.Unmarshal_query _) as [query|] eqn:Hquery.
        - by destruct (getBookmarks_state w s "favs://all") as (c & s' & -> & _).
        - intros [= <-]. right; left. simpl. split_and!; try done.
          right. split; [done|]. by left. }
      intros [= <-]. right; left. simpl. split_and!; try done.
      right. split; [done|]. by right. }
    intros [= <-]. left. simpl. split_and!; try done. by apply Hknown.
  - intros (? & ? & ? & ? & ?)%Hknown. unfold mcp.handleRequest.
    by repeat case_decide.
  - intros Hm Huri. unfold mcp.handleRequest. rewrite Hm.
    repeat (case_decide; [done|]). case_decide; [|done].
    unfold mcp.handleResourcesRead. by rewrite Huri.
  - intros Hm Hcall. unfold mcp.handleRequest. rewrite Hm.
    repeat (case_decide; [done|]). case_decide; [|done].
    unfold mcp.handleToolsCall. by rewrite Hcall.
  - intros name arguments Hm Hcall.
    assert (Hh : mcp.handleRequest w req s = mcp.handleToolsCall w req s).
    { unfold mcp.handleRequest. rewrite Hm.
      by repeat case_decide. }
    rewrite Hh. unfold mcp.handleToolsCall. rewrite Hcall. split.
    + intros Hsync Hsearch. by repeat case_decide.
    + intros -> Hquery. case_decide; [done|]. case_decide; [|done].
      unfold mcp.toolSearchBookmarks. by rewrite Hquery.
  - intros uri c Hm Huri.
    assert (Hh : mcp.handleRequest w req s = mcp.handleResourcesRead w req s).
    { unfold mcp.handleRequest. rewrite Hm.
      by repeat case_decide. }
    rewrite Hh. unfold mcp.handleResourcesRead. rewrite Huri.
    destruct (getBookmarks_state w s uri) as (c' & s' & -> & Hc & _).
    fold (format_of uri).
    destruct (adapter.GetOutput _ (format_of uri)) as [outAdapter|] eqn:Hout.
    + destruct (output.Render outAdapter _ c' _) as [data [err|]] eqn:Hrender;
        simpl; rewrite Hc; intros [= <-] err'; rewrite Hrender; simpl;
        by intros [= <-].
    + done.
Qed.

Lemma error_responses_witness :
  mcp.handleRequest fixtures.world_two
    (@mcp.Build_Request fixtures.test_json "2.0" 9%nat "prompts/list"
       fixtures.MsgOther)
    (mcp.NewServer config.Default)
  = (@mcp.errorResponse fixtures.test_json 9%nat (-32601) "Method not found",
     mcp.NewServer config.Default).
Proof.
  destruct (@error_responses fixtures.test_json fixtures.world_two
              (@mcp.Build_Request fixtures.test_json "2.0" 9%nat "prompts/list"
                 fixtures.MsgOther)
              (mcp.NewServer config.Default)) as (_ & Hunknown & _).
  apply Hunknown. compute_done.
Defined.

(** X18. Over any run of the server the configuration never changes, the
    trace of adapter calls only grows, and a cache that is populated stays
    populated: no request, the resync included, leaves the cache empty. *)
Theorem Run_state_monotone `{mcp.JSONPkg}
    (s : mcp.Server) (frames : list (mcp.World * mcp.Frame)) :
  let s' := (mcp.Run s frames).2 in
  mcp.config s' = mcp.config s
  ∧ mcp.calls s `prefix_of` mcp.calls s'
  ∧ (is_Some (mcp.cache s) → is_Some (mcp.cache s')).
Proof.
  revert s. induction frames as [|[w [|req| |]] frames IH]; intros s.
  - done.
  - apply IH.
  - rewrite Run_cons_decoded. cbn [snd].
    destruct (IH (mcp.handleRequest w req s).2) as (IH1 & IH2 & IH3).
    destruct (handleRequest_state w req s) as (H1 & H2 & H3).
    split_and!.
    + by rewrite IH1.
    + by etrans.
    + auto.
  - done.
  - done.
Qed.

Lemma Run_state_monotone_witness :
  is_Some
    (mcp.cache
       (mcp.Run (fixtures.cached_server bookmark.NewCollection)
          [(fixtures.world_two, mcp.Decoded (fixtures.resync_request 1))]).2).
Proof.
  destruct (@Run_state_monotone fixtures.test_json
              (fixtures.cached_server bookmark.NewCollection)
              [(fixtures.world_two, mcp.Decoded (fixtures.resync_request 1))])
    as (_ & _ & Hcache).
  apply Hcache. by eexists.
Defined.

(** X19. [initialize] and [tools/list] have no side effect and their
    answer depends on the request only.  [resources/list] leaves the cache
    as it is, populated or empty, and only asks adapters whether they are
    available and for their display name: it never configures or reads a
    source.  Its answer lists the two fixed resources followed by one
    resource per registered source that is available, in sorted name
    order, whether or not the source is enabled in the configuration. *)
Theorem listing_requests `{mcp.JSONPkg} w req s :
  (mcp.Method req = "initialize" ∨ mcp.Method req = "tools/list" →
   ∀ w' s', mcp.handleRequest w req s = ((mcp.handleRequest w' req s').1, s))
  ∧ (mcp.Method req = "resources/list" →
     (mcp.handleRequest w req s).1
     = mcp.okResponse (mcp.ID req)
         (mcp.ResResources
            (loops.fixed_resources
               ++ omap (loops.source_resource (mcp.registry w))
                    (adapter.ListInputs (mcp.registry w))))
     ∧ mcp.cache (mcp.handleRequest w req s).2 = mcp.cache s
     ∧ mcp.calls (mcp.handleRequest w req s).2
       = mcp.calls s
         ++ mjoin (loops.resource_calls (mcp.registry w)
                     <$> adapter.ListInputs (mcp.registry w))
     ∧ forallb loops.is_query_call
         (mjoin (loops.resource_calls (mcp.registry w)
                   <$> adapter.ListInputs (mcp.registry w))) = true).
Proof.
  split.
  - intros [Hm|Hm] w' s'; unfold mcp.handleRequest; rewrite Hm; done.
  - intros Hm. unfold mcp.handleRequest. rewrite Hm. simpl.
    unfold mcp.handleResourcesList.
    pose proof (resources_loop (mcp.registry w)
                  (adapter.ListInputs (mcp.registry w))
                  loops.fixed_resources []) as Hloop.
    unfold loops.fixed_resources in Hloop at 1. rewrite Hloop. simpl.
    split_and!; [done..|]. apply resource_calls_query.
Qed.

Lemma listing_requests_witness :
  mcp.cache
    (mcp.handleRequest fixtures.world_two
       (@mcp.Build_Request fixtures.test_json "2.0" 4%nat "resources/list"
          fixtures.MsgOther)
       (mcp.NewServer config.Default)).2 = None.
Proof.
  destruct (@listing_requests fixtures.test_json fixtures.world_two
              (@mcp.Build_Request fixtures.test_json "2.0" 4%nat "resources/list"
                 fixtures.MsgOther)
              (mcp.NewServer config.Default)) as [_ Hlist].
  destruct Hlist as (_ & Hcache & _); [reflexivity|]. exact Hcache.
Defined.

(** X20. The resync tool never fails.  Whatever the cache held, its answer
    reports the number of bookmarks and of descriptors of a fresh pass
    over the sources; the descriptor counts of that pass add up to the
    number of bookmarks, and there are never more sources than
    bookmarks. *)
Theorem resync_reports_fresh_pass `{mcp.JSONPkg} w req s :
  loops.is_resync req = true →
  let pass := (mcp.read_all (mcp.registry w) (mcp.config s)).1 in
  (mcp.handleRequest w req s).1
  = mcp.okResponse (mcp.ID req)
      (mcp.ResContent
         ("Synced " +:+ go.itoa (go.len (bookmark.Bookmarks pass))
            +:+ " bookmarks from " +:+ go.itoa (go.len (bookmark.Sources pass))
            +:+ " sources"))
  ∧ loops.sum_counts (bookmark.Sources pass) = go.len (bookmark.Bookmarks pass)
  ∧ go.len (bookmark.Sources pass) ≤ go.len (bookmark.Bookmarks pass).
Proof.
  intros Hr pass. split_and!.
  - rewrite (handleRequest_resync w req s Hr). unfold mcp.toolSyncBookmarks.
    by rewrite getBookmarks_miss.
  - subst pass. rewrite read_all_collection.
    apply counts_match_loop, counts_match_new.
  - subst pass. rewrite read_all_collection, readAllInputs_loop_blocks. simpl.
    unfold go.len. apply inj_le, blocks_at_least_one.
Qed.

Lemma resync_reports_fresh_pass_witness :
  (mcp.handleRequest fixtures.world_two (fixtures.resync_request 5)
     (fixtures.cached_server bookmark.NewCollection)).1
  = @mcp.okResponse fixtures.test_json 5%nat
      (mcp.ResContent "Synced 4 bookmarks from 2 sources").
Proof.
  destruct (@resync_reports_fresh_pass fixtures.test_json fixtures.world_two
              (fixtures.resync_request 5)
              (fixtures.cached_server bookmark.NewCollection))
    as [Hresp _]; [reflexivity|].
  rewrite Hresp. vm_compute. reflexivity.
Defined.

(** ** The search tool: what the substring test accepts *)

Section search_semantics.
Import go bookmark loops.

Lemma length_ascii_ToLower s : String.length (ascii_ToLower s) = String.length s.
Proof. induction s as [|c s IH]; simpl; [done|]. by rewrite IH. Qed.

Lemma ascii_ToLower_app a b :
  ascii_ToLower (a +:+ b) = ascii_ToLower a +:+ ascii_ToLower b.
Proof. induction a as [|c a IH]; simpl; [done|]. by rewrite IH. Qed.

Lemma forallb_seq_S (f : nat → bool) k n :
  forallb f (seq (S k) n) = forallb (λ i, f (S i)) (seq k n).
Proof.
  revert k. induction n as [|n IH]; intros k; simpl; [done|]. by rewrite IH.
Qed.

(** The folding loop compares the strings byte by byte. *)
Lemma equalIgnoreCase_cons c a d b :
  mcp.equalIgnoreCase (String c a) (String d b)
  = bool_decide (ascii_lower c = ascii_lower d) && mcp.equalIgnoreCase a b.
Proof.
  unfold mcp.equalIgnoreCase, len_s. simpl String.length.
  replace (Z.of_nat (S (String.length a)) =? Z.of_nat (S (String.length b)))
    with (Z.of_nat (String.length a) =? Z.of_nat (String.length b)).
  2:{ destruct (Z.eqb_spec (Z.of_nat (String.length a)) (Z.of_nat (String.length b)));
        symmetry; [apply Z.eqb_eq|apply Z.eqb_neq]; lia. }
  destruct (Z.of_nat (String.length a) =? Z.of_nat (String.length b)); simpl.
  - by rewrite forallb_seq_S.
  - by rewrite andb_false_r.
Qed.

Lemma equalIgnoreCase_lower a b :
  mcp.equalIgnoreCase a b = true ↔ ascii_ToLower a = ascii_ToLower b.
Proof.
  revert b. induction a as [|c a IH]; intros [|d b].
  - done.
  - done.
  - done.
  - rewrite equalIgnoreCase_cons, andb_true_iff, bool_decide_eq_true, IH. simpl.
    split; [by intros [-> ->]|]. by intros [= -> ->].
Qed.

Lemma substring_skip pre i n s :
  String.substring (String.length pre + i) n (pre +:+ s) = String.substring i n s.
Proof. induction pre as [|c pre IH]; simpl; [done|]. apply IH. Qed.

Lemma substring_0_app mid post :
  String.substring 0 (String.length mid) (mid +:+ post) = mid.
Proof.
  induction mid as [|c mid IH]; simpl; [by destruct post|]. by rewrite IH.
Qed.

Lemma string_app_cons c a b : String c a +:+ b = String c (a +:+ b).
Proof. reflexivity. Qed.

Lemma string_app_nil_r s : s +:+ "" = s.
Proof. induction s as [|c s IH]; [done|]. by rewrite string_app_cons, IH. Qed.

Lemma substring_0_split n s :
  (n ≤ String.length s)%nat →
  ∃ post, s = String.substring 0 n s +:+ post
          ∧ String.length (String.substring 0 n s) = n.
Proof.
  revert s. induction n as [|n IH]; intros s Hlen.
  - exists s. by destruct s.
  - destruct s as [|c s]; simpl in Hlen; [lia|].
    destruct (IH s) as (post & Hs & Hl); [lia|].
    exists post. cbn [String.substring String.length].
    rewrite string_app_cons, <- Hs, Hl. done.
Qed.

(** A slice that lies within the string splits the string around it. *)
Lemma substring_split i n s :
  (i + n ≤ String.length s)%nat →
  ∃ pre post, s = pre +:+ String.substring i n s +:+ post
              ∧ String.length pre = i
              ∧ String.length (String.substring i n s) = n.
Proof.
  revert s. induction i as [|i IH]; intros s Hlen.
  - destruct (substring_0_split n s) as (post & Hs & Hl); [lia|].
    by exists "", post.
  - destruct s as [|c s]; simpl in Hlen; [lia|].
    destruct (IH s) as (pre & post & Hs & Hp & Hl); [lia|].
    exists (String c pre), post. cbn [String.substring String.length].
    rewrite string_app_cons, <- Hs, Hp. done.
Qed.

Lemma containsIgnoreCaseImpl_iff s substr :
  mcp.containsIgnoreCaseImpl s substr = true
  ↔ ∃ i : nat, (i + String.length substr ≤ String.length s)%nat
               ∧ mcp.equalIgnoreCase
                   (String.substring i (String.length substr) s) substr = true.
Proof.
  unfold mcp.containsIgnoreCaseImpl. rewrite existsb_elem. unfold slice, len_s.
  split.
  - intros (z & Hz%elem_of_seqZ & Heq). exists (Z.to_nat z). split; [lia|].
    replace (Z.to_nat (z + Z.of_nat (String.length substr) - z))
      with (String.length substr) in Heq by lia. done.
  - intros (i & Hi & Heq). exists (Z.of_nat i). split.
    + apply elem_of_seqZ. lia.
    + replace (Z.to_nat (Z.of_nat i + Z.of_nat (String.length substr) - Z.of_nat i))
        with (String.length substr) by lia.
      by rewrite Nat2Z.id.
Qed.

Lemma containsIgnoreCase_iff s substr :
  mcp.containsIgnoreCase s substr = true
  ↔ ∃ pre mid post, s = pre +:+ mid +:+ post
                    ∧ ascii_ToLower mid = ascii_ToLower substr.
Proof.
  unfold mcp.containsIgnoreCase.
  rewrite andb_true_iff, !orb_true_iff, andb_true_iff, bool_decide_eq_true.
  rewrite containsIgnoreCaseImpl_iff, Z.leb_le, Z.eqb_eq, Z.ltb_lt.
  unfold len_s. split.
  - intros [Hlen [[->|Hzero]|[Hpos (i & Hi & Heq)]]].
    + exists "", substr, "". split; [|done].
      change (substr = substr +:+ ""). by rewrite string_app_nil_r.
    + exists "", "", s. split; [done|]. by destruct substr.
    + destruct (substring_split i (String.length substr) s Hi)
        as (pre & post & Hs & _ & _).
      exists pre, (String.substring i (String.length substr) s), post.
      split; [done|]. by apply equalIgnoreCase_lower.
  - intros (pre & mid & post & -> & Hlow).
    assert (Hl : String.length mid = String.length substr).
    { by rewrite <- (length_ascii_ToLower mid), Hlow, length_ascii_ToLower. }
    rewrite !length_string_app. split; [lia|].
    destruct substr as [|c t]; [left; by right|]. right.
    split; [simpl in *; lia|].
    exists (String.length pre). split; [simpl in *; lia|].
    rewrite <- (Nat.add_0_r (String.length pre)) at 1.
    rewrite substring_skip, <- Hl, substring_0_app.
    by apply equalIgnoreCase_lower.
Qed.
End search_semantics.

(** X21. The search test is a substring test up to the case of the ASCII
    letters: [containsIgnoreCase(s, q)] holds exactly when some contiguous
    part of [s] equals [q] once the bytes ['A'..'Z'] of both are lowered;
    other bytes are compared as they are.  The matches of a search are the
    bookmarks whose title or URL passes the test, in collection order. *)
Theorem search_is_ascii_case_insensitive :
  (∀ s query,
     mcp.containsIgnoreCase s query = true
     ↔ ∃ pre mid post, s = pre +:+ mid +:+ post
                       ∧ go.ascii_ToLower mid = go.ascii_ToLower query)
  ∧ (∀ query bookmarks b,
       b ∈ mcp.search_matches query bookmarks
       ↔ b ∈ bookmarks
         ∧ (mcp.containsIgnoreCase (bookmark.Title b) query = true
            ∨ mcp.containsIgnoreCase (bookmark.URL b) query = true))
  ∧ (∀ query bookmarks,
       mcp.search_matches query bookmarks `sublist_of` bookmarks).
Proof.
  split_and!.
  - apply containsIgnoreCase_iff.
  - intros query bookmarks b. unfold mcp.search_matches.
    rewrite search_matches_loop. simpl.
    by rewrite filter_bool_elem, orb_true_iff.
  - intros query bookmarks. unfold mcp.search_matches.
    rewrite search_matches_loop. simpl. apply filter_bool_sublist.
Qed.

(** ** The Safari source-reader *)

Section safari_facts.
Import go bookmark.

(** Induction on a property list, with the hypothesis for all children. *)
Lemma safariBookmark_children_ind (P : safari.safariBookmark → Prop) :
  (∀ ty title url dict children,
     Forall P children → P (safari.mkNode ty title url dict children)) →
  ∀ node, P node.
Proof.
  intros Hnode.
  refine (fix IH (node : safari.safariBookmark) : P node :=
            match node with
            | safari.mkNode ty title url dict children =>
                Hnode ty title url dict children
                  ((fix go (l : list safari.safariBookmark) : Forall P l :=
                      match l with
                      | [] => List.Forall_nil P
                      | x :: l' => @List.Forall_cons _ P x l' (IH x) (go l')
                      end) children)
            end).
Qed.

Lemma leaf_bookmark_ingested node path b :
  safari.leaf_bookmark node path = Some b →
  safari.ingested b ∧ FolderPath b = path.
Proof.
  unfold safari.leaf_bookmark, safari.ingested.
  destruct (decide (_ ≠ "")) as [Hurl|]; [|done]. intros [= <-].
  cbn [Title URL Source Profile Tags FolderPath].
  split_and!; try done.
  match goal with
  | |- (if decide (?t = "") then _ else _) ≠ "" => by destruct (decide (t = ""))
  end.
Qed.

(** The children loop appends, and what it appends does not depend on
    what was collected before. *)
Lemma parse_children_app (children : list safari.safariBookmark) path acc :
  Forall (λ child, ∀ path acc,
            safari.parseBookmarks child path acc
            = acc ++ safari.parseBookmarks child path []) children →
  fold_left (λ acc child, safari.parseBookmarks child path acc) children acc
  = acc ++ fold_left (λ acc child, safari.parseBookmarks child path acc)
             children [].
Proof.
  intros Hall. revert acc.
  induction Hall as [|child children Hchild Hall IH]; intros acc.
  - simpl. by rewrite app_nil_r.
  - simpl. rewrite IH, (IH (safari.parseBookmarks child path [])).
    by rewrite Hchild, app_assoc.
Qed.

Lemma parseBookmarks_node ty title url dict children path acc :
  safari.parseBookmarks (safari.mkNode ty title url dict children) path acc
  = if decide (ty = "WebBookmarkTypeLeaf") then
      match safari.leaf_bookmark (safari.mkNode ty title url dict children) path
      with
      | Some b => acc ++ [b]
      | None => acc
      end
    else if decide (ty = "WebBookmarkTypeList") then
      fold_left (λ acc child,
                   safari.parseBookmarks child
                     (if decide (title ≠ "") then path ++ [title] else path) acc)
        children acc
    else fold_left (λ acc child, safari.parseBookmarks child path acc)
           children acc.
Proof. reflexivity. Qed.

Lemma parseBookmarks_app node :
  ∀ path acc,
    safari.parseBookmarks node path acc
    = acc ++ safari.parseBookmarks node path [].
Proof.
  induction node as [ty title url dict children IH]
    using safariBookmark_children_ind.
  intros path acc. rewrite !parseBookmarks_node.
  destruct (decide (ty = "WebBookmarkTypeLeaf")).
  { destruct (safari.leaf_bookmark _ _); [done|by rewrite app_nil_r]. }
  destruct (decide (ty = "WebBookmarkTypeList")); by apply parse_children_app.
Qed.

Lemma parse_children_Forall (Q : Bookmark → Prop)
    (children : list safari.safariBookmark) path :
  Forall (λ child, Forall Q (safari.parseBookmarks child path [])) children →
  Forall Q (fold_left (λ acc child, safari.parseBookmarks child path acc)
              children []).
Proof.
  intros Hall.
  induction Hall as [|child children Hchild Hall IH]; [constructor|].
  simpl. rewrite parse_children_app.
  - by apply Forall_app.
  - apply Forall_forall. intros c _. apply parseBookmarks_app.
Qed.

Lemma parseBookmarks_ingested node :
  ∀ path, Forall (λ b, safari.ingested b ∧ safari.within path b)
            (safari.parseBookmarks node path []).
Proof.
  induction node as [ty title url dict children IH]
    using safariBookmark_children_ind.
  intros path. rewrite parseBookmarks_node.
  destruct (decide (ty = "WebBookmarkTypeLeaf")).
  { destruct (safari.leaf_bookmark _ _) as [b|] eqn:Hleaf; [|constructor].
    apply leaf_bookmark_ingested in Hleaf as [Hb Hpath].
    constructor; [|constructor]. split; [done|].
    unfold safari.within. by rewrite Hpath. }
  destruct (decide (ty = "WebBookmarkTypeList")).
  - apply parse_children_Forall.
    eapply Forall_impl; [exact IH|]. intros child Hchild. simpl in Hchild.
    eapply Forall_impl; [apply Hchild|]. intros b [Hb Hw]. split; [done|].
    unfold safari.within in *. destruct (decide (title ≠ "")); [|done].
    etrans; [|exact Hw]. by apply prefix_app_r.
  - apply parse_children_Forall.
    eapply Forall_impl; [exact IH|]. intros child Hchild. apply Hchild.
Qed.
End safari_facts.


Example safari_parse_example :
  (λ b, (bookmark.Title b, bookmark.URL b, bookmark.FolderPath b))
    <$> safari.parseBookmarks fixtures.plist_root [] []
  = [("GitHub", "https://github.com", ["BookmarksBar"]);
     ("Go", "https://go.dev", ["BookmarksBar"]);
     ("https://example.org", "https://example.org", ["BookmarksBar"])].
Proof. vm_compute. done. Qed.

(** X23. Off macOS the Safari adapter is never available and its [Read]
    succeeds with no record, whatever path it was configured with.  On
    any system a [Read] that returns no error returns only complete
    records; [Configure] never fails and makes a non-empty custom path the
    path read; and an available adapter is on macOS with a non-empty path
    that exists. *)
Theorem safari_adapter_behaviour `{safari.OS}
    (Decode : safari.File → safari.safariBookmark + string)
    (a : safari.Adapter) :
  (safari.GOOS ≠ "darwin" →
   safari.Available a = false ∧ safari.Read Decode a = ([], None))
  ∧ (∀ records, safari.Read Decode a = (records, None) →
                Forall safari.ingested records)
  ∧ (∀ cfg, (safari.Configure cfg a).1 = None
            ∧ (input.CustomPath cfg ≠ "" →
               safari.Path (safari.Configure cfg a).2 = input.CustomPath cfg))
  ∧ (safari.Available a = true →
     safari.GOOS = "darwin" ∧ safari.Path a ≠ ""
     ∧ safari.Stat (safari.Path a) = true).
Proof.
  split_and!.
  - intros Hos. unfold safari.Available, safari.Read.
    by rewrite !decide_True.
  - intros records. unfold safari.Read.
    case_decide; [by intros [= <-]|].
    case_decide; [by intros [= <-]|].
    destruct (safari.Open _) as [file|err]; [|done].
    destruct (Decode file) as [root|err]; [|done].
    intros [= <-].
    eapply Forall_impl; [apply (parseBookmarks_ingested root [])|].
    by intros b [Hb _].
  - intros cfg. split; [done|]. intros Hc. simpl.
    unfold safari.bookmarkPath. by rewrite decide_True.
  - unfold safari.Available, safari.Path.
    case_decide as Hos; [done|]. case_decide; [done|].
    intros Hstat. split_and!; try done.
Qed.

Lemma safari_adapter_behaviour_witness :
  @safari.Available fixtures.linux
    (@safari.Configure fixtures.linux
       {| input.Enabled := true; input.Profile := "";
          input.CustomPath := "/tmp/Bookmarks.plist" |}
       (@safari.New fixtures.linux)).2 = false
  ∧ @safari.Read fixtures.linux fixtures.decode_id
      (@safari.Configure fixtures.linux
         {| input.Enabled := true; input.Profile := "";
            input.CustomPath := "/tmp/Bookmarks.plist" |}
         (@safari.New fixtures.linux)).2 = ([], None).
Proof.
  destruct (@safari_adapter_behaviour fixtures.linux fixtures.decode_id
              (@safari.Configure fixtures.linux
                 {| input.Enabled := true; input.Profile := "";
                    input.CustomPath := "/tmp/Bookmarks.plist" |}
                 (@safari.New fixtures.linux)).2) as [Hoff _].
  apply Hoff. discriminate.
Defined.

Example safari_read_on_darwin :
  length (@safari.Read fixtures.darwin fixtures.decode_id
            (@safari.New fixtures.darwin)).1 = 3%nat
  ∧ @safari.Available fixtures.darwin (@safari.New fixtures.darwin) = true.
Proof. vm_compute. done. Qed.
